(** * fastvpinns: the 2D finite-element space and its spectral basis

    A shallow embedding of

    - [fastvpinns/FE_2D/basis_2d_QN_Chebyshev_2.py] (class
      [Basis2DQNChebyshev2]: the Jacobi test functions, their derivatives and
      the six tensor-product evaluators), and
    - [fastvpinns/FE_2D/fespace2d.py] (class [Fespace2D]: construction, the
      Dirichlet boundary data, the per-cell accessors and the forcing
      integrals),

    followed by the properties of the specification that were checked against
    them.

    Conventions.  Python exceptions are values of [exn] carried by the
    [result] monad.  [numpy] arrays of [float64] are lists of rows together
    with their shape.  Double-precision arithmetic is the interface
    [Float64]: every statement below holds for any implementation of the five
    operations, IEEE-754 binary64 ([float]) included, which is the instance
    used for the concrete runs. *)

From Stdlib Require Import ZArith Floats.
From stdpp Require Import gmap strings list pretty.

Open Scope Z_scope.
Open Scope nat_scope.

(** ** Double-precision scalars *)

(** The operations the two source files apply to [np.float64] values:
    [+], [-], [*], [/] and the conversion of a Python [int]. *)
Class Float64 (F : Type) : Type := {
  fadd : F → F → F;
  fsub : F → F → F;
  fmul : F → F → F;
  fdiv : F → F → F;
  of_int : Z → F
}.

(** Conversion of an integer to binary64 (exact for magnitudes below 2^53,
    which is all the concrete runs use). *)
Definition float_of_int (z : Z) : float :=
  match z with
  | Z0 => 0%float
  | Zpos _ => PrimFloat.of_uint63 (Uint63.of_Z z)
  | Zneg p => PrimFloat.opp (PrimFloat.of_uint63 (Uint63.of_Z (Zpos p)))
  end.

#[export] Instance float_Float64 : Float64 float := {|
  fadd := PrimFloat.add;
  fsub := PrimFloat.sub;
  fmul := PrimFloat.mul;
  fdiv := PrimFloat.div;
  of_int := float_of_int
|}.

(** ** Exceptions and the error monad *)

Inductive exn : Type :=
| ValueError (msg : string)
| IndexError (msg : string)
| KeyError (key : Z).

Inductive result (A : Type) : Type :=
| Ok (a : A)
| Raise (e : exn).
Arguments Ok {A} a.
Arguments Raise {A} e.

#[export] Instance result_ret : MRet result := λ A a, Ok a.
#[export] Instance result_bind : MBind result := λ A B f m,
  match m with
  | Ok a => f a
  | Raise e => Raise e
  end.

#[export] Instance result_fmap : FMap result := λ A B f m,
  match m with
  | Ok a => Ok (f a)
  | Raise e => Raise e
  end.

(** [for i in it: s = body(s, i)], stopping at the first exception. *)
Fixpoint for_loop {S I : Type} (body : S → I → result S) (s : S) (it : list I) : result S :=
  match it with
  | [] => Ok s
  | i :: it' => s' ← body s i; for_loop body s' it'
  end.

(** [range(a, b)] *)
Definition range (a b : nat) : list nat := seq a (b - a).

(** ** Python lists *)

Definition list_index_msg : string := "list index out of range".

(** The position [l[i]] refers to: a negative [i] counts from the end. *)
Definition list_position {A : Type} (l : list A) (i : Z) : result nat :=
  let n := Z.of_nat (length l) in
  let j := if (i <? 0)%Z then (i + n)%Z else i in
  if ((0 <=? j)%Z && (j <? n)%Z)%bool then Ok (Z.to_nat j)
  else Raise (IndexError list_index_msg).

(** [l[i]] *)
Definition list_getitem {A : Type} (l : list A) (i : Z) : result A :=
  k ← list_position l i;
  match l !! k with
  | Some a => Ok a
  | None => Raise (IndexError list_index_msg)
  end.

(** ** numpy arrays *)

(** A 2D [ndarray]: its [shape] and its rows. *)
Record ndarray2 (F : Type) : Type := mk_ndarray2 {
  shape0 : nat;
  shape1 : nat;
  rows : list (list F)
}.
Arguments mk_ndarray2 {F} shape0 shape1 rows.
Arguments shape0 {F} _.
Arguments shape1 {F} _.
Arguments rows {F} _.

(** The rows agree with the shape. *)
Definition wf_ndarray2 {F : Type} (a : ndarray2 F) : Prop :=
  length (rows a) = shape0 a ∧ Forall (λ r, length r = shape1 a) (rows a).

Definition np_index_msg (i : nat) (axis : nat) (size : nat) : string :=
  "index " +:+ pretty i +:+ " is out of bounds for axis " +:+ pretty axis
  +:+ " with size " +:+ pretty size.

Definition np_broadcast_msg : string := "operands could not be broadcast together".
Definition np_assign_msg : string := "could not broadcast input array".
Definition np_squeeze_msg : string :=
  "cannot select an axis to squeeze out which has size not equal to one".
Definition np_inhomogeneous_msg : string :=
  "setting an array element with a sequence. The requested array has an inhomogeneous shape".

Section Numpy.
Context {F : Type} `{Float64 F}.

(** [v[i]] for a 1D array and [i >= 0] *)
Definition vec_getitem (v : list F) (i : nat) : result F :=
  match v !! i with
  | Some x => Ok x
  | None => Raise (IndexError (np_index_msg i 0 (length v)))
  end.

(** [a[i, :]] for [i >= 0] *)
Definition getrow (a : ndarray2 F) (i : nat) : result (list F) :=
  if i <? shape0 a then
    match rows a !! i with
    | Some r => Ok r
    | None => Raise (IndexError (np_index_msg i 0 (shape0 a)))
    end
  else Raise (IndexError (np_index_msg i 0 (shape0 a))).

(** [a[i, j]] for [i, j >= 0] *)
Definition getitem2 (a : ndarray2 F) (i j : nat) : result F :=
  if i <? shape0 a then
    if j <? shape1 a then
      match rows a !! i ≫= (.!! j) with
      | Some x => Ok x
      | None => Raise (IndexError (np_index_msg j 1 (shape1 a)))
      end
    else Raise (IndexError (np_index_msg j 1 (shape1 a)))
  else Raise (IndexError (np_index_msg i 0 (shape0 a))).

(** [a[:, j]] for [j >= 0] *)
Definition getcol (a : ndarray2 F) (j : nat) : result (list F) :=
  if j <? shape1 a then Ok (concat ((λ r, take 1 (drop j r)) <$> rows a))
  else Raise (IndexError (np_index_msg j 1 (shape1 a))).

(** [np.zeros((n, p), dtype=np.float64)] *)
Definition np_zeros (n p : nat) : ndarray2 F :=
  mk_ndarray2 n p (replicate n (replicate p (of_int 0))).

(** [np.asarray(rows)] for a list of equally long 1D arrays.  (For the
    empty list numpy answers the 1D shape [(0,)]; it is the 2D shape
    [(0, 0)] here, and no caller reads it.) *)
Definition np_asarray (l : list (list F)) : ndarray2 F :=
  mk_ndarray2 (length l) (match l with [] => 0 | r :: _ => length r end) l.

(** Stretching an axis of length one to length [n]. *)
Definition stretch {A : Type} (n : nat) (l : list A) : list A :=
  if length l =? n then l
  else match l with
       | [] => []
       | x :: _ => replicate n x
       end.

(** The common length of two broadcast axes, if there is one. *)
Definition broadcast_len (p q : nat) : option nat :=
  if p =? q then Some p
  else if p =? 1 then Some q
  else if q =? 1 then Some p
  else None.

(** [v * m] for a 1D [v] and a 2D [m]: [v] is broadcast along the rows. *)
Definition np_mul_vec_mat (v : list F) (m : ndarray2 F) : result (ndarray2 F) :=
  match broadcast_len (length v) (shape1 m) with
  | Some c =>
      Ok (mk_ndarray2 (shape0 m) c
            ((λ r, zip_with fmul (stretch c v) (stretch c r)) <$> rows m))
  | None => Raise (ValueError np_broadcast_msg)
  end.

(** [a[start:stop, :] = rhs]: the slice is clipped to the array, and [rhs]
    is broadcast to the shape of the slice. *)
Definition setitem_rows (a : ndarray2 F) (start stop : nat) (rhs : ndarray2 F)
  : result (ndarray2 F) :=
  let lo := start `min` shape0 a in
  let hi := (stop `min` shape0 a) `max` lo in
  let k := hi - lo in
  if ((shape0 rhs =? k) || (shape0 rhs =? 1))
     && ((shape1 rhs =? shape1 a) || (shape1 rhs =? 1)) then
    Ok (mk_ndarray2 (shape0 a) (shape1 a)
          (take lo (rows a)
           ++ stretch k (stretch (shape1 a) <$> rows rhs)
           ++ drop hi (rows a)))
  else Raise (ValueError np_assign_msg).

(** Element-wise operations on 1D arrays. *)
Definition arr_scale (s : F) (a : list F) : list F := fmul s <$> a.
Definition arr_div (a : list F) (s : F) : list F := (λ x, fdiv x s) <$> a.
Definition arr_sub (a b : list F) : list F := zip_with fsub a b.

End Numpy.

(** ** basis_2d_QN_Chebyshev_2.py *)

(** What the evaluators read of a [BasisFunction2D] object. *)
Record BasisFunction2D : Type := mk_BasisFunction2D {
  num_shape_functions : nat
}.

Definition jacobi_negative_msg : string := "n must be nonnegative.".

Section Basis2DQNChebyshev2.
Context {F : Type} `{Float64 F}.

(** [jacobi n a b x]: the value at [x] of the polynomial
    [scipy.special.jacobi(n, a, b)], for a degree [n >= 0]. *)
Variable jacobi : nat → F → F → F → F.

(** [jacobi_wrapper(n, a, b, x)] for a 1D array [x];
    [scipy.special.jacobi] raises [ValueError] on a negative degree. *)
Definition jacobi_wrapper (n : Z) (a b : F) (x : list F) : result (list F) :=
  if (n <? 0)%Z then Raise (ValueError jacobi_negative_msg)
  else Ok (jacobi (Z.to_nat n) a b <$> x).

(** [jacobi_wrapper(n, a, b, x)] for a scalar [x] *)
Definition jacobi_wrapper_scalar (n : Z) (a b : F) (x : F) : result F :=
  if (n <? 0)%Z then Raise (ValueError jacobi_negative_msg)
  else Ok (jacobi (Z.to_nat n) a b x).

(** [p / q] for two Python [int]s (true division) *)
Definition int_truediv (p q : Z) : F := fdiv (of_int p) (of_int q).

(** [P(n, a, b, x) / P(n, a, b, 1)] *)
Definition normalized (n : Z) (a b : F) (x : list F) : result (list F) :=
  p ← jacobi_wrapper n a b x;
  s ← jacobi_wrapper_scalar n a b (of_int 1);
  Ok (arr_div p s).

(** [c * P(n, a, b, x) / P(n1, -1/2, -1/2, 1)] *)
Definition scaled_term (c : F) (n : Z) (a b : F) (x : list F) (n1 : Z) : result (list F) :=
  p ← jacobi_wrapper n a b x;
  s ← jacobi_wrapper_scalar n1 (int_truediv (-1) 2) (int_truediv (-1) 2) (of_int 1);
  Ok (arr_div (arr_scale c p) s).

Definition test_fcnx (n_test : nat) (x : list F) : result (ndarray2 F) :=
  test_total ←
    for_loop (λ test_total k,
      let n := Z.of_nat k in
      t1 ← normalized (n + 1) (int_truediv (-1) 2) (int_truediv (-1) 2) x;
      t2 ← normalized (n - 1) (int_truediv (-1) 2) (int_truediv (-1) 2) x;
      Ok (test_total ++ [arr_sub t1 t2]))
    [] (range 1 (n_test + 1));
  Ok (np_asarray test_total).

Definition test_fcny (n_test : nat) (y : list F) : result (ndarray2 F) :=
  test_total ←
    for_loop (λ test_total k,
      let n := Z.of_nat k in
      t1 ← normalized (n + 1) (int_truediv (-1) 2) (int_truediv (-1) 2) y;
      t2 ← normalized (n - 1) (int_truediv (-1) 2) (int_truediv (-1) 2) y;
      Ok (test_total ++ [arr_sub t1 t2]))
    [] (range 1 (n_test + 1));
  Ok (np_asarray test_total).

(** One pass of the loop of [dtest_fcn]: the first and second derivative of
    the test function of index [n]. *)
Definition dtest_fcn_body (x : list F) (n : Z) : result (list F * list F) :=
  if (n =? 1)%Z then
    d1test ← scaled_term (int_truediv (n + 1) 2) n
                (int_truediv 1 2) (int_truediv 1 2) x (n + 1);
    d2test ← scaled_term (int_truediv ((n + 2) * (n + 1)) (2 * 2)) (n - 1)
                (int_truediv 3 2) (int_truediv 3 2) x (n + 1);
    Ok (d1test, d2test)
  else if (n =? 2)%Z then
    a1 ← scaled_term (int_truediv (n + 1) 2) n
            (int_truediv 1 2) (int_truediv 1 2) x (n + 1);
    b1 ← scaled_term (int_truediv (n - 1) 2) (n - 2)
            (int_truediv 1 2) (int_truediv 1 2) x (n - 1);
    d2test ← scaled_term (int_truediv ((n + 2) * (n + 1)) (2 * 2)) (n - 1)
                (int_truediv 3 2) (int_truediv 3 2) x (n + 1);
    Ok (arr_sub a1 b1, d2test)
  else
    a1 ← scaled_term (int_truediv (n + 1) 2) n
            (int_truediv 1 2) (int_truediv 1 2) x (n + 1);
    b1 ← scaled_term (int_truediv (n - 1) 2) (n - 2)
            (int_truediv 1 2) (int_truediv 1 2) x (n - 1);
    a2 ← scaled_term (int_truediv ((n + 2) * (n + 1)) (2 * 2)) (n - 1)
            (int_truediv 3 2) (int_truediv 3 2) x (n + 1);
    b2 ← scaled_term (int_truediv (n * (n - 1)) (2 * 2)) (n - 3)
            (int_truediv 3 2) (int_truediv 3 2) x (n - 1);
    Ok (arr_sub a1 b1, arr_sub a2 b2).

Definition dtest_fcn (n_test : nat) (x : list F) : result (ndarray2 F * ndarray2 F) :=
  totals ←
    for_loop (λ totals k,
      d ← dtest_fcn_body x (Z.of_nat k);
      Ok (totals.1 ++ [d.1], totals.2 ++ [d.2]))
    ([], []) (range 1 (n_test + 1));
  Ok (np_asarray totals.1, np_asarray totals.2).

(** [int(np.sqrt(N))] (the double-precision root is exact on the
    shape-function counts that occur, below 2^52). *)
Definition int_sqrt (N : nat) : nat := Nat.sqrt N.

(** The loop shared by the six evaluators:
    [values = np.zeros((N, P));
     for i in range(n): values[n*i : n*(i+1), :] = fx[i, :] * fy]. *)
Definition block_assign (N n P : nat) (fx fy : ndarray2 F) : result (ndarray2 F) :=
  for_loop (λ values i,
    r ← getrow fx i;
    prod ← np_mul_vec_mat r fy;
    setitem_rows values (n * i) (n * (i + 1)) prod)
  (np_zeros N P) (range 0 n).

Definition value (self : BasisFunction2D) (xi eta : list F) : result (ndarray2 F) :=
  let num_shape_func_in_1d := int_sqrt (num_shape_functions self) in
  test_x ← test_fcnx num_shape_func_in_1d xi;
  test_y ← test_fcny num_shape_func_in_1d eta;
  block_assign (num_shape_functions self) num_shape_func_in_1d (length xi) test_x test_y.

Definition gradx (self : BasisFunction2D) (xi eta : list F) : result (ndarray2 F) :=
  let num_shape_func_in_1d := int_sqrt (num_shape_functions self) in
  grad_test_x ← fst <$> dtest_fcn num_shape_func_in_1d xi;
  test_y ← test_fcny num_shape_func_in_1d eta;
  block_assign (num_shape_functions self) num_shape_func_in_1d (length xi) grad_test_x test_y.

Definition grady (self : BasisFunction2D) (xi eta : list F) : result (ndarray2 F) :=
  let num_shape_func_in_1d := int_sqrt (num_shape_functions self) in
  test_x ← test_fcnx num_shape_func_in_1d xi;
  grad_test_y ← fst <$> dtest_fcn num_shape_func_in_1d eta;
  block_assign (num_shape_functions self) num_shape_func_in_1d (length xi) test_x grad_test_y.

Definition gradxx (self : BasisFunction2D) (xi eta : list F) : result (ndarray2 F) :=
  let num_shape_func_in_1d := int_sqrt (num_shape_functions self) in
  grad_grad_x ← snd <$> dtest_fcn num_shape_func_in_1d xi;
  test_y ← test_fcny num_shape_func_in_1d eta;
  block_assign (num_shape_functions self) num_shape_func_in_1d (length xi) grad_grad_x test_y.

Definition gradxy (self : BasisFunction2D) (xi eta : list F) : result (ndarray2 F) :=
  let num_shape_func_in_1d := int_sqrt (num_shape_functions self) in
  grad_test_x ← fst <$> dtest_fcn num_shape_func_in_1d xi;
  grad_test_y ← fst <$> dtest_fcn num_shape_func_in_1d eta;
  block_assign (num_shape_functions self) num_shape_func_in_1d (length xi) grad_test_x grad_test_y.

Definition gradyy (self : BasisFunction2D) (xi eta : list F) : result (ndarray2 F) :=
  let num_shape_func_in_1d := int_sqrt (num_shape_functions self) in
  test_x ← test_fcnx num_shape_func_in_1d xi;
  grad_grad_y ← snd <$> dtest_fcn num_shape_func_in_1d eta;
  block_assign (num_shape_functions self) num_shape_func_in_1d (length xi) test_x grad_grad_y.

End Basis2DQNChebyshev2.

(** ** fespace2d.py *)

(** A 3D [ndarray], as [np.array] builds it from a list of 2D arrays. *)
Record ndarray3 (F : Type) : Type := mk_ndarray3 {
  shape3 : nat * nat * nat;
  planes : list (list (list F))
}.
Arguments mk_ndarray3 {F} shape3 planes.
Arguments shape3 {F} _.
Arguments planes {F} _.

(** The attributes of an [FE2D_Cell] object that [Fespace2D] reads or
    writes.  A Python forcing function is applied to two scalars by
    [get_forcing_function_values] and, in vector-valued problems, to two
    arrays by [get_forcing_function_values_vector], where it answers one
    array per component: the two uses are the two fields
    [forcing_function] and [forcing_function_vector]. *)
Record FE2D_Cell (F : Type) : Type := mk_FE2D_Cell {
  cell_coordinates : ndarray2 F;
  basis_function : BasisFunction2D;
  basis_at_quad : ndarray2 F;
  basis_gradx_at_quad : ndarray2 F;
  basis_gradx_at_quad_ref : ndarray2 F;
  basis_grady_at_quad : ndarray2 F;
  basis_grady_at_quad_ref : ndarray2 F;
  quad_actual_coordinates : ndarray2 F;
  mult : ndarray2 F;
  forcing_function : F → F → F;
  forcing_function_vector : list F → list F → list (list F);
  forcing_at_quad : ndarray2 F
}.
Arguments mk_FE2D_Cell {F}.
Arguments cell_coordinates {F} _.
Arguments basis_function {F} _.
Arguments basis_at_quad {F} _.
Arguments basis_gradx_at_quad {F} _.
Arguments basis_gradx_at_quad_ref {F} _.
Arguments basis_grady_at_quad {F} _.
Arguments basis_grady_at_quad_ref {F} _.
Arguments quad_actual_coordinates {F} _.
Arguments mult {F} _.
Arguments forcing_function {F} _.
Arguments forcing_function_vector {F} _.
Arguments forcing_at_quad {F} _.

(** The arguments of [Fespace2D.__init__] that the modelled methods use
    ([mesh], [output_path] and [bound_condition_dict] are only stored).
    The argument [forcing_function] is [space_forcing_function] here, with
    its use on arrays [space_forcing_function_vector]: the cell record has
    the names [forcing_function] and [forcing_function_vector]. *)
Record Fespace2D_args (F : Type) : Type := mk_Fespace2D_args {
  cells : list (list Z);
  boundary_points : list (Z * ndarray2 F);
  cell_type : string;
  fe_order : Z;
  fe_type : string;
  quad_order : Z;
  quad_type : string;
  fe_transformation_type : string;
  bound_function_dict : gmap Z (F → F → F);
  space_forcing_function : F → F → F;
  space_forcing_function_vector : list F → list F → list (list F);
  generate_mesh_plot : bool
}.
Arguments mk_Fespace2D_args {F}.
Arguments cells {F} _.
Arguments boundary_points {F} _.
Arguments cell_type {F} _.
Arguments fe_order {F} _.
Arguments fe_type {F} _.
Arguments quad_order {F} _.
Arguments quad_type {F} _.
Arguments fe_transformation_type {F} _.
Arguments bound_function_dict {F} _.
Arguments space_forcing_function {F} _.
Arguments space_forcing_function_vector {F} _.
Arguments generate_mesh_plot {F} _.

(** The object: the constructor's arguments and the attributes computed
    from them.  [dirichlet_boundary_data] is [None] until [__init__] assigns
    it. *)
Record Fespace2D (F : Type) : Type := mk_Fespace2D {
  args : Fespace2D_args F;
  total_dofs : Z;
  total_boundary_dofs : Z;
  total_dirichlet_dofs : Z;
  n_cells : Z;
  fe_cell : list (FE2D_Cell F);
  dirichlet_boundary_data : option (list (list F) * list (ndarray2 F))
}.
Arguments mk_Fespace2D {F}.
Arguments args {F} _.
Arguments total_dofs {F} _.
Arguments total_boundary_dofs {F} _.
Arguments total_dirichlet_dofs {F} _.
Arguments n_cells {F} _.
Arguments fe_cell {F} _.
Arguments dirichlet_boundary_data {F} _.

Definition triangle_msg : string := "Triangle Mesh is not supported yet".

(** [f"cell_index should be less than {self.n_cells}"] *)
Definition cell_index_msg (n_cells : Z) : string :=
  "cell_index should be less than " +:+ pretty n_cells.

(** [marker_list] of [generate_plot] *)
Definition marker_list : list string :=
  ["o"; "."; ","; "x"; "+"; "P"; "s"; "D"; "d"; "^"; "v"; "<"; ">"; "p"; "h"; "H"].

(** [d[k]] on a [dict] *)
Definition dict_getitem {V : Type} (d : gmap Z V) (k : Z) : result V :=
  match d !! k with
  | Some v => Ok v
  | None => Raise (KeyError k)
  end.

(** [enumerate(l)] *)
Definition enumerate {A : Type} (l : list A) : list (Z * A) :=
  zip (Z.of_nat <$> seq 0 (length l)) l.

Section Fespace2D.
Context {F : Type} `{Float64 F}.

(** The constructor of the class [FE2D_Cell] (module [FE2D_Cell], imported
    by [fespace2d.py]): called with a row of [cells], the six
    configuration values and the forcing function, it answers the cell
    object or raises. *)
Variable FE2D_Cell_init :
  list Z → string → Z → string → Z → string → string →
  (F → F → F) → (list F → list F → list (list F)) → result (FE2D_Cell F).

(** [numpy]'s [np.sum] of a 1D array (its order of summation is numpy's
    own). *)
Variable np_sum : list F → F.

(** Attribute assignments. *)
Definition set_total_dofs (self : Fespace2D F) (v : Z) : Fespace2D F :=
  mk_Fespace2D (args self) v (total_boundary_dofs self) (total_dirichlet_dofs self)
    (n_cells self) (fe_cell self) (dirichlet_boundary_data self).

Definition set_total_boundary_dofs (self : Fespace2D F) (v : Z) : Fespace2D F :=
  mk_Fespace2D (args self) (total_dofs self) v (total_dirichlet_dofs self)
    (n_cells self) (fe_cell self) (dirichlet_boundary_data self).

Definition set_total_dirichlet_dofs (self : Fespace2D F) (v : Z) : Fespace2D F :=
  mk_Fespace2D (args self) (total_dofs self) (total_boundary_dofs self) v
    (n_cells self) (fe_cell self) (dirichlet_boundary_data self).

Definition set_fe_cell (self : Fespace2D F) (v : list (FE2D_Cell F)) : Fespace2D F :=
  mk_Fespace2D (args self) (total_dofs self) (total_boundary_dofs self)
    (total_dirichlet_dofs self) (n_cells self) v (dirichlet_boundary_data self).

Definition set_dirichlet_boundary_data (self : Fespace2D F)
    (v : list (list F) * list (ndarray2 F)) : Fespace2D F :=
  mk_Fespace2D (args self) (total_dofs self) (total_boundary_dofs self)
    (total_dirichlet_dofs self) (n_cells self) (fe_cell self) (Some v).

Definition set_forcing_at_quad (c : FE2D_Cell F) (v : ndarray2 F) : FE2D_Cell F :=
  mk_FE2D_Cell (cell_coordinates c) (basis_function c) (basis_at_quad c)
    (basis_gradx_at_quad c) (basis_gradx_at_quad_ref c) (basis_grady_at_quad c)
    (basis_grady_at_quad_ref c) (quad_actual_coordinates c) (mult c)
    (forcing_function c) (forcing_function_vector c) v.

(** [self.fe_cell[cell_index].forcing_at_quad = v] *)
Definition store_forcing_at_quad (self : Fespace2D F) (cell_index : Z) (v : ndarray2 F)
  : result (Fespace2D F) :=
  k ← list_position (fe_cell self) cell_index;
  match fe_cell self !! k with
  | Some c => Ok (set_fe_cell self (<[k := set_forcing_at_quad c v]> (fe_cell self)))
  | None => Raise (IndexError list_index_msg)
  end.

Definition set_finite_elements (self : Fespace2D F) : result (Fespace2D F) :=
  st ← for_loop (λ (st : Fespace2D F * Z) i,
      let '(self, dof) := st in
      row ← list_getitem (cells (args self)) (Z.of_nat i);
      c ← FE2D_Cell_init row (cell_type (args self)) (fe_order (args self))
             (fe_type (args self)) (quad_order (args self)) (quad_type (args self))
             (fe_transformation_type (args self))
             (space_forcing_function (args self))
             (space_forcing_function_vector (args self));
      let self := set_fe_cell self (fe_cell self ++ [c]) in
      ci ← list_getitem (fe_cell self) (Z.of_nat i);
      Ok (self, (dof + Z.of_nat (shape1 (basis_at_quad ci)))%Z))
    (self, 0%Z) (range 0 (Z.to_nat (n_cells self)));
  let '(self, dof) := st in
  (* the shapes of cell 0, for [print_table] *)
  _ ← list_getitem (fe_cell self) 0;
  Ok (set_total_dofs self dof).

(** [generate_plot], without the drawing: the arrays it slices, and the
    two counters it assigns. *)
Definition generate_plot (self : Fespace2D F) : result (Fespace2D F) :=
  total_quad ← for_loop (λ (total_quad : Z) i,
      c ← list_getitem (fe_cell self) (Z.of_nat i);
      x ← getcol (cell_coordinates c) 0;
      y ← getcol (cell_coordinates c) 1;
      x0 ← vec_getitem x 0;
      y0 ← vec_getitem y 0;
      x_quad ← getcol (quad_actual_coordinates c) 0;
      y_quad ← getcol (quad_actual_coordinates c) 1;
      Ok (total_quad + Z.of_nat (length x_quad))%Z)
    0%Z (range 0 (Z.to_nat (n_cells self)));
  let self := set_total_dofs self total_quad in
  bound_dof ← for_loop (λ (bound_dof : Z) (it : Z * (Z * ndarray2 F)),
      let '(i, (bound_id, bound_pts)) := it in
      x ← getcol bound_pts 0;
      y ← getcol bound_pts 1;
      x0 ← vec_getitem x 0;
      y0 ← vec_getitem y 0;
      let x := x ++ [x0] in
      let bound_dof := (bound_dof + Z.of_nat (length x))%Z in
      marker ← list_getitem marker_list (i + 1);
      Ok bound_dof)
    0%Z (enumerate (boundary_points (args self)));
  Ok (set_total_boundary_dofs self bound_dof).

(** [np.array(v, dtype=np.float64).reshape(-1, 1)] for a scalar [v] *)
Definition reshape_scalar (v : F) : ndarray2 F := mk_ndarray2 1 1 [[v]].

Definition generate_dirichlet_boundary_data (self : Fespace2D F)
  : result ((list (list F) * list (ndarray2 F)) * Fespace2D F) :=
  xy ← for_loop (λ (xy : list (list F) * list (ndarray2 F)) (it : Z * ndarray2 F),
      let '(bound_id, bound_pts) := it in
      for_loop (λ (xy : list (list F) * list (ndarray2 F)) pt,
          let '(x, y) := xy in
          p0 ← vec_getitem pt 0;
          p1 ← vec_getitem pt 1;
          let x := x ++ [[p0; p1]] in
          f ← dict_getitem (bound_function_dict (args self)) bound_id;
          let val := reshape_scalar (f p0 p1) in
          Ok (x, y ++ [val]))
        xy (rows bound_pts))
    ([], []) (boundary_points (args self));
  let self := set_total_dirichlet_dofs self (Z.of_nat (length xy.1)) in
  Ok (xy, self).

(** [Fespace2D.__init__] *)
Definition Fespace2D_init (a : Fespace2D_args F) : result (Fespace2D F) :=
  if String.eqb (cell_type a) "triangle" then Raise (ValueError triangle_msg)
  else
    let self := mk_Fespace2D a 0%Z 0%Z 0%Z (Z.of_nat (length (cells a))) [] None in
    self ← set_finite_elements self;
    self ← (if generate_mesh_plot a then generate_plot self else Ok self);
    r ← generate_dirichlet_boundary_data self;
    Ok (set_dirichlet_boundary_data r.2 r.1).

(** *** The per-cell accessors

    The nine methods that take a [cell_index] and guard it. *)

Definition get_shape_function_val (self : Fespace2D F) (cell_index : Z)
  : result (ndarray2 F) :=
  if (n_cells self <? cell_index)%Z then
    Raise (ValueError (cell_index_msg (n_cells self)))
  else
    c ← list_getitem (fe_cell self) cell_index;
    Ok (basis_at_quad c).

Definition get_shape_function_grad_x (self : Fespace2D F) (cell_index : Z)
  : result (ndarray2 F) :=
  if (n_cells self <? cell_index)%Z then
    Raise (ValueError (cell_index_msg (n_cells self)))
  else
    c ← list_getitem (fe_cell self) cell_index;
    Ok (basis_gradx_at_quad c).

Definition get_shape_function_grad_x_ref (self : Fespace2D F) (cell_index : Z)
  : result (ndarray2 F) :=
  if (n_cells self <? cell_index)%Z then
    Raise (ValueError (cell_index_msg (n_cells self)))
  else
    c ← list_getitem (fe_cell self) cell_index;
    Ok (basis_gradx_at_quad_ref c).

Definition get_shape_function_grad_y (self : Fespace2D F) (cell_index : Z)
  : result (ndarray2 F) :=
  if (n_cells self <? cell_index)%Z then
    Raise (ValueError (cell_index_msg (n_cells self)))
  else
    c ← list_getitem (fe_cell self) cell_index;
    Ok (basis_grady_at_quad c).

Definition get_shape_function_grad_y_ref (self : Fespace2D F) (cell_index : Z)
  : result (ndarray2 F) :=
  if (n_cells self <? cell_index)%Z then
    Raise (ValueError (cell_index_msg (n_cells self)))
  else
    c ← list_getitem (fe_cell self) cell_index;
    Ok (basis_grady_at_quad_ref c).

Definition get_quadrature_actual_coordinates (self : Fespace2D F) (cell_index : Z)
  : result (ndarray2 F) :=
  if (n_cells self <? cell_index)%Z then
    Raise (ValueError (cell_index_msg (n_cells self)))
  else
    c ← list_getitem (fe_cell self) cell_index;
    Ok (quad_actual_coordinates c).

Definition get_quadrature_weights (self : Fespace2D F) (cell_index : Z)
  : result (ndarray2 F) :=
  if (n_cells self <? cell_index)%Z then
    Raise (ValueError (cell_index_msg (n_cells self)))
  else
    c ← list_getitem (fe_cell self) cell_index;
    Ok (mult c).

(** [f_integral[i] = val] on an array of one column *)
Definition setitem_row_scalar (a : ndarray2 F) (i : nat) (v : F) : result (ndarray2 F) :=
  if i <? shape0 a then
    Ok (mk_ndarray2 (shape0 a) (shape1 a) (<[i := replicate (shape1 a) v]> (rows a)))
  else Raise (IndexError (np_index_msg i 0 (shape0 a))).

(** The two nested loops of [get_forcing_function_values] on one cell. *)
Definition forcing_integral (c : FE2D_Cell F) : result (ndarray2 F) :=
  let n_shape_functions := num_shape_functions (basis_function c) in
  for_loop (λ f_integral i,
      val ← for_loop (λ val q,
          x ← getitem2 (quad_actual_coordinates c) q 0;
          y ← getitem2 (quad_actual_coordinates c) q 1;
          b ← getitem2 (basis_at_quad c) i q;
          Ok (fadd val (fmul b (forcing_function c x y))))
        (of_int 0) (range 0 (shape1 (basis_at_quad c)));
      setitem_row_scalar f_integral i val)
    (np_zeros n_shape_functions 1) (range 0 n_shape_functions).

(** The method answers the array and leaves it in the cell: the result is
    the array and the updated object. *)
Definition get_forcing_function_values (self : Fespace2D F) (cell_index : Z)
  : result (ndarray2 F * Fespace2D F) :=
  if (n_cells self <? cell_index)%Z then
    Raise (ValueError (cell_index_msg (n_cells self)))
  else
    c ← list_getitem (fe_cell self) cell_index;
    f_integral ← forcing_integral c;
    self ← store_forcing_at_quad self cell_index f_integral;
    c ← list_getitem (fe_cell self) cell_index;
    Ok (forcing_at_quad c, self).

(** [m * v] for a 2D [m] and a 1D [v]: [v] is broadcast along the rows. *)
Definition np_mul_mat_vec (m : ndarray2 F) (v : list F) : result (ndarray2 F) :=
  match broadcast_len (shape1 m) (length v) with
  | Some c =>
      Ok (mk_ndarray2 (shape0 m) c
            ((λ r, zip_with fmul (stretch c r) (stretch c v)) <$> rows m))
  | None => Raise (ValueError np_broadcast_msg)
  end.

Definition get_forcing_function_values_vector (self : Fespace2D F)
    (cell_index : Z) (component : Z) : result (ndarray2 F * Fespace2D F) :=
  if (n_cells self <? cell_index)%Z then
    Raise (ValueError (cell_index_msg (n_cells self)))
  else
    c ← list_getitem (fe_cell self) cell_index;
    x ← getcol (quad_actual_coordinates c) 0;
    y ← getcol (quad_actual_coordinates c) 1;
    f_values ← list_getitem (forcing_function_vector c x y) component;
    prod ← np_mul_mat_vec (basis_at_quad c) f_values;
    let f_integral := np_sum <$> rows prod in
    (* [f_integral.reshape(-1, 1)] *)
    let col := mk_ndarray2 (length f_integral) 1 ((λ v, [v]) <$> f_integral) in
    self ← store_forcing_at_quad self cell_index col;
    c ← list_getitem (fe_cell self) cell_index;
    Ok (forcing_at_quad c, self).

(** *** Stacking the forcing integrals *)

(** [np.array(l)] for a list of 2D arrays: they must share one shape.
    (For the empty list numpy answers the 1D shape [(0,)]; it is the shape
    [(0, 0, 0)] here, which [np.squeeze(_, axis=0)] refuses alike.) *)
Definition np_array3 (l : list (ndarray2 F)) : result (ndarray3 F) :=
  match l with
  | [] => Ok (mk_ndarray3 (0, 0, 0) [])
  | a :: _ =>
      if forallb (λ b, (shape0 b =? shape0 a) && (shape1 b =? shape1 a)) l then
        Ok (mk_ndarray3 (length l, shape0 a, shape1 a) (rows <$> l))
      else Raise (ValueError np_inhomogeneous_msg)
  end.

(** [a[c, i, k]], read for indices inside the shape *)
Definition getitem3 (a : ndarray3 F) (c i k : nat) : F :=
  default (of_int 0) (p ← planes a !! c; r ← p !! i; r !! k).

(** [a.T]: the axes in reverse order *)
Definition np_transpose3 (a : ndarray3 F) : ndarray3 F :=
  let '(s0, s1, s2) := shape3 a in
  mk_ndarray3 (s2, s1, s0)
    ((λ k, (λ i, (λ c, getitem3 a c i k) <$> seq 0 s0) <$> seq 0 s1) <$> seq 0 s2).

(** [np.squeeze(a, axis=0)] *)
Definition np_squeeze0 (a : ndarray3 F) : result (ndarray2 F) :=
  let '(s0, s1, s2) := shape3 a in
  match s0, planes a with
  | 1, [p] => Ok (mk_ndarray2 s1 s2 p)
  | _, _ => Raise (ValueError np_squeeze_msg)
  end.

Definition get_forcing_data_for_training (self : Fespace2D F) : result (ndarray2 F) :=
  main_data ← for_loop (λ main_data cell_index,
      c ← list_getitem (fe_cell self) (Z.of_nat cell_index);
      let x := forcing_at_quad c in
      Ok (main_data ++ [x]))
    [] (range 0 (Z.to_nat (n_cells self)));
  a ← np_array3 main_data;
  np_squeeze0 (np_transpose3 a).

End Fespace2D.

(** * The specification's side

    The formulas and the shapes the specification states, to which the
    embedding above is compared. *)

Section SpecBasis.
Context {F : Type} `{Float64 F}.
Variable jacobi : nat → F → F → F → F.

(** [P_m(x)] of the specification: the Jacobi polynomial of degree [m]
    with parameters [a = b = -1/2]. *)
Definition spec_P (m : nat) (x : F) : F :=
  jacobi m (int_truediv (-1) 2) (int_truediv (-1) 2) x.

(** [test_k(x) = P_{k+1}(x)/P_{k+1}(1) − P_{k-1}(x)/P_{k-1}(1)] *)
Definition spec_test (k : nat) (x : F) : F :=
  fsub (fdiv (spec_P (k + 1) x) (spec_P (k + 1) (of_int 1)))
       (fdiv (spec_P (k - 1) x) (spec_P (k - 1) (of_int 1))).

(** The first derivative of [test_k]: coefficient [(k+1)/2] on the
    polynomial of parameters [(1/2, 1/2)]; from [k = 2] on, minus the
    lower-order term of coefficient [(k-1)/2]. *)
Definition spec_d1_lead (k : nat) (x : F) : F :=
  fdiv (fmul (int_truediv (Z.of_nat k + 1) 2)
             (jacobi k (int_truediv 1 2) (int_truediv 1 2) x))
       (spec_P (k + 1) (of_int 1)).

Definition spec_d1_lower (k : nat) (x : F) : F :=
  fdiv (fmul (int_truediv (Z.of_nat k - 1) 2)
             (jacobi (k - 2) (int_truediv 1 2) (int_truediv 1 2) x))
       (spec_P (k - 1) (of_int 1)).

Definition spec_d1test (k : nat) (x : F) : F :=
  if k =? 1 then spec_d1_lead k x
  else fsub (spec_d1_lead k x) (spec_d1_lower k x).

(** [((k+2)(k+1)/4) * P^{(3/2,3/2)}_{k-1}(x) / P^{(-1/2,-1/2)}_{k+1}(1)] *)
Definition spec_d2_lead (k : nat) (x : F) : F :=
  fdiv (fmul (int_truediv ((Z.of_nat k + 2) * (Z.of_nat k + 1)) 4)
             (jacobi (k - 1) (int_truediv 3 2) (int_truediv 3 2) x))
       (spec_P (k + 1) (of_int 1)).

(** [(k(k-1)/4) * P^{(3/2,3/2)}_{k-3}(x) / P^{(-1/2,-1/2)}_{k-1}(1)] *)
Definition spec_d2_lower (k : nat) (x : F) : F :=
  fdiv (fmul (int_truediv (Z.of_nat k * (Z.of_nat k - 1)) 4)
             (jacobi (k - 3) (int_truediv 3 2) (int_truediv 3 2) x))
       (spec_P (k - 1) (of_int 1)).

(** The three branches of the second derivative. *)
Definition spec_d2test (k : nat) (x : F) : F :=
  if k =? 1 then spec_d2_lead k x
  else if k =? 2 then spec_d2_lead k x
  else fsub (spec_d2_lead k x) (spec_d2_lower k x).

(** A family of [n] 1D functions sampled at the points [x]: one row per
    index [k = 1 .. n]. *)
Definition family (f : nat → F → F) (n : nat) (x : list F) : ndarray2 F :=
  np_asarray ((λ k, f k <$> x) <$> seq 1 n).
End SpecBasis.

Section SpecTensor.
Context {F : Type} `{Float64 F}.
(** The rows of the tensor product of two families, in row-major order:
    row [i * n + j] is the point-wise product of row [i] of the first and
    row [j] of the second. *)
Definition tensor_rows (fx fy : list (list F)) : list (list F) :=
  concat ((λ rx, (λ ry, zip_with fmul rx ry) <$> fy) <$> fx).

Definition zero_rows (k P : nat) : list (list F) := replicate k (replicate P (of_int 0)).

(** An array of [n] rows of [P] entries, as the 1D families are. *)
Definition is_family (n P : nat) (a : ndarray2 F) : Prop :=
  shape0 a = n ∧ length (rows a) = n ∧ Forall (λ r, length r = P) (rows a)
  ∧ (n ≠ 0 → shape1 a = P).
End SpecTensor.

Section SpecEval.
Context {F : Type} `{Float64 F}.

(** [v[i*n + j, p] = fx[i, p] * fy[j, p]] for all [i, j < n] and [p < P]. *)
Definition block_product (n P : nat) (fx fy v : ndarray2 F) : Prop :=
  ∀ i j p, i < n → j < n → p < P →
    ∃ a b, getitem2 fx i p = Ok a ∧ getitem2 fy j p = Ok b
           ∧ getitem2 v (i * n + j) p = Ok (fmul a b).

(** Every row from row [k] on holds zeros. *)
Definition zero_from (k : nat) (v : ndarray2 F) : Prop :=
  ∀ r p, k ≤ r < shape0 v → p < shape1 v → getitem2 v r p = Ok (of_int 0).

(** The outcome of an evaluator: an [N × P] array made of the [n × n]
    blocks of products of the two 1D families, and zeros below them. *)
Definition assembled (N P n : nat) (fx fy : ndarray2 F) (r : result (ndarray2 F)) : Prop :=
  ∃ v, r = Ok v ∧ shape0 v = N ∧ shape1 v = P ∧ wf_ndarray2 v
       ∧ block_product n P fx fy v ∧ zero_from (n * n) v.
End SpecEval.

Section SpecAccessors.
Context {F : Type} `{Float64 F}.
Variable np_sum : list F → F.

(** The seven accessors that answer a stored array, each with the
    attribute of the cell it reads. *)
Definition array_accessors
  : list ((Fespace2D F → Z → result (ndarray2 F)) * (FE2D_Cell F → ndarray2 F)) :=
  [ (get_shape_function_val, basis_at_quad);
    (get_shape_function_grad_x, basis_gradx_at_quad);
    (get_shape_function_grad_x_ref, basis_gradx_at_quad_ref);
    (get_shape_function_grad_y, basis_grady_at_quad);
    (get_shape_function_grad_y_ref, basis_grady_at_quad_ref);
    (get_quadrature_actual_coordinates, quad_actual_coordinates);
    (get_quadrature_weights, mult) ].

(** The two accessors that compute the forcing integral, with the updated
    object they leave behind. *)
Definition forcing_accessors (component : Z)
  : list (Fespace2D F → Z → result (ndarray2 F * Fespace2D F)) :=
  [ get_forcing_function_values;
    (λ self cell_index, get_forcing_function_values_vector np_sum self cell_index component) ].

(** A space whose [n_cells] counts its cells, as [__init__] leaves it. *)
Definition cells_counted (self : Fespace2D F) : Prop :=
  n_cells self = Z.of_nat (length (fe_cell self)).
End SpecAccessors.

Section SpecForcing.
Context {F : Type} `{Float64 F}.

(** [a[i, j]] as a total read (zero outside the array). *)
Definition entry (a : ndarray2 F) (i j : nat) : F :=
  default (of_int 0) (r ← rows a !! i; r !! j).

(** [Σ_q basis_value[i,q] * forcing(quad_physical[q,0], quad_physical[q,1])],
    summed from [q = 0] upwards, starting from [0]. *)
Definition spec_forcing_sum (c : FE2D_Cell F) (i : nat) : F :=
  foldl (λ val q,
      fadd val (fmul (entry (basis_at_quad c) i q)
                     (forcing_function c (entry (quad_actual_coordinates c) q 0)
                                         (entry (quad_actual_coordinates c) q 1))))
    (of_int 0) (seq 0 (shape1 (basis_at_quad c))).

(** The column of the [N] sums. *)
Definition spec_forcing_integral (c : FE2D_Cell F) : ndarray2 F :=
  let N := num_shape_functions (basis_function c) in
  mk_ndarray2 N 1 ((λ i, [spec_forcing_sum c i]) <$> seq 0 N).

(** The shapes of the record of a cell (specification, section 3):
    [basis_value[N,Q]] and [quad_physical[Q,2]]. *)
Definition cell_record_shapes (c : FE2D_Cell F) : Prop :=
  wf_ndarray2 (basis_at_quad c) ∧ wf_ndarray2 (quad_actual_coordinates c)
  ∧ shape0 (basis_at_quad c) = num_shape_functions (basis_function c)
  ∧ shape0 (quad_actual_coordinates c) = shape1 (basis_at_quad c)
  ∧ shape1 (quad_actual_coordinates c) = 2.
End SpecForcing.

Section SpecStack.
Context {F : Type} `{Float64 F}.

(** The forcing integral of a cell is a column with one entry per shape
    function (specification, section 3: [forcing_integral[N,1]]). *)
Definition forcing_column (N : nat) (c : FE2D_Cell F) : Prop :=
  wf_ndarray2 (forcing_at_quad c)
  ∧ shape0 (forcing_at_quad c) = N ∧ shape1 (forcing_at_quad c) = 1.
End SpecStack.

Section SpecInit.
Context {F : Type} `{Float64 F}.

(** The sum over the cells of the number of quadrature points: the second
    dimension of the basis-value matrix. *)
Definition sum_quadrature_points (l : list (FE2D_Cell F)) : Z :=
  Z.of_nat (sum_list_with (λ c, shape1 (basis_at_quad c)) l).

(** The sum over the boundary tags of the number of points listed. *)
Definition sum_boundary_points (bp : list (Z * ndarray2 F)) : Z :=
  Z.of_nat (sum_list_with (λ it, length (rows it.2)) bp).

(** The arrays indexed by the quadrature points of a cell have the same
    length (specification, section 3). *)
Definition quadrature_consistent (c : FE2D_Cell F) : Prop :=
  wf_ndarray2 (quad_actual_coordinates c)
  ∧ shape0 (quad_actual_coordinates c) = shape1 (basis_at_quad c).

(** Every listed boundary point has its two coordinates. *)
Definition points_2d (pts : ndarray2 F) : Prop :=
  Forall (λ pt, 2 ≤ length pt) (rows pts).

(** A tag that [generate_dirichlet_boundary_data] passes without an
    exception: it lists no point, or it has a boundary function. *)
Definition tag_passes (d : gmap Z (F → F → F)) (it : Z * ndarray2 F) : Prop :=
  points_2d it.2 ∧ (rows it.2 = [] ∨ is_Some (d !! it.1)).

(** The loop over the points of one tag. *)
Definition points_loop (d : gmap Z (F → F → F)) (bound_id : Z)
    (xy : list (list F) * list (ndarray2 F)) (pts : list (list F))
  : result (list (list F) * list (ndarray2 F)) :=
  for_loop (λ (xy : list (list F) * list (ndarray2 F)) pt,
      let '(x, y) := xy in
      p0 ← vec_getitem pt 0;
      p1 ← vec_getitem pt 1;
      let x := x ++ [[p0; p1]] in
      f ← dict_getitem d bound_id;
      let val := reshape_scalar (f p0 p1) in
      Ok (x, y ++ [val]))
    xy pts.

(** The loop over the tags. *)
Definition tags_loop (d : gmap Z (F → F → F))
    (xy : list (list F) * list (ndarray2 F)) (bp : list (Z * ndarray2 F))
  : result (list (list F) * list (ndarray2 F)) :=
  for_loop (λ (xy : list (list F) * list (ndarray2 F)) (it : Z * ndarray2 F),
      points_loop d it.1 xy (rows it.2))
    xy bp.
End SpecInit.

Section SpecClaims.
Context {F : Type} `{Float64 F}.

(** The six evaluators assemble the blocks of the 1D families computed
    by [test_fcnx], [test_fcny] and [dtest_fcn] for [n] functions per
    axis. *)
Definition evaluators_assemble (jacobi : nat → F → F → F → F)
    (N n : nat) (xi eta : list F) : Prop :=
  let self := mk_BasisFunction2D N in
  let P := length xi in
  ∃ tx ty d1x d2x d1y d2y,
    test_fcnx jacobi n xi = Ok tx ∧ test_fcny jacobi n eta = Ok ty
    ∧ dtest_fcn jacobi n xi = Ok (d1x, d2x) ∧ dtest_fcn jacobi n eta = Ok (d1y, d2y)
    ∧ assembled N P n tx ty (value jacobi self xi eta)
    ∧ assembled N P n d1x ty (gradx jacobi self xi eta)
    ∧ assembled N P n tx d1y (grady jacobi self xi eta)
    ∧ assembled N P n d2x ty (gradxx jacobi self xi eta)
    ∧ assembled N P n d1x d1y (gradxy jacobi self xi eta)
    ∧ assembled N P n tx d2y (gradyy jacobi self xi eta).

(** What a call with the index [c] answers when it fails at the index:
    some exception; the guard's [ValueError] above [n_cells], the list's
    [IndexError] below [-n_cells]. *)
Definition index_refused {A : Type} (self : Fespace2D F) (c : Z) (r : result A) : Prop :=
  ∃ e, r = Raise e
    ∧ ((n_cells self < c)%Z → e = ValueError (cell_index_msg (n_cells self)))
    ∧ ((c < - n_cells self)%Z → e = IndexError list_index_msg).
End SpecClaims.

(** * Concrete runs

    A Jacobi evaluator, two cells and a small space on binary64 floats, on
    which the statements below are run. *)

Section JacobiRecurrence.
Context {F : Type} `{Float64 F}.

(** The Jacobi polynomials by their three-term recurrence:
    [P_0 = 1], [P_1 = (a + 1) + (a + b + 2) (x - 1) / 2] and
    [2n (n+a+b) (2n+a+b-2) P_n
       = (2n+a+b-1) ((2n+a+b) (2n+a+b-2) x + a² - b²) P_{n-1}
         - 2 (n+a-1) (n+b-1) (2n+a+b) P_{n-2}].
    [jacobi_pair n] is the pair of [P_{n+1}] and [P_n]. *)
Fixpoint jacobi_pair (n : nat) (a b x : F) : F * F :=
  match n with
  | 0 =>
      (fadd (fadd a (of_int 1))
            (fdiv (fmul (fadd (fadd a b) (of_int 2)) (fsub x (of_int 1))) (of_int 2)),
       of_int 1)
  | S m =>
      let '(p1, p2) := jacobi_pair m a b x in
      let k := of_int (Z.of_nat (S n)) in
      let ab := fadd a b in
      let t := fadd (fmul (of_int 2) k) ab in
      let lhs := fmul (fmul (fmul (of_int 2) k) (fadd k ab)) (fsub t (of_int 2)) in
      let c1 := fmul (fsub t (of_int 1))
                  (fadd (fmul (fmul t (fsub t (of_int 2))) x)
                        (fsub (fmul a a) (fmul b b))) in
      let c2 := fmul (fmul (fmul (of_int 2) (fsub (fadd k a) (of_int 1)))
                           (fsub (fadd k b) (of_int 1))) t in
      (fdiv (fsub (fmul c1 p1) (fmul c2 p2)) lhs, p1)
  end.

Definition jacobi_recurrence (n : nat) (a b x : F) : F :=
  match n with
  | 0 => of_int 1
  | S m => (jacobi_pair m a b x).1
  end.
End JacobiRecurrence.

(** A forcing function and a boundary function. *)
Definition ex_forcing (x y : float) : float := (x + y)%float.
Definition ex_forcing_vector (x y : list float) : list (list float) :=
  [zip_with PrimFloat.add x y; zip_with PrimFloat.sub x y].
Definition ex_boundary (x y : float) : float := (x * y)%float.
Definition ex_np_sum (l : list float) : float := foldl PrimFloat.add 0%float l.

(** A cell record with one shape function and the four quadrature points
    [(0.25, 0.25)], [(0.75, 0.25)], [(0.25, 0.75)], [(0.75, 0.75)] of the
    unit square; [b] holds the four basis values. *)
Definition ex_cell (b : list float) (f : float → float → float)
    (fv : list float → list float → list (list float)) (forcing : float)
  : FE2D_Cell float :=
  mk_FE2D_Cell
    (mk_ndarray2 4 2 [[0; 0]; [1; 0]; [1; 1]; [0; 1]]%float)
    (mk_BasisFunction2D 1)
    (mk_ndarray2 1 4 [b])
    (mk_ndarray2 1 4 [[1; -1; 1; -1]]%float)
    (mk_ndarray2 1 4 [[2; -2; 2; -2]]%float)
    (mk_ndarray2 1 4 [[0.5; 0.5; -0.5; -0.5]]%float)
    (mk_ndarray2 1 4 [[1; 1; -1; -1]]%float)
    (mk_ndarray2 4 2 [[0.25; 0.25]; [0.75; 0.25]; [0.25; 0.75]; [0.75; 0.75]]%float)
    (mk_ndarray2 4 1 [[0.25]; [0.25]; [0.25]; [0.25]]%float)
    f fv
    (mk_ndarray2 1 1 [[forcing]]).

Definition ex_basis0 : list float := [0.5; 0.25; 0.25; 0.125]%float.
Definition ex_basis1 : list float := [0.125; 0.25; 0.25; 0.5]%float.

(** A stand-in for the constructor of [FE2D_Cell]: the cell whose first
    vertex is vertex 0 has the basis values [ex_basis0], any other cell
    [ex_basis1]; the forcing integral is the quadrature sum. *)
Definition ex_FE2D_Cell_init (row : list Z) (cell_type : string) (fe_order : Z)
    (fe_type : string) (quad_order : Z) (quad_type : string)
    (fe_transformation_type : string) (f : float → float → float)
    (fv : list float → list float → list (list float)) : result (FE2D_Cell float) :=
  let c := if (default 0 (head row) =? 0)%Z
           then ex_cell ex_basis0 f fv 0 else ex_cell ex_basis1 f fv 0 in
  a ← forcing_integral c;
  Ok (set_forcing_at_quad c a).

Definition ex_args (bp : list (Z * ndarray2 float)) (d : gmap Z (float → float → float))
    (plot : bool) : Fespace2D_args float :=
  mk_Fespace2D_args [[0; 1; 2; 3]%Z; [1; 4; 5; 2]%Z] bp "quadrilateral" 1 "jacobi" 2
    "gauss-jacobi" "bilinear" d ex_forcing ex_forcing_vector plot.

Definition ex_boundary_points : list (Z * ndarray2 float) :=
  [ (1000%Z, mk_ndarray2 2 2 [[0; 0]; [0.5; 0]]%float);
    (1001%Z, mk_ndarray2 1 2 [[1; 0.5]]%float) ].

Definition ex_bound_function_dict : gmap Z (float → float → float) :=
  {[ 1000%Z := ex_boundary; 1001%Z := ex_boundary ]}.

(** The same arguments without a boundary function for the tag 1001. *)
Definition ex_args_absent : Fespace2D_args float :=
  ex_args ex_boundary_points {[ 1000%Z := ex_boundary ]} false.

(** The two cells of the space, and the space [__init__] builds from them
    and three boundary points. *)
Definition ex_cell0 : FE2D_Cell float :=
  ex_cell ex_basis0 ex_forcing ex_forcing_vector 0.9375.
Definition ex_cell1 : FE2D_Cell float :=
  ex_cell ex_basis1 ex_forcing ex_forcing_vector 1.3125.

Definition ex_space : Fespace2D float :=
  mk_Fespace2D (ex_args ex_boundary_points ex_bound_function_dict true) 8 5 3 2
    [ex_cell0; ex_cell1]
    (Some ([[0; 0]; [0.5; 0]; [1; 0.5]]%float,
           [mk_ndarray2 1 1 [[0]]; mk_ndarray2 1 1 [[0]]; mk_ndarray2 1 1 [[0.5]]]%float)).

(** * Further definitions

    The evaluators as one list, the example
    [examples/forward_problems_2d/complex_mesh/poisson_2d/sin_cos.py], the
    vector-valued Dirichlet extraction, and the formulas of the further
    properties at the end of the file. *)

Section SpecBasisMore.
Context {F : Type} `{Float64 F}.

(** The 1D function of differentiation order [o] and index [k]: the test
    function for [o = 0], its first derivative for [o = 1], its second for
    [o = 2]. *)
Definition spec_family (jacobi : nat → F → F → F → F) (o : nat) : nat → F → F :=
  match o with
  | 0 => spec_test jacobi
  | 1 => spec_d1test jacobi
  | _ => spec_d2test jacobi
  end.

(** The six evaluators, each with the differentiation orders of the two
    1D families it multiplies (along [xi], along [eta]). *)
Definition evaluators (jacobi : nat → F → F → F → F)
  : list ((BasisFunction2D → list F → list F → result (ndarray2 F)) * (nat * nat)) :=
  [ (value jacobi, (0, 0)); (gradx jacobi, (1, 0)); (grady jacobi, (0, 1));
    (gradxx jacobi, (2, 0)); (gradxy jacobi, (1, 1)); (gradyy jacobi, (0, 2)) ].
End SpecBasisMore.

Section SinCos.
Context {F : Type} `{Float64 F}.

(** [np.sin] on a scalar, and the constant [np.pi]. *)
Variable np_sin : F → F.
Variable np_pi : F.

Definition left_boundary (x y : F) : F :=
  let omegaX := fmul (of_int 2) np_pi in
  let omegaY := fmul (of_int 2) np_pi in
  fmul (fmul (of_int (-1)) (np_sin (fmul omegaX x))) (np_sin (fmul omegaY y)).

Definition right_boundary (x y : F) : F :=
  let val := of_int 0 in
  let omegaX := fmul (of_int 2) np_pi in
  let omegaY := fmul (of_int 2) np_pi in
  fmul (fmul (of_int (-1)) (np_sin (fmul omegaX x))) (np_sin (fmul omegaY y)).

Definition top_boundary (x y : F) : F :=
  let val := of_int 0 in
  let omegaX := fmul (of_int 2) np_pi in
  let omegaY := fmul (of_int 2) np_pi in
  fmul (fmul (of_int (-1)) (np_sin (fmul omegaX x))) (np_sin (fmul omegaY y)).

Definition bottom_boundary (x y : F) : F :=
  let omegaX := fmul (of_int 2) np_pi in
  let omegaY := fmul (of_int 2) np_pi in
  fmul (fmul (of_int (-1)) (np_sin (fmul omegaX x))) (np_sin (fmul omegaY y)).

Definition exact_solution (x y : F) : F :=
  let omegaX := fmul (of_int 2) np_pi in
  let omegaY := fmul (of_int 2) np_pi in
  let val := fmul (fmul (of_int (-1)) (np_sin (fmul omegaX x))) (np_sin (fmul omegaY y)) in
  val.

Definition get_boundary_function_dict : gmap Z (F → F → F) :=
  {[ 1000%Z := bottom_boundary; 1001%Z := right_boundary;
     1002%Z := top_boundary; 1003%Z := left_boundary ]}.

Definition get_bound_cond_dict : gmap Z string :=
  {[ 1000%Z := "dirichlet"; 1001%Z := "dirichlet";
     1002%Z := "dirichlet"; 1003%Z := "dirichlet" ]}.
End SinCos.

Section SpecDirichlet.
Context {F : Type} `{Float64 F}.

(** The first two coordinates of a point. *)
Definition first2 (pt : list F) : option (F * F) :=
  match pt with
  | a :: b :: _ => Some (a, b)
  | _ => None
  end.

(** The sequence of boundary coordinates: the points of every tag, tag
    after tag, cut to two coordinates. *)
Definition spec_dirichlet_x (bp : list (Z * ndarray2 F)) : list (list F) :=
  it ← bp; omap (λ pt, (λ ab : F * F, [ab.1; ab.2]) <$> first2 pt) (rows it.2).

(** The sequence of boundary values: the function of the tag at every
    point of the tag, as a [1 × 1] array. *)
Definition spec_dirichlet_y (d : gmap Z (F → F → F)) (bp : list (Z * ndarray2 F))
  : list (ndarray2 F) :=
  it ← bp;
  match d !! it.1 with
  | Some f => omap (λ pt, (λ ab : F * F, reshape_scalar (f ab.1 ab.2)) <$> first2 pt)
                (rows it.2)
  | None => []
  end.

(** The cell built for a row of [cells] by the constructor [init], called
    with the configuration and the forcing function of the space. *)
Definition cell_of_row
    (init : list Z → string → Z → string → Z → string → string →
            (F → F → F) → (list F → list F → list (list F)) → result (FE2D_Cell F))
    (a : Fespace2D_args F) (row : list Z) : result (FE2D_Cell F) :=
  init row (cell_type a) (fe_order a) (fe_type a) (quad_order a) (quad_type a)
    (fe_transformation_type a) (space_forcing_function a)
    (space_forcing_function_vector a).

(** The number of boundary points [generate_plot] counts: every tag's
    points, and its first point once more. *)
Definition sum_plotted_points (bp : list (Z * ndarray2 F)) : Z :=
  Z.of_nat (sum_list_with (λ it, length (rows it.2) + 1) bp).


(** [Σ_q basis_at_quad[i, q] * f_values[q]] as [np.sum] adds it. *)
Definition spec_forcing_sum_vector (np_sum : list F → F) (c : FE2D_Cell F)
    (f_values : list F) (i : nat) : F :=
  np_sum (zip_with fmul (default [] (rows (basis_at_quad c) !! i)) f_values).
End SpecDirichlet.

Section SpecCells.
Context {F : Type} `{Float64 F}.
Variable FE2D_Cell_init :
  list Z → string → Z → string → Z → string → string →
  (F → F → F) → (list F → list F → list (list F)) → result (FE2D_Cell F).

(** The loop of [set_finite_elements], on the indices [l]. *)
Definition cells_loop (st : Fespace2D F * Z) (l : list nat) : result (Fespace2D F * Z) :=
  for_loop (λ (st : Fespace2D F * Z) i,
      let '(self, dof) := st in
      row ← list_getitem (cells (args self)) (Z.of_nat i);
      c ← FE2D_Cell_init row (cell_type (args self)) (fe_order (args self))
             (fe_type (args self)) (quad_order (args self)) (quad_type (args self))
             (fe_transformation_type (args self))
             (space_forcing_function (args self))
             (space_forcing_function_vector (args self));
      let self := set_fe_cell self (fe_cell self ++ [c]) in
      ci ← list_getitem (fe_cell self) (Z.of_nat i);
      Ok (self, (dof + Z.of_nat (shape1 (basis_at_quad ci)))%Z))
    st l.

(** What [generate_plot] reads of a cell: at least one vertex, and two
    columns in the vertices and in the quadrature points. *)
Definition plot_cell (c : FE2D_Cell F) : Prop :=
  wf_ndarray2 (cell_coordinates c) ∧ 1 ≤ shape0 (cell_coordinates c)
  ∧ 2 ≤ shape1 (cell_coordinates c)
  ∧ wf_ndarray2 (quad_actual_coordinates c) ∧ 2 ≤ shape1 (quad_actual_coordinates c).

(** What [generate_plot] reads of a boundary tag: at least one point, with
    two columns. *)
Definition plot_tag (it : Z * ndarray2 F) : Prop :=
  wf_ndarray2 it.2 ∧ 1 ≤ shape0 it.2 ∧ 2 ≤ shape1 it.2.

(** The sum over the cells of the number of rows of
    [quad_actual_coordinates]. *)
Definition sum_quadrature_rows (l : list (FE2D_Cell F)) : Z :=
  Z.of_nat (sum_list_with (λ c, shape0 (quad_actual_coordinates c)) l).
End SpecCells.

(** Stand-ins for [np.sin] (its Taylor polynomial of degree 5) and for
    [np.pi], for the concrete runs. *)
Definition ex_np_sin (x : float) : float :=
  (x - x * x * x / 6 + x * x * x * x * x / 120)%float.
Definition ex_np_pi : float := 0x1.921fb54442d18p+1%float.

(** Two tags of the unit square with the boundary functions of
    [sin_cos.py]. *)
Definition ex_args_sin_cos : Fespace2D_args float :=
  ex_args ex_boundary_points (get_boundary_function_dict ex_np_sin ex_np_pi) false.

(** A stand-in for a constructor that refuses a row without four vertices. *)
Definition ex_FE2D_Cell_init_strict (row : list Z) (cell_type : string) (fe_order : Z)
    (fe_type : string) (quad_order : Z) (quad_type : string)
    (fe_transformation_type : string) (f : float → float → float)
    (fv : list float → list float → list (list float)) : result (FE2D_Cell float) :=
  if length row =? 4
  then ex_FE2D_Cell_init row cell_type fe_order fe_type quad_order quad_type
         fe_transformation_type f fv
  else Raise (ValueError "a quadrilateral has four vertices").

(** Three rows of [cells], the second one short of a vertex. *)
Definition ex_args_short_row : Fespace2D_args float :=
  mk_Fespace2D_args [[0; 1; 2; 3]%Z; [1; 4; 5]%Z; [1; 4; 5; 2]%Z] ex_boundary_points
    "quadrilateral" 1 "jacobi" 2 "gauss-jacobi" "bilinear" ex_bound_function_dict
    ex_forcing ex_forcing_vector false.

(** The arguments of the example space without cells. *)
Definition ex_args_no_cells : Fespace2D_args float :=
  mk_Fespace2D_args [] ex_boundary_points "quadrilateral" 1 "jacobi" 2
    "gauss-jacobi" "bilinear" ex_bound_function_dict ex_forcing ex_forcing_vector false.

Section DirichletVector.
Context {F : Type} `{Float64 F}.

(** [generate_dirichlet_boundary_data_vector(component)].  In a
    vector-valued problem a boundary function answers one value per
    component; [bound_function_dict_vector] is [self.bound_function_dict]
    in that use (as [forcing_function_vector] is the forcing function on
    arrays).  The method assigns no attribute. *)
Definition generate_dirichlet_boundary_data_vector
    (bound_function_dict_vector : gmap Z (F → F → list F))
    (self : Fespace2D F) (component : Z)
  : result (list (list F) * list (ndarray2 F)) :=
  for_loop (λ (xy : list (list F) * list (ndarray2 F)) (it : Z * ndarray2 F),
      let '(bound_id, bound_pts) := it in
      for_loop (λ (xy : list (list F) * list (ndarray2 F)) pt,
          let '(x, y) := xy in
          p0 ← vec_getitem pt 0;
          p1 ← vec_getitem pt 1;
          let x := x ++ [[p0; p1]] in
          f ← dict_getitem bound_function_dict_vector bound_id;
          v ← list_getitem (f p0 p1) component;
          let val := reshape_scalar v in
          Ok (x, y ++ [val]))
        xy (rows bound_pts))
    ([], []) (boundary_points (args self)).

(** At the tag [t], the scalar dictionary [d] holds the component
    [component] of the vector dictionary [dv] (or both have no entry). *)
Definition component_agrees (dv : gmap Z (F → F → list F)) (d : gmap Z (F → F → F))
    (component : Z) (t : Z) : Prop :=
  match dv !! t, d !! t with
  | Some fv, Some f => ∀ a b, list_getitem (fv a b) component = Ok (f a b)
  | None, None => True
  | _, _ => False
  end.
End DirichletVector.

(** Boundary functions with two components, the first one [ex_boundary]. *)
Definition ex_bound_function_dict_vector : gmap Z (float → float → list float) :=
  {[ 1000%Z := λ x y, [x * y; x + y]%float; 1001%Z := λ x y, [x * y; x - y]%float ]}.

(** The example space after [get_forcing_function_values_vector] on cell 0
    and component 1. *)
Definition ex_space_vector : Fespace2D float :=
  mk_Fespace2D (ex_args ex_boundary_points ex_bound_function_dict true) 8 5 3 2
    [ex_cell ex_basis0 ex_forcing ex_forcing_vector 0; ex_cell1]
    (Some ([[0; 0]; [0.5; 0]; [1; 0.5]]%float,
           [mk_ndarray2 1 1 [[0]]; mk_ndarray2 1 1 [[0]]; mk_ndarray2 1 1 [[0.5]]]%float)).

(** A space whose only cell holds a forcing array of two columns. *)
Definition ex_space_two_columns : Fespace2D float :=
  mk_Fespace2D (ex_args ex_boundary_points ex_bound_function_dict false) 4 0 3 1
    [set_forcing_at_quad ex_cell0 (mk_ndarray2 1 2 [[1; 2]]%float)] None.

(** * Lemmas *)

Create HintDb accessors discriminated.
#[export] Hint Unfold get_shape_function_val get_shape_function_grad_x
  get_shape_function_grad_x_ref get_shape_function_grad_y
  get_shape_function_grad_y_ref get_quadrature_actual_coordinates
  get_quadrature_weights get_forcing_function_values
  get_forcing_function_values_vector : accessors.

Section Loops.
Context {St I : Type}.
Implicit Types (body : St → I → result St).

Lemma bind_Ok {A B} (m : result A) (f : A → result B) (b : B) :
  m ≫= f = Ok b ↔ ∃ a, m = Ok a ∧ f a = Ok b.
Proof.
  destruct m as [a|e]; simpl; split.
  - eauto.
  - by intros (a' & [= ->] & ?).
  - discriminate.
  - by intros (? & ? & ?).
Qed.

Lemma for_loop_app body s l1 l2 :
  for_loop body s (l1 ++ l2) = for_loop body s l1 ≫= λ s', for_loop body s' l2.
Proof.
  revert s. induction l1 as [|i l1 IH]; intros s; simpl; [done|].
  destruct (body s i) as [s'|e]; simpl; [apply IH|done].
Qed.

(** The invariant rule for [for i in range(a, a + n)]. *)
Lemma for_loop_seq_inv (Inv : nat → St → Prop) (body : St → nat → result St) s a n :
  Inv a s →
  (∀ i s, a ≤ i < a + n → Inv i s → ∃ s', body s i = Ok s' ∧ Inv (S i) s') →
  ∃ s', for_loop body s (seq a n) = Ok s' ∧ Inv (a + n) s'.
Proof.
  revert a s. induction n as [|n IH]; intros a s H0 Hstep; simpl.
  - exists s. by rewrite Nat.add_0_r.
  - destruct (Hstep a s) as (s1 & -> & H1); [lia|done|]. simpl.
    destruct (IH (S a) s1) as (s' & -> & H'); [done| |].
    + intros i s2 ? ?. apply Hstep; [lia|done].
    + exists s'. split; [done|]. by replace (a + S n) with (S a + n) by lia.
Qed.
End Loops.

(** A loop that appends one computed value per pass. *)
Lemma for_loop_collect {A I : Type} (body : list A → I → result (list A))
    (g : I → A) (acc : list A) (l : list I) :
  (∀ acc i, i ∈ l → body acc i = Ok (acc ++ [g i])) →
  for_loop body acc l = Ok (acc ++ (g <$> l)).
Proof.
  revert acc. induction l as [|i l IH]; intros acc Hf; simpl.
  - by rewrite app_nil_r.
  - rewrite Hf by left. simpl. rewrite IH.
    + by rewrite <- app_assoc.
    + intros acc' j Hj. apply Hf. by right.
Qed.

(** The same for a loop that fills two lists at once. *)
Lemma for_loop_collect2 {A B I : Type} (body : list A * list B → I → result (list A * list B))
    (g1 : I → A) (g2 : I → B) (acc : list A * list B) (l : list I) :
  (∀ acc i, i ∈ l → body acc i = Ok (acc.1 ++ [g1 i], acc.2 ++ [g2 i])) →
  for_loop body acc l = Ok (acc.1 ++ (g1 <$> l), acc.2 ++ (g2 <$> l)).
Proof.
  revert acc. induction l as [|i l IH]; intros [a1 a2] Hf; simpl.
  - by rewrite !app_nil_r.
  - rewrite Hf by left. simpl. rewrite IH.
    + simpl. by rewrite <- !app_assoc.
    + intros acc' j Hj. apply Hf. by right.
Qed.

Section BasisProofs.
Context {F : Type} `{Float64 F}.
Variable jacobi : nat → F → F → F → F.

Lemma jacobi_wrapper_nonneg (n : nat) a b x :
  jacobi_wrapper jacobi (Z.of_nat n) a b x = Ok (jacobi n a b <$> x).
Proof.
  unfold jacobi_wrapper.
  destruct (Z.ltb_spec (Z.of_nat n) 0); [lia|]. by rewrite Nat2Z.id.
Qed.

Lemma jacobi_wrapper_scalar_nonneg (n : nat) a b x :
  jacobi_wrapper_scalar jacobi (Z.of_nat n) a b x = Ok (jacobi n a b x).
Proof.
  unfold jacobi_wrapper_scalar.
  destruct (Z.ltb_spec (Z.of_nat n) 0); [lia|]. by rewrite Nat2Z.id.
Qed.

Lemma normalized_nonneg (n : nat) a b x :
  normalized jacobi (Z.of_nat n) a b x
  = Ok ((λ v, fdiv (jacobi n a b v) (jacobi n a b (of_int 1))) <$> x).
Proof.
  unfold normalized.
  rewrite jacobi_wrapper_nonneg, jacobi_wrapper_scalar_nonneg. simpl.
  unfold arr_div. by rewrite <- list_fmap_compose.
Qed.

Lemma scaled_term_nonneg c (n n1 : nat) a b x :
  scaled_term jacobi c (Z.of_nat n) a b x (Z.of_nat n1)
  = Ok ((λ v, fdiv (fmul c (jacobi n a b v)) (spec_P jacobi n1 (of_int 1))) <$> x).
Proof.
  unfold scaled_term.
  rewrite jacobi_wrapper_nonneg, jacobi_wrapper_scalar_nonneg. simpl.
  unfold arr_div, arr_scale. by rewrite <- !list_fmap_compose.
Qed.

Lemma scaled_term_Z c (n n1 : Z) a b x :
  (0 ≤ n)%Z → (0 ≤ n1)%Z →
  scaled_term jacobi c n a b x n1
  = Ok ((λ v, fdiv (fmul c (jacobi (Z.to_nat n) a b v))
                   (spec_P jacobi (Z.to_nat n1) (of_int 1))) <$> x).
Proof.
  intros Hn Hn1. rewrite <- (Z2Nat.id n), <- (Z2Nat.id n1) at 1 by done.
  apply scaled_term_nonneg.
Qed.

Lemma arr_sub_fmap {A} (f g : A → F) (x : list A) :
  arr_sub (f <$> x) (g <$> x) = (λ v, fsub (f v) (g v)) <$> x.
Proof.
  unfold arr_sub. induction x as [|v x IH]; csimpl; [done|]. by rewrite IH.
Qed.

Lemma test_fcnx_family n_test x :
  test_fcnx jacobi n_test x = Ok (family (spec_test jacobi) n_test x).
Proof.
  unfold test_fcnx, family, range.
  replace (n_test + 1 - 1) with n_test by lia.
  rewrite (for_loop_collect _ (λ k, spec_test jacobi k <$> x)); [done|].
  intros acc k Hk. apply elem_of_seq in Hk.
  replace (Z.of_nat k + 1)%Z with (Z.of_nat (k + 1)) by lia.
  replace (Z.of_nat k - 1)%Z with (Z.of_nat (k - 1)) by lia.
  rewrite !normalized_nonneg. simpl. by rewrite arr_sub_fmap.
Qed.

Lemma test_fcny_family n_test y :
  test_fcny jacobi n_test y = Ok (family (spec_test jacobi) n_test y).
Proof. exact (test_fcnx_family n_test y). Qed.

Lemma dtest_fcn_body_spec (k : nat) x :
  1 ≤ k →
  dtest_fcn_body jacobi x (Z.of_nat k)
  = Ok (spec_d1test jacobi k <$> x, spec_d2test jacobi k <$> x).
Proof.
  intros Hk. unfold dtest_fcn_body, spec_d1test, spec_d2test.
  destruct (Z.eqb_spec (Z.of_nat k) 1) as [E1|E1];
    [|destruct (Z.eqb_spec (Z.of_nat k) 2) as [E2|E2]].
  - assert (k = 1) as -> by lia. simpl (_ =? _).
    change (Z.of_nat 1 + 1)%Z with (Z.of_nat 2).
    change (Z.of_nat 1 - 1)%Z with (Z.of_nat 0).
    by rewrite !scaled_term_nonneg.
  - assert (k = 2) as -> by lia. simpl (_ =? _).
    change (Z.of_nat 2 + 1)%Z with (Z.of_nat 3).
    change (Z.of_nat 2 - 1)%Z with (Z.of_nat 1).
    change (Z.of_nat 2 - 2)%Z with (Z.of_nat 0).
    rewrite !scaled_term_nonneg. simpl. by rewrite arr_sub_fmap.
  - destruct (Nat.eqb_spec k 1); [lia|]. destruct (Nat.eqb_spec k 2); [lia|].
    rewrite !scaled_term_Z by lia. simpl. rewrite !arr_sub_fmap.
    replace (Z.to_nat (Z.of_nat k + 1)) with (k + 1) by lia.
    replace (Z.to_nat (Z.of_nat k - 1)) with (k - 1) by lia.
    replace (Z.to_nat (Z.of_nat k - 2)) with (k - 2) by lia.
    replace (Z.to_nat (Z.of_nat k - 3)) with (k - 3) by lia.
    by rewrite Nat2Z.id.
Qed.

Lemma dtest_fcn_family n_test x :
  dtest_fcn jacobi n_test x
  = Ok (family (spec_d1test jacobi) n_test x, family (spec_d2test jacobi) n_test x).
Proof.
  unfold dtest_fcn, family, range.
  replace (n_test + 1 - 1) with n_test by lia.
  rewrite (for_loop_collect2 _ (λ k, spec_d1test jacobi k <$> x)
             (λ k, spec_d2test jacobi k <$> x)); [done|].
  intros acc k Hk. apply elem_of_seq in Hk.
  by rewrite dtest_fcn_body_spec by lia.
Qed.

(** Reading a sampled family. *)
Lemma family_shape0 (f : nat → F → F) n x : shape0 (family f n x) = n.
Proof. unfold family. simpl. by rewrite length_fmap, length_seq. Qed.

Lemma family_shape1 (f : nat → F → F) n x : n ≠ 0 → shape1 (family f n x) = length x.
Proof. unfold family. destruct n; [done|]. intros _. simpl. by rewrite length_fmap. Qed.

Lemma family_row (f : nat → F → F) n x i :
  i < n → rows (family f n x) !! i = Some (f (i + 1) <$> x).
Proof.
  intros Hi. unfold family. simpl.
  rewrite list_lookup_fmap, lookup_seq_lt by done. simpl.
  by rewrite Nat.add_comm.
Qed.

Lemma family_getitem2 (f : nat → F → F) n x i p xp :
  i < n → x !! p = Some xp →
  getitem2 (family f n x) i p = Ok (f (i + 1) xp).
Proof.
  intros Hi Hp. unfold getitem2.
  rewrite family_shape0, family_shape1 by lia.
  pose proof (lookup_lt_Some _ _ _ Hp).
  destruct (Nat.ltb_spec i n); [|lia].
  destruct (Nat.ltb_spec p (length x)); [|lia].
  rewrite family_row by done. simpl.
  by rewrite list_lookup_fmap, Hp.
Qed.
End BasisProofs.

Section NumpyProofs.
Context {F : Type} `{Float64 F}.

Lemma stretch_id {A} n (l : list A) : length l = n → stretch n l = l.
Proof. intros <-. unfold stretch. by rewrite Nat.eqb_refl. Qed.

Lemma stretch_rows_id P (l : list (list F)) :
  Forall (λ r, length r = P) l → stretch P <$> l = l.
Proof.
  induction 1 as [|r l Hr _ IH]; csimpl; [done|]. by rewrite stretch_id, IH.
Qed.

Lemma broadcast_len_same p : broadcast_len p p = Some p.
Proof. unfold broadcast_len. by rewrite Nat.eqb_refl. Qed.

Lemma length_tensor_rows (fx fy : list (list F)) :
  length (tensor_rows fx fy) = length fx * length fy.
Proof.
  unfold tensor_rows. induction fx as [|rx fx IH]; csimpl; [done|].
  by rewrite length_app, length_fmap, IH.
Qed.

Lemma tensor_rows_snoc (fx : list (list F)) rx fy :
  tensor_rows (fx ++ [rx]) fy = tensor_rows fx fy ++ ((λ ry, zip_with fmul rx ry) <$> fy).
Proof.
  unfold tensor_rows. rewrite fmap_app, concat_app. csimpl. by rewrite app_nil_r.
Qed.

Lemma tensor_rows_widths P (fx fy : list (list F)) :
  Forall (λ r, length r = P) fx → Forall (λ r, length r = P) fy →
  Forall (λ r, length r = P) (tensor_rows fx fy).
Proof.
  intros Hx Hy. unfold tensor_rows. apply Forall_concat.
  rewrite Forall_fmap. eapply Forall_impl; [exact Hx|]. intros rx Hrx. simpl.
  rewrite Forall_fmap. eapply Forall_impl; [exact Hy|]. intros ry Hry. simpl in *.
  rewrite length_zip_with. lia.
Qed.

(** Row [i * n + j] of the tensor product. *)
Lemma tensor_rows_lookup (fx fy : list (list F)) i j rx ry :
  fx !! i = Some rx → fy !! j = Some ry →
  tensor_rows fx fy !! (i * length fy + j) = Some (zip_with fmul rx ry).
Proof.
  revert i. induction fx as [|r fx IH]; intros i Hi Hj; [done|].
  unfold tensor_rows. csimpl. destruct i as [|i]; simpl in *.
  - injection Hi as ->. rewrite lookup_app_l.
    + by rewrite list_lookup_fmap, Hj.
    + rewrite length_fmap. by eapply lookup_lt_Some.
  - rewrite lookup_app_r; rewrite length_fmap; [|lia].
    replace (length fy + i * length fy + j - length fy) with (i * length fy + j) by lia.
    by apply IH.
Qed.
End NumpyProofs.

Section BlockAssign.
Context {F : Type} `{Float64 F}.

Lemma block_assign_rows N n P (fx fy : ndarray2 F) :
  is_family n P fx → is_family n P fy → n * n ≤ N →
  block_assign N n P fx fy
  = Ok (mk_ndarray2 N P (tensor_rows (rows fx) (rows fy) ++ zero_rows (N - n * n) P)).
Proof.
  intros (Hx0 & Hxl & Hxw & Hx1) (Hy0 & Hyl & Hyw & Hy1) HN.
  unfold block_assign, range. rewrite Nat.sub_0_r.
  destruct (for_loop_seq_inv
    (λ i values, values = mk_ndarray2 N P
       (tensor_rows (take i (rows fx)) (rows fy) ++ zero_rows (N - n * i) P))
    (λ values i, r ← getrow fx i; prod ← np_mul_vec_mat r fy;
                 setitem_rows values (n * i) (n * (i + 1)) prod)
    (np_zeros N P) 0 n) as (v & -> & ->).
  - unfold np_zeros, zero_rows. simpl. by rewrite Nat.mul_0_r, Nat.sub_0_r.
  - intros i values [_ Hi] ->. simpl in Hi.
    assert (n * (i + 1) ≤ N) by nia.
    destruct (lookup_lt_is_Some_2 (rows fx) i) as [rx Hrx]; [lia|].
    assert (length rx = P) as Hrxl by (eapply (Forall_lookup_1 _ _ _ _ Hxw); eauto).
    unfold getrow. rewrite Hx0, Hrx. destruct (Nat.ltb_spec i n); [|lia]. simpl.
    unfold np_mul_vec_mat. rewrite Hrxl, Hy1, broadcast_len_same by lia. simpl.
    unfold setitem_rows. simpl.
    rewrite Hy0. rewrite (Nat.min_l (n * i) N), (Nat.min_l (n * (i + 1)) N) by lia.
    rewrite Nat.max_l by lia.
    replace (n * (i + 1) - n * i) with n by lia.
    rewrite !Nat.eqb_refl. simpl. eexists. split; [reflexivity|].
    f_equal.
    set (block := (λ r, zip_with fmul (stretch P rx) (stretch P r)) <$> rows fy).
    assert (block = (λ ry, zip_with fmul rx ry) <$> rows fy) as Hblock.
    { unfold block. rewrite stretch_id by done.
      apply Forall_fmap_ext_1. eapply Forall_impl; [exact Hyw|].
      intros r Hr. simpl. by rewrite stretch_id. }
    assert (Forall (λ r, length r = P) block) as Hbw.
    { rewrite Hblock, Forall_fmap. eapply Forall_impl; [exact Hyw|].
      intros r Hr. simpl in *. rewrite length_zip_with. lia. }
    assert (length block = n) as Hbl by (by rewrite Hblock, length_fmap).
    rewrite (stretch_rows_id P block), stretch_id by done.
    assert (length (tensor_rows (take i (rows fx)) (rows fy)) = n * i) as Hlen.
    { rewrite length_tensor_rows, length_take. nia. }
    rewrite take_app_length' by done.
    rewrite drop_app_ge, Hlen by lia.
    rewrite (take_S_r _ _ _ Hrx), tensor_rows_snoc, <- Hblock, <- app_assoc.
    do 2 f_equal. unfold zero_rows. rewrite drop_replicate. f_equal. lia.
  - simpl. by rewrite take_ge by lia.
Qed.
End BlockAssign.

Section EvalProofs.
Context {F : Type} `{Float64 F}.
Variable jacobi : nat → F → F → F → F.

Lemma family_is_family (f : nat → F → F) n x : is_family n (length x) (family f n x).
Proof.
  repeat split.
  - apply family_shape0.
  - unfold family. simpl. by rewrite length_fmap, length_seq.
  - unfold family. simpl. rewrite Forall_fmap. apply Forall_forall.
    intros k _. simpl. by rewrite length_fmap.
  - apply family_shape1.
Qed.

Lemma getitem2_lookup (v : ndarray2 F) i p r x :
  i < shape0 v → p < shape1 v → rows v !! i = Some r → r !! p = Some x →
  getitem2 v i p = Ok x.
Proof.
  intros Hi Hp Hr Hx. unfold getitem2.
  destruct (Nat.ltb_spec i (shape0 v)); [|lia].
  destruct (Nat.ltb_spec p (shape1 v)); [|lia].
  rewrite Hr. simpl. by rewrite Hx.
Qed.

Lemma block_assign_family N n (fx fy : nat → F → F) xi eta :
  n * n ≤ N → length xi = length eta →
  assembled N (length xi) n (family fx n xi) (family fy n eta)
    (block_assign N n (length xi) (family fx n xi) (family fy n eta)).
Proof.
  intros HN Hlen.
  pose proof (family_is_family fx n xi) as Hfx.
  pose proof (family_is_family fy n eta) as Hfy. rewrite <- Hlen in Hfy.
  rewrite (block_assign_rows N n (length xi)) by done.
  destruct Hfx as (_ & Hxl & Hxw & _), Hfy as (_ & Hyl & Hyw & _).
  pose proof (length_tensor_rows (rows (family fx n xi)) (rows (family fy n eta))) as Hlt.
  rewrite Hxl, Hyl in Hlt.
  eexists. split; [reflexivity|]. unfold wf_ndarray2, zero_from.
  cbn [shape0 shape1 rows]. repeat split.
  - rewrite length_app, Hlt. unfold zero_rows. rewrite length_replicate. lia.
  - apply Forall_app. split; [by apply tensor_rows_widths|].
    unfold zero_rows. apply Forall_replicate. by rewrite length_replicate.
  - intros i j p Hi Hj Hp.
    destruct (lookup_lt_is_Some_2 xi p) as [a Ha]; [lia|].
    destruct (lookup_lt_is_Some_2 eta p) as [b Hb]; [lia|].
    exists (fx (i + 1) a), (fy (j + 1) b).
    rewrite (family_getitem2 fx n xi i p a), (family_getitem2 fy n eta j p b) by done.
    do 2 (split; [done|]).
    eapply getitem2_lookup; cbn [shape0 shape1 rows]; [nia|done| |].
    + rewrite lookup_app_l by (rewrite Hlt; nia).
      rewrite <- Hyl at 1. apply tensor_rows_lookup; by apply family_row.
    + by rewrite lookup_zip_with, !list_lookup_fmap, Ha, Hb.
  - intros r p Hr Hp.
    eapply getitem2_lookup; cbn [shape0 shape1 rows]; [lia|done| |].
    + rewrite lookup_app_r by (rewrite Hlt; lia).
      unfold zero_rows. apply lookup_replicate_2. rewrite Hlt. lia.
    + by apply lookup_replicate_2.
Qed.

Lemma sqrt_square_le N : Nat.sqrt N * Nat.sqrt N ≤ N.
Proof. apply Nat.sqrt_spec. lia. Qed.

(** The six evaluators, for any shape-function count [N] and
    [n = int(sqrt(N))]. *)
Lemma evaluators_assembled N xi eta :
  length xi = length eta →
  let n := Nat.sqrt N in
  let self := mk_BasisFunction2D N in
  let P := length xi in
  let tx := family (spec_test jacobi) n xi in
  let ty := family (spec_test jacobi) n eta in
  let d1x := family (spec_d1test jacobi) n xi in
  let d1y := family (spec_d1test jacobi) n eta in
  let d2x := family (spec_d2test jacobi) n xi in
  let d2y := family (spec_d2test jacobi) n eta in
  assembled N P n tx ty (value jacobi self xi eta)
  ∧ assembled N P n d1x ty (gradx jacobi self xi eta)
  ∧ assembled N P n tx d1y (grady jacobi self xi eta)
  ∧ assembled N P n d2x ty (gradxx jacobi self xi eta)
  ∧ assembled N P n d1x d1y (gradxy jacobi self xi eta)
  ∧ assembled N P n tx d2y (gradyy jacobi self xi eta).
Proof.
  intros Hlen n self P tx ty d1x d1y d2x d2y.
  pose proof (sqrt_square_le N) as HN.
  unfold value, gradx, grady, gradxx, gradxy, gradyy, int_sqrt.
  rewrite !test_fcnx_family, ?test_fcny_family, !dtest_fcn_family. simpl.
  repeat split; by apply block_assign_family.
Qed.
End EvalProofs.

Section ListIndex.
Context {A : Type}.
Implicit Types (l : list A) (i : Z).

Lemma list_position_nonneg l i :
  (0 ≤ i < Z.of_nat (length l))%Z → list_position l i = Ok (Z.to_nat i).
Proof.
  intros Hi. unfold list_position.
  destruct (Z.ltb_spec i 0); [lia|].
  destruct (Z.leb_spec 0 i); [|lia].
  destruct (Z.ltb_spec i (Z.of_nat (length l))); [done|lia].
Qed.


Lemma list_position_out l i :
  (Z.of_nat (length l) ≤ i ∨ i < - Z.of_nat (length l))%Z →
  list_position l i = Raise (IndexError list_index_msg).
Proof.
  intros Hi. unfold list_position.
  destruct (Z.ltb_spec i 0).
  - destruct (Z.leb_spec 0 (i + Z.of_nat (length l))); [lia|done].
  - destruct (Z.leb_spec 0 i); [|done].
    destruct (Z.ltb_spec i (Z.of_nat (length l))); [lia|done].
Qed.


Lemma list_getitem_out l i :
  (Z.of_nat (length l) ≤ i ∨ i < - Z.of_nat (length l))%Z →
  list_getitem l i = Raise (IndexError list_index_msg).
Proof. intros Hi. unfold list_getitem. by rewrite list_position_out. Qed.


Lemma list_getitem_nonneg l i :
  (0 ≤ i < Z.of_nat (length l))%Z →
  ∃ a, l !! Z.to_nat i = Some a ∧ list_getitem l i = Ok a.
Proof.
  intros Hi. unfold list_getitem. rewrite list_position_nonneg by done. simpl.
  destruct (lookup_lt_is_Some_2 l (Z.to_nat i)) as [a Ha]; [lia|].
  exists a. by rewrite Ha.
Qed.

Lemma list_getitem_lookup l (k : nat) a :
  l !! k = Some a → list_getitem l (Z.of_nat k) = Ok a.
Proof.
  intros Hk. pose proof (lookup_lt_Some _ _ _ Hk).
  unfold list_getitem. rewrite list_position_nonneg by lia. simpl.
  by rewrite Nat2Z.id, Hk.
Qed.
End ListIndex.

Section AccessorProofs.
Context {F : Type} `{Float64 F}.
Variable np_sum : list F → F.
Implicit Types (self : Fespace2D F) (c : Z).



Lemma store_forcing_at_quad_out self c v :
  (Z.of_nat (length (fe_cell self)) ≤ c ∨ c < - Z.of_nat (length (fe_cell self)))%Z →
  store_forcing_at_quad self c v = Raise (IndexError list_index_msg).
Proof. intros Hc. unfold store_forcing_at_quad. by rewrite list_position_out. Qed.

(** Beyond [n_cells] the guard answers. *)
Lemma array_accessors_guard self c :
  (n_cells self < c)%Z →
  Forall (λ gf, gf.1 self c = Raise (ValueError (cell_index_msg (n_cells self))))
    array_accessors.
Proof.
  intros Hc. repeat constructor; simpl;
    autounfold with accessors;
    (destruct (Z.ltb_spec (n_cells self) c); [done|lia]).
Qed.

Lemma forcing_accessors_guard self c component :
  (n_cells self < c)%Z →
  Forall (λ g, g self c = Raise (ValueError (cell_index_msg (n_cells self))))
    (forcing_accessors np_sum component).
Proof.
  intros Hc. repeat constructor; simpl;
    autounfold with accessors;
    (destruct (Z.ltb_spec (n_cells self) c); [done|lia]).
Qed.

(** At [n_cells] and below [-n_cells] the list answers. *)
Lemma array_accessors_out self c :
  cells_counted self → (c = n_cells self ∨ c < - n_cells self)%Z →
  Forall (λ gf, gf.1 self c = Raise (IndexError list_index_msg)) array_accessors.
Proof.
  unfold cells_counted. intros Hn Hc. repeat constructor; simpl;
    autounfold with accessors;
    (destruct (Z.ltb_spec (n_cells self) c); [lia|]);
    by rewrite list_getitem_out by lia.
Qed.

Lemma forcing_accessors_out self c component :
  cells_counted self → (c = n_cells self ∨ c < - n_cells self)%Z →
  Forall (λ g, g self c = Raise (IndexError list_index_msg))
    (forcing_accessors np_sum component).
Proof.
  unfold cells_counted. intros Hn Hc. repeat constructor; simpl;
    autounfold with accessors;
    (destruct (Z.ltb_spec (n_cells self) c); [lia|]);
    by rewrite list_getitem_out by lia.
Qed.


End AccessorProofs.

Section ForcingProofs.
Context {F : Type} `{Float64 F}.

Lemma for_loop_pure {St I} (body : St → I → result St) (g : St → I → St) s l :
  (∀ s i, i ∈ l → body s i = Ok (g s i)) →
  for_loop body s l = Ok (foldl g s l).
Proof.
  revert s. induction l as [|i l IH]; intros s Hb; simpl; [done|].
  rewrite Hb by left. simpl. apply IH. intros s' j Hj. apply Hb. by right.
Qed.

Lemma getitem2_entry (a : ndarray2 F) i j :
  wf_ndarray2 a → i < shape0 a → j < shape1 a → getitem2 a i j = Ok (entry a i j).
Proof.
  intros [Hl Hw] Hi Hj.
  destruct (lookup_lt_is_Some_2 (rows a) i) as [r Hr]; [lia|].
  assert (length r = shape1 a) as Hrl by (eapply (Forall_lookup_1 _ _ _ _ Hw); eauto).
  destruct (lookup_lt_is_Some_2 r j) as [x Hx]; [lia|].
  rewrite (getitem2_lookup a i j r x) by done.
  unfold entry. rewrite Hr. simpl. by rewrite Hx.
Qed.

Lemma forcing_integral_spec (c : FE2D_Cell F) :
  cell_record_shapes c → forcing_integral c = Ok (spec_forcing_integral c).
Proof.
  intros (Hb & Hq & HN & HQ & H2).
  unfold forcing_integral, spec_forcing_integral, range. rewrite !Nat.sub_0_r.
  set (N := num_shape_functions (basis_function c)) in *.
  destruct (for_loop_seq_inv
    (λ i a, a = mk_ndarray2 N 1
               (((λ i, [spec_forcing_sum c i]) <$> seq 0 i)
                ++ replicate (N - i) [of_int 0]))
    (λ f_integral i,
       val ← for_loop (λ val q,
           x ← getitem2 (quad_actual_coordinates c) q 0;
           y ← getitem2 (quad_actual_coordinates c) q 1;
           b ← getitem2 (basis_at_quad c) i q;
           Ok (fadd val (fmul b (forcing_function c x y))))
         (of_int 0) (seq 0 (shape1 (basis_at_quad c)));
       setitem_row_scalar f_integral i val)
    (np_zeros N 1) 0 N) as (a & -> & ->).
  - unfold np_zeros. simpl. by rewrite Nat.sub_0_r.
  - intros i a [_ Hi] ->. simpl in Hi.
    rewrite (for_loop_pure _ (λ val q,
        fadd val (fmul (entry (basis_at_quad c) i q)
                       (forcing_function c (entry (quad_actual_coordinates c) q 0)
                          (entry (quad_actual_coordinates c) q 1))))).
    + fold (spec_forcing_sum c i). cbn [mbind result_bind].
      unfold setitem_row_scalar. cbn [shape0 shape1 rows].
      destruct (Nat.ltb_spec i N); [|lia].
      eexists. split; [reflexivity|]. f_equal.
      rewrite seq_S, fmap_app.
      rewrite insert_app_r_alt; rewrite length_fmap, length_seq; [|lia].
      rewrite Nat.sub_diag, <- app_assoc. f_equal.
      destruct (N - i) as [|m] eqn:Hm; [lia|].
      replace (N - S i) with m by lia. done.
    + intros val q Hq'. apply elem_of_seq in Hq'.
      rewrite !getitem2_entry by (done || lia). done.
  - simpl. by rewrite Nat.sub_diag, app_nil_r.
Qed.

(** The integral does not read what it is about to overwrite. *)
Lemma forcing_integral_set_forcing_at_quad (c : FE2D_Cell F) v :
  forcing_integral (set_forcing_at_quad c v) = forcing_integral c.
Proof. reflexivity. Qed.

Lemma get_forcing_function_values_valid (self : Fespace2D F) (ci : Z) cell a :
  cells_counted self → (0 ≤ ci < n_cells self)%Z →
  fe_cell self !! Z.to_nat ci = Some cell →
  forcing_integral cell = Ok a →
  get_forcing_function_values self ci
  = Ok (a, set_fe_cell self (<[Z.to_nat ci := set_forcing_at_quad cell a]> (fe_cell self))).
Proof.
  unfold cells_counted. intros Hn Hci Hcell Ha. unfold get_forcing_function_values.
  destruct (Z.ltb_spec (n_cells self) ci); [lia|].
  destruct (list_getitem_nonneg (fe_cell self) ci) as (cell' & Hcell' & ->); [lia|].
  assert (cell' = cell) as -> by congruence. simpl. rewrite Ha. simpl.
  unfold store_forcing_at_quad. rewrite list_position_nonneg by lia. simpl.
  rewrite Hcell. simpl.
  unfold list_getitem. rewrite list_position_nonneg by (rewrite length_insert; lia).
  simpl. rewrite list_lookup_insert_eq by (by eapply lookup_lt_Some). done.
Qed.
End ForcingProofs.

Section StackProofs.
Context {F : Type} `{Float64 F}.

Lemma main_data_loop (self : Fespace2D F) :
  cells_counted self →
  for_loop (λ main_data cell_index,
      c ← list_getitem (fe_cell self) (Z.of_nat cell_index);
      Ok (main_data ++ [forcing_at_quad c]))
    [] (range 0 (Z.to_nat (n_cells self)))
  = Ok (forcing_at_quad <$> fe_cell self).
Proof.
  unfold cells_counted, range. intros ->. rewrite Nat2Z.id, Nat.sub_0_r.
  rewrite (for_loop_collect _
    (λ j, default (np_zeros 0 0) (forcing_at_quad <$> fe_cell self !! j))).
  - simpl. f_equal. apply list_eq. intros j.
    rewrite !list_lookup_fmap.
    destruct (decide (j < length (fe_cell self))) as [Hj|Hj].
    + rewrite lookup_seq_lt by done. simpl.
      destruct (lookup_lt_is_Some_2 (fe_cell self) j) as [c ->]; done.
    + rewrite lookup_seq_ge, lookup_ge_None_2 by lia. done.
  - intros acc j Hj. apply elem_of_seq in Hj.
    destruct (lookup_lt_is_Some_2 (fe_cell self) j) as [c Hc]; [lia|].
    by rewrite (list_getitem_lookup _ _ _ Hc), Hc.
Qed.

Lemma np_array3_columns N (l : list (ndarray2 F)) :
  l ≠ [] → Forall (λ a, shape0 a = N ∧ shape1 a = 1) l →
  np_array3 l = Ok (mk_ndarray3 (length l, N, 1) (rows <$> l)).
Proof.
  intros Hne Hl. unfold np_array3. destruct l as [|a l]; [done|].
  pose proof (Forall_inv Hl) as [Ha0 Ha1].
  rewrite (proj2 (forallb_forall _ _)).
  - by rewrite Ha0, Ha1.
  - intros b Hb. rewrite Forall_forall in Hl.
    destruct (Hl b) as [-> ->]; [by apply list_elem_of_In|].
    by rewrite Ha0, Ha1, !Nat.eqb_refl.
Qed.

Lemma get_forcing_data_for_training_rows N (self : Fespace2D F) :
  cells_counted self → fe_cell self ≠ [] →
  Forall (forcing_column N) (fe_cell self) →
  get_forcing_data_for_training self
  = Ok (mk_ndarray2 N (length (fe_cell self))
          ((λ i, (λ j, getitem3 (mk_ndarray3 (length (fe_cell self), N, 1)
                                   (rows <$> (forcing_at_quad <$> fe_cell self))) j i 0)
                   <$> seq 0 (length (fe_cell self))) <$> seq 0 N)).
Proof.
  intros Hn Hne Hcol. unfold get_forcing_data_for_training.
  rewrite main_data_loop by done. simpl.
  rewrite (np_array3_columns N).
  - simpl. by rewrite length_fmap.
  - by destruct (fe_cell self).
  - rewrite Forall_fmap. eapply Forall_impl; [exact Hcol|].
    by intros c (_ & ? & ?).
Qed.
End StackProofs.

Section LoopPost.
Context {St I : Type}.

Lemma for_loop_seq_post (Inv : nat → St → Prop) (body : St → nat → result St) s a n s' :
  for_loop body s (seq a n) = Ok s' →
  Inv a s →
  (∀ i s s1, a ≤ i < a + n → Inv i s → body s i = Ok s1 → Inv (S i) s1) →
  Inv (a + n) s'.
Proof.
  revert a s. induction n as [|n IH]; intros a s Hrun H0 Hstep; simpl in Hrun.
  - injection Hrun as <-. by rewrite Nat.add_0_r.
  - apply bind_Ok in Hrun as (s1 & Hb & Hrun).
    replace (a + S n) with (S a + n) by lia.
    apply (IH (S a) s1 Hrun).
    + apply (Hstep a s); [lia|done..].
    + intros i s2 s3 ? ? ?. apply (Hstep i s2); [lia|done..].
Qed.

Lemma for_loop_post (Inv : list I → St → Prop) (body : St → I → result St) s l s' :
  for_loop body s l = Ok s' →
  Inv [] s →
  (∀ pre i s s1, Inv pre s → body s i = Ok s1 → Inv (pre ++ [i]) s1) →
  Inv l s'.
Proof.
  intros Hrun H0 Hstep.
  cut (∀ pre s, Inv pre s → for_loop body s l = Ok s' → Inv (pre ++ l) s').
  { intros Hcut. by apply (Hcut [] s). }
  clear s Hrun H0. induction l as [|i l IH]; intros pre s Hpre Hrun; simpl in Hrun.
  - injection Hrun as <-. by rewrite app_nil_r.
  - apply bind_Ok in Hrun as (s1 & Hb & Hrun).
    replace (pre ++ i :: l) with ((pre ++ [i]) ++ l) by (by rewrite <- app_assoc).
    apply (IH _ s1); [|done]. by apply (Hstep pre i s).
Qed.
End LoopPost.

Section InitProofs.
Context {F : Type} `{Float64 F}.
Variable FE2D_Cell_init :
  list Z → string → Z → string → Z → string → string →
  (F → F → F) → (list F → list F → list (list F)) → result (FE2D_Cell F).

Lemma set_finite_elements_post (self self' : Fespace2D F) :
  set_finite_elements FE2D_Cell_init self = Ok self' →
  fe_cell self = [] →
  args self' = args self ∧ n_cells self' = n_cells self
  ∧ total_dirichlet_dofs self' = total_dirichlet_dofs self
  ∧ length (fe_cell self') = Z.to_nat (n_cells self)
  ∧ fe_cell self' ≠ []
  ∧ total_dofs self' = sum_quadrature_points (fe_cell self').
Proof.
  unfold set_finite_elements, range. rewrite Nat.sub_0_r. intros Hrun Hnil.
  apply bind_Ok in Hrun as ([self1 dof] & Hloop & Hrun).
  apply bind_Ok in Hrun as (c0 & Hc0 & Hrun). injection Hrun as <-.
  apply (for_loop_seq_post
    (λ i (st : Fespace2D F * Z),
       args st.1 = args self ∧ n_cells st.1 = n_cells self
       ∧ total_dirichlet_dofs st.1 = total_dirichlet_dofs self
       ∧ length (fe_cell st.1) = i
       ∧ st.2 = sum_quadrature_points (fe_cell st.1))) in Hloop.
  - simpl in Hloop. destruct Hloop as (Ha & Hn & Hd & Hl & Hdof). simpl.
    repeat split; try done.
    intros Hnil'. rewrite Hnil' in Hc0. done.
  - simpl. by rewrite Hnil.
  - intros i [s d] [s1 d1] _ (Ha & Hn & Hd & Hl & Hdof) Hbody. simpl in *.
    apply bind_Ok in Hbody as (row & _ & Hbody).
    apply bind_Ok in Hbody as (c & _ & Hbody).
    apply bind_Ok in Hbody as (ci & Hci & Hbody).
    injection Hbody as <- <-. simpl in *.
    rewrite (list_getitem_lookup _ i c) in Hci
      by (by rewrite lookup_app_r, Hl, Nat.sub_diag by lia).
    injection Hci as <-.
    repeat split; try done.
    + rewrite length_app. simpl. lia.
    + unfold sum_quadrature_points in *. rewrite sum_list_with_app. simpl. lia.
Qed.

Lemma getcol_length (a : ndarray2 F) j x :
  wf_ndarray2 a → getcol a j = Ok x → length x = shape0 a.
Proof.
  intros [Hl Hw]. unfold getcol. destruct (Nat.ltb_spec j (shape1 a)); [|done].
  intros [= <-]. rewrite <- Hl. clear Hl.
  induction Hw as [|r l Hr _ IH]; csimpl; [done|].
  rewrite length_app, IH, length_take, length_drop. lia.
Qed.

Lemma generate_plot_post (self self' : Fespace2D F) :
  generate_plot self = Ok self' →
  length (fe_cell self) = Z.to_nat (n_cells self) →
  Forall quadrature_consistent (fe_cell self) →
  args self' = args self ∧ n_cells self' = n_cells self
  ∧ total_dirichlet_dofs self' = total_dirichlet_dofs self
  ∧ fe_cell self' = fe_cell self
  ∧ total_dofs self' = sum_quadrature_points (fe_cell self).
Proof.
  unfold generate_plot, range. rewrite Nat.sub_0_r. intros Hrun Hlen Hq.
  apply bind_Ok in Hrun as (total_quad & Hloop & Hrun).
  apply bind_Ok in Hrun as (bound_dof & _ & Hrun). injection Hrun as <-. simpl.
  repeat split.
  apply (for_loop_seq_post
    (λ i (t : Z), t = sum_quadrature_points (take i (fe_cell self)))) in Hloop.
  - simpl in Hloop. by rewrite <- Hlen, take_ge in Hloop by lia.
  - done.
  - intros i t t1 [_ Hi] -> Hbody. simpl in Hi.
    destruct (lookup_lt_is_Some_2 (fe_cell self) i) as [c Hc]; [lia|].
    rewrite (list_getitem_lookup _ _ _ Hc) in Hbody. simpl in Hbody.
    repeat (apply bind_Ok in Hbody as (? & ? & Hbody)).
    injection Hbody as <-.
    destruct (Forall_lookup_1 _ _ _ _ Hq Hc) as [Hwf HQ].
    match goal with Hx : getcol (quad_actual_coordinates c) 0 = Ok ?x |- _ =>
      rewrite (getcol_length _ _ _ Hwf Hx) end.
    rewrite (take_S_r _ _ _ Hc). unfold sum_quadrature_points.
    rewrite sum_list_with_app. simpl. lia.
Qed.
End InitProofs.

Section DirichletProofs.
Context {F : Type} `{Float64 F}.
Variable FE2D_Cell_init :
  list Z → string → Z → string → Z → string → string →
  (F → F → F) → (list F → list F → list (list F)) → result (FE2D_Cell F).

Lemma for_loop_ext {St I} (body1 body2 : St → I → result St) s l :
  (∀ s i, body1 s i = body2 s i) → for_loop body1 s l = for_loop body2 s l.
Proof.
  intros Hb. revert s. induction l as [|i l IH]; intros s; simpl; [done|].
  rewrite Hb. destruct (body2 s i); simpl; [apply IH|done].
Qed.

Lemma generate_dirichlet_boundary_data_loops (self : Fespace2D F) :
  generate_dirichlet_boundary_data self
  = xy ← tags_loop (bound_function_dict (args self)) ([], [])
          (boundary_points (args self));
    Ok (xy, set_total_dirichlet_dofs self (Z.of_nat (length xy.1))).
Proof.
  unfold generate_dirichlet_boundary_data, tags_loop.
  erewrite for_loop_ext; [reflexivity|]. by intros xy [t pts].
Qed.

Lemma points_loop_length (d : gmap Z (F → F → F)) t xy pts xy' :
  points_loop d t xy pts = Ok xy' →
  length xy'.1 = length xy.1 + length pts.
Proof.
  unfold points_loop. intros Hrun.
  apply (for_loop_post (λ pre (s : list (list F) * list (ndarray2 F)), length s.1 = length xy.1 + length pre)) in Hrun.
  - done.
  - simpl. lia.
  - intros pre pt [x y] [x1 y1] Hpre Hbody. simpl in *.
    repeat (apply bind_Ok in Hbody as (? & ? & Hbody)).
    injection Hbody as <- <-. rewrite !length_app. simpl. lia.
Qed.

Lemma points_loop_cons_present (d : gmap Z (F → F → F)) t f x y p0 p1 pt pts :
  d !! t = Some f →
  points_loop d t (x, y) ((p0 :: p1 :: pt) :: pts)
  = points_loop d t (x ++ [[p0; p1]], y ++ [reshape_scalar (f p0 p1)]) pts.
Proof.
  intros Hf. unfold points_loop.
  match goal with |- context [for_loop ?b] => set (body := b) end.
  change (body (x, y) (p0 :: p1 :: pt) ≫= (λ s, for_loop body s pts)
          = for_loop body (x ++ [[p0; p1]], y ++ [reshape_scalar (f p0 p1)]) pts).
  replace (body (x, y) (p0 :: p1 :: pt))
    with (Ok (x ++ [[p0; p1]], y ++ [reshape_scalar (f p0 p1)]) : result (list (list F) * list (ndarray2 F))); [done|].
  unfold body, dict_getitem. simpl. by rewrite Hf.
Qed.

Lemma points_loop_present (d : gmap Z (F → F → F)) t f xy pts :
  d !! t = Some f → Forall (λ pt, 2 ≤ length pt) pts →
  ∃ xy', points_loop d t xy pts = Ok xy'.
Proof.
  intros Hf Hpts. revert xy.
  induction Hpts as [|pt pts Hpt _ IH]; intros [x y]; [by eexists|].
  destruct pt as [|p0 [|p1 pt]]; simpl in Hpt; [lia..|].
  rewrite (points_loop_cons_present d t f) by done. apply IH.
Qed.

Lemma points_loop_absent (d : gmap Z (F → F → F)) t xy pt pts :
  d !! t = None → 2 ≤ length pt →
  points_loop d t xy (pt :: pts) = Raise (KeyError t).
Proof.
  intros Hf Hpt. unfold points_loop. destruct xy as [x y].
  destruct pt as [|p0 [|p1 pt]]; simpl in Hpt; [lia..|].
  match goal with |- context [for_loop ?b] => set (body := b) end.
  change (body (x, y) (p0 :: p1 :: pt) ≫= (λ s, for_loop body s pts)
          = Raise (KeyError t)).
  replace (body (x, y) (p0 :: p1 :: pt)) with (Raise (KeyError t) : result (list (list F) * list (ndarray2 F))); [done|].
  unfold body, dict_getitem. simpl. by rewrite Hf.
Qed.

Lemma tags_loop_passes (d : gmap Z (F → F → F)) (bp : list (Z * ndarray2 F)) xy :
  Forall (tag_passes d) bp → ∃ xy', tags_loop d xy bp = Ok xy'.
Proof.
  intros Hbp. revert xy. unfold tags_loop.
  induction Hbp as [|[t pts] bp [H2 Hp] _ IH]; intros xy; simpl.
  - eauto.
  - simpl in *. destruct Hp as [Hnil|[f Hf]].
    + rewrite Hnil. unfold points_loop at 1. simpl. apply IH.
    + destruct (points_loop_present d t f xy (rows pts) Hf H2) as [xy1 ->].
      simpl. apply IH.
Qed.

(** The first tag that lists a point and has no boundary function stops
    the extraction with [KeyError]. *)
Lemma generate_dirichlet_boundary_data_absent (self : Fespace2D F) pre t pts post :
  boundary_points (args self) = pre ++ (t, pts) :: post →
  Forall (tag_passes (bound_function_dict (args self))) pre →
  points_2d pts → rows pts ≠ [] →
  bound_function_dict (args self) !! t = None →
  generate_dirichlet_boundary_data self = Raise (KeyError t).
Proof.
  intros Hbp Hpre H2 Hne Hnone. rewrite generate_dirichlet_boundary_data_loops.
  unfold tags_loop. rewrite Hbp, for_loop_app.
  destruct (tags_loop_passes _ pre ([], []) Hpre) as [xy1 Hxy1].
  unfold tags_loop in Hxy1. rewrite Hxy1. simpl.
  destruct (rows pts) as [|pt rest] eqn:Hrows; [done|].
  rewrite points_loop_absent; [done..|].
  unfold points_2d in H2. rewrite Hrows in H2. by apply Forall_inv in H2.
Qed.

(** Among tags whose points have two coordinates, one that lists a point
    without a boundary function is preceded by tags that pass. *)
Lemma first_absent_tag (d : gmap Z (F → F → F)) (bp : list (Z * ndarray2 F)) :
  Forall (λ it, points_2d it.2) bp →
  Exists (λ it, rows it.2 ≠ [] ∧ d !! it.1 = None) bp →
  ∃ pre t pts post,
    bp = pre ++ (t, pts) :: post ∧ Forall (tag_passes d) pre
    ∧ points_2d pts ∧ rows pts ≠ [] ∧ d !! t = None.
Proof.
  induction bp as [|[t pts] bp IH]; intros H2 Hex; [by apply Exists_nil in Hex|].
  apply Forall_cons in H2 as [Hpts H2]. simpl in Hpts.
  destruct (d !! t) as [f|] eqn:Hd.
  - apply Exists_cons in Hex as [[_ Hnone]|Hex]; [simpl in Hnone; congruence|].
    destruct (IH H2 Hex) as (pre & t' & pts' & post & -> & Hpre & ?).
    exists ((t, pts) :: pre), t', pts', post. split; [done|]. split; [|done].
    apply Forall_cons_2; [|done]. split; [done|]. right. simpl. by rewrite Hd.
  - destruct (rows pts) as [|pt rest] eqn:Hrows.
    + apply Exists_cons in Hex as [[Hne _]|Hex]; [simpl in Hne; congruence|].
      destruct (IH H2 Hex) as (pre & t' & pts' & post & -> & Hpre & ?).
      exists ((t, pts) :: pre), t', pts', post. split; [done|]. split; [|done].
      apply Forall_cons_2; [|done]. split; [done|]. by left.
    + exists [], t, pts, bp. rewrite Hrows. by repeat split.
Qed.

Lemma generate_dirichlet_boundary_data_post (self self' : Fespace2D F) xy :
  generate_dirichlet_boundary_data self = Ok (xy, self') →
  args self' = args self ∧ n_cells self' = n_cells self
  ∧ fe_cell self' = fe_cell self ∧ total_dofs self' = total_dofs self
  ∧ length xy.1 = sum_list_with (λ it, length (rows it.2)) (boundary_points (args self))
  ∧ total_dirichlet_dofs self' = sum_boundary_points (boundary_points (args self)).
Proof.
  rewrite generate_dirichlet_boundary_data_loops. unfold tags_loop.
  intros Hrun. apply bind_Ok in Hrun as (xy1 & Hloop & Hrun).
  injection Hrun as <- <-. simpl.
  assert (length xy1.1
          = sum_list_with (λ it, length (rows it.2)) (boundary_points (args self))) as Hlen.
  { apply (for_loop_post (λ pre (s : list (list F) * list (ndarray2 F)),
      length s.1 = sum_list_with (λ it : Z * ndarray2 F, length (rows it.2)) pre))
      in Hloop; [done|done|].
    intros pre [t pts] s s1 Hpre Hbody. simpl in Hbody.
    apply points_loop_length in Hbody.
    rewrite sum_list_with_app. simpl. lia. }
  repeat split; try done. unfold sum_boundary_points. by rewrite Hlen.
Qed.
End DirichletProofs.

Section ClaimLemmas.
Context {F : Type} `{Float64 F}.
Variable jacobi : nat → F → F → F → F.
Variable FE2D_Cell_init :
  list Z → string → Z → string → Z → string → string →
  (F → F → F) → (list F → list F → list (list F)) → result (FE2D_Cell F).

Lemma evaluators_assemble_sqrt N xi eta :
  length xi = length eta → evaluators_assemble jacobi N (Nat.sqrt N) xi eta.
Proof.
  intros Hlen. unfold evaluators_assemble.
  exists (family (spec_test jacobi) (Nat.sqrt N) xi),
         (family (spec_test jacobi) (Nat.sqrt N) eta),
         (family (spec_d1test jacobi) (Nat.sqrt N) xi),
         (family (spec_d2test jacobi) (Nat.sqrt N) xi),
         (family (spec_d1test jacobi) (Nat.sqrt N) eta),
         (family (spec_d2test jacobi) (Nat.sqrt N) eta).
  rewrite test_fcnx_family, test_fcny_family, !dtest_fcn_family.
  do 4 (split; [done|]). by apply evaluators_assembled.
Qed.


Lemma generate_plot_args (self self' : Fespace2D F) :
  generate_plot self = Ok self' → args self' = args self.
Proof.
  unfold generate_plot. intros Hrun.
  apply bind_Ok in Hrun as (? & _ & Hrun).
  apply bind_Ok in Hrun as (? & _ & Hrun). by injection Hrun as <-.
Qed.

(** The stages of [__init__]. *)
Lemma Fespace2D_init_Ok a self :
  Fespace2D_init FE2D_Cell_init a = Ok self →
  ∃ self1 self2 self3 data,
    set_finite_elements FE2D_Cell_init
      (mk_Fespace2D a 0%Z 0%Z 0%Z (Z.of_nat (length (cells a))) [] None) = Ok self1
    ∧ (if generate_mesh_plot a then generate_plot self1 else Ok self1) = Ok self2
    ∧ generate_dirichlet_boundary_data self2 = Ok (data, self3)
    ∧ self = set_dirichlet_boundary_data self3 data.
Proof.
  unfold Fespace2D_init. destruct (String.eqb _ _); [done|]. intros Hrun.
  apply bind_Ok in Hrun as (self1 & H1 & Hrun).
  apply bind_Ok in Hrun as (self2 & H2 & Hrun).
  apply bind_Ok in Hrun as ([data self3] & H3 & Hrun).
  injection Hrun as <-. by exists self1, self2, self3, data.
Qed.

Lemma Fespace2D_init_absent a pre t pts post :
  boundary_points a = pre ++ (t, pts) :: post →
  Forall (tag_passes (bound_function_dict a)) pre →
  points_2d pts → rows pts ≠ [] →
  bound_function_dict a !! t = None →
  ∃ e, Fespace2D_init FE2D_Cell_init a = Raise e.
Proof.
  intros Hbp Hpre H2 Hne Hnone. unfold Fespace2D_init.
  destruct (String.eqb _ _); [by eexists|].
  destruct (set_finite_elements _ _) as [self1|e] eqn:H1; simpl; [|by eexists].
  apply set_finite_elements_post in H1 as (Ha1 & _); [|done]. simpl in Ha1.
  destruct (if generate_mesh_plot a then generate_plot self1 else Ok self1)
    as [self2|e] eqn:Hp; simpl; [|by eexists].
  assert (args self2 = a) as Ha2.
  { destruct (generate_mesh_plot a).
    - apply generate_plot_args in Hp. congruence.
    - injection Hp as <-. done. }
  rewrite (generate_dirichlet_boundary_data_absent self2 pre t pts post)
    by (rewrite ?Ha2; done). by eexists.
Qed.
End ClaimLemmas.

Lemma ex_space_constructed :
  Fespace2D_init ex_FE2D_Cell_init (ex_args ex_boundary_points ex_bound_function_dict true)
  = Ok ex_space.
Proof. vm_compute. reflexivity. Qed.

Section RaiseProofs.
Context {St I : Type}.


End RaiseProofs.

Section ForcingErrors.
Context {F : Type} `{Float64 F}.
Variable np_sum : list F → F.
Implicit Types (self : Fespace2D F) (c : Z).









Lemma get_forcing_function_values_vector_valid self c component cell x y fv :
  cells_counted self → (0 ≤ c < n_cells self)%Z →
  fe_cell self !! Z.to_nat c = Some cell →
  getcol (quad_actual_coordinates cell) 0 = Ok x →
  getcol (quad_actual_coordinates cell) 1 = Ok y →
  list_getitem (forcing_function_vector cell x y) component = Ok fv →
  length fv = shape1 (basis_at_quad cell) →
  get_forcing_function_values_vector np_sum self c component
  = Ok (mk_ndarray2 (length (rows (basis_at_quad cell))) 1
          ((λ r, [np_sum (zip_with fmul (stretch (shape1 (basis_at_quad cell)) r) fv)])
             <$> rows (basis_at_quad cell)),
        set_fe_cell self
          (<[Z.to_nat c :=
               set_forcing_at_quad cell
                 (mk_ndarray2 (length (rows (basis_at_quad cell))) 1
                    ((λ r, [np_sum (zip_with fmul
                                      (stretch (shape1 (basis_at_quad cell)) r) fv)])
                       <$> rows (basis_at_quad cell)))]> (fe_cell self))).
Proof.
  unfold cells_counted. intros Hn Hc Hcell Hx Hy Hfv Hlen.
  unfold get_forcing_function_values_vector.
  destruct (Z.ltb_spec (n_cells self) c); [lia|].
  destruct (list_getitem_nonneg (fe_cell self) c) as (cell' & Hcell' & ->); [lia|].
  assert (cell' = cell) as -> by congruence. cbn [mbind result_bind].
  rewrite Hx, Hy. cbn [mbind result_bind]. rewrite Hfv. cbn [mbind result_bind].
  unfold np_mul_mat_vec. rewrite Hlen, broadcast_len_same.
  cbn [mbind result_bind rows]. rewrite (stretch_id _ fv) by done.
  rewrite length_fmap, <- !list_fmap_compose.
  unfold store_forcing_at_quad. rewrite list_position_nonneg by lia.
  cbn [mbind result_bind]. rewrite Hcell. cbn [mbind result_bind].
  unfold list_getitem. cbn [fe_cell set_fe_cell].
  rewrite list_position_nonneg by (rewrite length_insert; lia).
  cbn [mbind result_bind]. rewrite list_lookup_insert_eq by (by eapply lookup_lt_Some).
  cbn [mbind result_bind forcing_at_quad set_forcing_at_quad].
  by rewrite !length_fmap.
Qed.
End ForcingErrors.

(** * Properties of the specification *)

(** C1 (as amended): for each of the nine guarded per-cell accessors and
    every cell index [c] with [c >= n_cells] or [c < -n_cells], the call
    fails and answers no data; above [n_cells] the exception is the guard's
    [ValueError], whose message names [n_cells], and below [-n_cells] it is
    the list's [IndexError]. *)
Theorem C1_index_out_of_range {F : Type} `{Float64 F} (np_sum : list F → F)
    (self : Fespace2D F) (c component : Z) :
  cells_counted self →
  (n_cells self ≤ c ∨ c < - n_cells self)%Z →
  Forall (λ gf, index_refused self c (gf.1 self c)) array_accessors
  ∧ Forall (λ g, index_refused self c (g self c)) (forcing_accessors np_sum component).
Proof.
  intros Hn Hc. pose proof Hn as Hn'. unfold cells_counted in Hn'.
  destruct (Z.lt_trichotomy (n_cells self) c) as [Hgt|[Heq|Hlt]].
  - split.
    + eapply Forall_impl; [apply (array_accessors_guard self c Hgt)|].
      intros gf Hgf. exists (ValueError (cell_index_msg (n_cells self))).
      split; [done|]. split; [done|lia].
    + eapply Forall_impl; [apply (forcing_accessors_guard np_sum self c component Hgt)|].
      intros g Hg. exists (ValueError (cell_index_msg (n_cells self))).
      split; [done|]. split; [done|lia].
  - split.
    + eapply Forall_impl; [apply (array_accessors_out self c Hn); lia|].
      intros gf Hgf. exists (IndexError list_index_msg). split; [done|]. split; lia.
    + eapply Forall_impl; [apply (forcing_accessors_out np_sum self c component Hn); lia|].
      intros g Hg. exists (IndexError list_index_msg). split; [done|]. split; lia.
  - split.
    + eapply Forall_impl; [apply (array_accessors_out self c Hn); lia|].
      intros gf Hgf. exists (IndexError list_index_msg). split; [done|]. split; [lia|done].
    + eapply Forall_impl; [apply (forcing_accessors_out np_sum self c component Hn); lia|].
      intros g Hg. exists (IndexError list_index_msg). split; [done|]. split; [lia|done].
Qed.

Lemma C1_index_out_of_range_witness :
  Forall (λ gf, index_refused ex_space 2 (gf.1 ex_space 2%Z)) array_accessors
  ∧ Forall (λ g, index_refused ex_space 2 (g ex_space 2%Z)) (forcing_accessors ex_np_sum 0).
Proof.
  apply (C1_index_out_of_range ex_np_sum ex_space 2 0).
  - reflexivity.
  - left. simpl. lia.
Defined.

(** The index [-1] lies outside [[0, n_cells)], and the call answers the
    basis values of the last cell. *)
Lemma C1_counterexample :
  Fespace2D_init ex_FE2D_Cell_init (ex_args ex_boundary_points ex_bound_function_dict true)
  = Ok ex_space
  ∧ ¬ (0 ≤ -1 < n_cells ex_space)%Z
  ∧ get_shape_function_val ex_space (-1)
    = Ok (mk_ndarray2 1 4 [[0.125; 0.25; 0.25; 0.5]]%float).
Proof. split; [|split]; [vm_compute; reflexivity|lia|vm_compute; reflexivity]. Qed.

(** What [get_forcing_data_for_training] answers: when every cell holds
    its forcing integral as a column of [N] entries, one per shape function,
    a matrix of [N] rows and [n_cells] columns whose column [j] is the
    forcing integral of cell [j]. *)
Lemma get_forcing_data_for_training_columns {F : Type} `{Float64 F} (N : nat) (self : Fespace2D F) :
  cells_counted self → fe_cell self ≠ [] →
  Forall (forcing_column N) (fe_cell self) →
  ∃ M, get_forcing_data_for_training self = Ok M
    ∧ shape0 M = N ∧ Z.of_nat (shape1 M) = n_cells self ∧ wf_ndarray2 M
    ∧ ∀ i j cell, i < N → fe_cell self !! j = Some cell →
        getitem2 M i j = getitem2 (forcing_at_quad cell) i 0.
Proof.
  intros Hn Hne Hcol.
  rewrite (get_forcing_data_for_training_rows N) by done.
  eexists. split; [reflexivity|]. unfold wf_ndarray2. cbn [shape0 shape1 rows].
  split; [done|]. split; [done|]. split.
  - split.
    + by rewrite length_fmap, length_seq.
    + rewrite Forall_fmap. apply Forall_forall. intros i _. simpl.
      by rewrite length_fmap, length_seq.
  - intros i j cell Hi Hj. pose proof (lookup_lt_Some _ _ _ Hj) as Hjl.
    destruct (Forall_lookup_1 _ _ _ _ Hcol Hj) as (Hwf & H0 & H1).
    rewrite (getitem2_entry (forcing_at_quad cell)) by (done || lia).
    eapply getitem2_lookup; cbn [shape0 shape1 rows]; [done|done| |].
    + rewrite list_lookup_fmap, lookup_seq_lt by done. reflexivity.
    + rewrite list_lookup_fmap, lookup_seq_lt by done. simpl.
      unfold getitem3, entry. simpl. by rewrite !list_lookup_fmap, Hj.
Qed.

(** C2: the code does not answer the matrix of the claim, which is also the
    matrix of the docstring of [get_forcing_data_for_training] ("a matrix of
    size N_Quad_Points x N_cells").  On the constructed space of two cells
    with four quadrature points and one shape function each, after
    [get_forcing_function_values] has computed the forcing integral of both
    cells, [get_forcing_data_for_training] answers a matrix of one row (the
    number of shape functions) and two columns, not of four rows. *)
Theorem C2_docstring_shape_broken :
  Fespace2D_init ex_FE2D_Cell_init (ex_args ex_boundary_points ex_bound_function_dict true)
  = Ok ex_space
  ∧ Forall (λ c, shape1 (basis_at_quad c) = 4
                 ∧ shape0 (quad_actual_coordinates c) = 4
                 ∧ num_shape_functions (basis_function c) = 1) (fe_cell ex_space)
  ∧ ∃ a0 self1 a1 self2 M,
      get_forcing_function_values ex_space 0 = Ok (a0, self1)
      ∧ get_forcing_function_values self1 1 = Ok (a1, self2)
      ∧ a0 = mk_ndarray2 1 1 [[0.9375]]%float
      ∧ a1 = mk_ndarray2 1 1 [[1.3125]]%float
      ∧ get_forcing_data_for_training self2 = Ok M
      ∧ M = mk_ndarray2 1 2 [[0.9375; 1.3125]]%float
      ∧ shape0 M ≠ 4 ∧ shape1 M = 2.
Proof.
  split; [vm_compute; reflexivity|]. split; [simpl; repeat constructor|].
  exists (mk_ndarray2 1 1 [[0.9375]]%float), ex_space,
    (mk_ndarray2 1 1 [[1.3125]]%float), ex_space,
    (mk_ndarray2 1 2 [[0.9375; 1.3125]]%float).
  split; [vm_compute; reflexivity|]. split; [vm_compute; reflexivity|].
  do 2 (split; [reflexivity|]). split; [vm_compute; reflexivity|].
  split; [reflexivity|]. split; [simpl; lia|reflexivity].
Qed.

(** C3 (as amended): for a shape-function count [N] that is not a perfect
    square no evaluator raises: with [n = int(sqrt(N))], each of the six
    answers an [N × P] array whose first [n * n] rows are the blocks of
    products and whose remaining [N - n * n >= 1] rows are zero. *)
Theorem C3_non_square_count_truncates {F : Type} `{Float64 F}
    (jacobi : nat → F → F → F → F) (N : nat) (xi eta : list F) :
  Nat.sqrt N * Nat.sqrt N ≠ N →
  length xi = length eta →
  Nat.sqrt N * Nat.sqrt N < N
  ∧ evaluators_assemble jacobi N (Nat.sqrt N) xi eta.
Proof.
  intros Hsq Hlen. split.
  - pose proof (sqrt_square_le N). lia.
  - by apply evaluators_assemble_sqrt.
Qed.

Lemma C3_non_square_count_truncates_witness :
  Nat.sqrt 5 * Nat.sqrt 5 < 5
  ∧ evaluators_assemble (F:=float) jacobi_recurrence 5 (Nat.sqrt 5)
      [0.5%float] [0.5%float].
Proof.
  apply (C3_non_square_count_truncates jacobi_recurrence 5 [0.5%float] [0.5%float]).
  - vm_compute. lia.
  - reflexivity.
Defined.

(** The count 5 is not a perfect square, and [value] answers an array: four
    rows of products and a fifth row left at zero. *)
Lemma C3_counterexample :
  (∀ n, n * n ≠ 5)
  ∧ value jacobi_recurrence (mk_BasisFunction2D 5) [0.5%float] [0.5%float]
    = Ok (mk_ndarray2 5 1 [[2.25]; [2.25]; [2.25]; [2.25]; [0]]%float).
Proof.
  split; [|vm_compute; reflexivity].
  intros n. destruct (decide (n ≤ 2)); nia.
Qed.

(** C4: for a valid cell index, [get_forcing_function_values] answers the
    column whose entry [i] is the sum over the quadrature points [q], from
    [q = 0] upwards, of [basis_at_quad[i, q] * forcing(x_q, y_q)] with no
    other factor; it stores that column as the cell's [forcing_at_quad],
    leaves the other cells as they were, and a second call answers the same
    column and the same object. *)
Theorem C4_forcing_integral {F : Type} `{Float64 F} (self : Fespace2D F) (ci : Z)
    (cell : FE2D_Cell F) :
  cells_counted self →
  (0 ≤ ci < n_cells self)%Z →
  fe_cell self !! Z.to_nat ci = Some cell →
  cell_record_shapes cell →
  ∃ a self',
    get_forcing_function_values self ci = Ok (a, self')
    ∧ shape0 a = num_shape_functions (basis_function cell) ∧ shape1 a = 1
    ∧ (∀ i, i < num_shape_functions (basis_function cell) →
         getitem2 a i 0 = Ok (spec_forcing_sum cell i))
    ∧ fe_cell self' !! Z.to_nat ci = Some (set_forcing_at_quad cell a)
    ∧ (∀ j, j ≠ Z.to_nat ci → fe_cell self' !! j = fe_cell self !! j)
    ∧ get_forcing_function_values self' ci = Ok (a, self').
Proof.
  intros Hn Hci Hcell Hshapes.
  pose proof (forcing_integral_spec cell Hshapes) as Ha.
  pose proof (lookup_lt_Some _ _ _ Hcell) as Hlt.
  exists (spec_forcing_integral cell),
    (set_fe_cell self
       (<[Z.to_nat ci := set_forcing_at_quad cell (spec_forcing_integral cell)]>
          (fe_cell self))).
  split; [by apply get_forcing_function_values_valid|].
  split; [done|]. split; [done|]. split.
  { intros i Hi. eapply getitem2_lookup; cbn [shape0 shape1 rows spec_forcing_integral].
    - done.
    - lia.
    - rewrite list_lookup_fmap, lookup_seq_lt by done. reflexivity.
    - done. }
  split; [by apply list_lookup_insert_eq|].
  split; [intros j Hj; by apply list_lookup_insert_ne|].
  rewrite (get_forcing_function_values_valid _ ci
             (set_forcing_at_quad cell (spec_forcing_integral cell))
             (spec_forcing_integral cell)).
  - simpl. unfold set_fe_cell. simpl. by rewrite list_insert_insert_eq.
  - unfold cells_counted in *. simpl. by rewrite length_insert.
  - done.
  - simpl. by apply list_lookup_insert_eq.
  - done.
Qed.

Lemma C4_forcing_integral_witness :
  ∃ a self',
    get_forcing_function_values ex_space 1 = Ok (a, self')
    ∧ shape0 a = 1 ∧ shape1 a = 1
    ∧ (∀ i, i < 1 →
         getitem2 a i 0
         = Ok (spec_forcing_sum ex_cell1 i))
    ∧ fe_cell self' !! 1
      = Some (set_forcing_at_quad ex_cell1 a)
    ∧ (∀ j, j ≠ 1 → fe_cell self' !! j = fe_cell ex_space !! j)
    ∧ get_forcing_function_values self' 1 = Ok (a, self').
Proof.
  apply (C4_forcing_integral ex_space 1 ex_cell1).
  - reflexivity.
  - simpl. lia.
  - reflexivity.
  - unfold cell_record_shapes, wf_ndarray2. simpl. repeat constructor.
Defined.

(** C5: for [N = n * n] and two coordinate vectors of the same length [P],
    [value] answers an [N × P] array with
    [value[i*n + j, p] = test_x[i, p] * test_y[j, p]], and [gradx], [grady],
    [gradxx], [gradxy], [gradyy] are assembled in the same way with the
    first or second derivative of the corresponding 1D family. *)
Theorem C5_tensor_product_blocks {F : Type} `{Float64 F}
    (jacobi : nat → F → F → F → F) (n : nat) (xi eta : list F) :
  length xi = length eta →
  evaluators_assemble jacobi (n * n) n xi eta.
Proof.
  intros Hlen. pose proof (evaluators_assemble_sqrt jacobi (n * n) xi eta Hlen) as Hs.
  by rewrite Nat.sqrt_square in Hs.
Qed.

Lemma C5_tensor_product_blocks_witness :
  evaluators_assemble (F:=float) jacobi_recurrence (2 * 2) 2
    [0.5; 0]%float [0; 0.5]%float.
Proof.
  apply (C5_tensor_product_blocks jacobi_recurrence 2 [0.5; 0]%float [0; 0.5]%float).
  reflexivity.
Defined.

(** C6: row [k - 1] of [test_fcnx] and of [test_fcny], for [1 <= k <= n],
    holds at every point [x] the value
    [P_{k+1}(x)/P_{k+1}(1) - P_{k-1}(x)/P_{k-1}(1)], where [P_m] is the
    Jacobi polynomial of parameters [a = b = -1/2]. *)
Theorem C6_jacobi_test_functions {F : Type} `{Float64 F}
    (jacobi : nat → F → F → F → F) (n : nat) (x : list F) (k p : nat) (xp : F) :
  1 ≤ k ≤ n →
  x !! p = Some xp →
  ∃ tx ty,
    test_fcnx jacobi n x = Ok tx ∧ test_fcny jacobi n x = Ok ty
    ∧ shape0 tx = n ∧ shape1 tx = length x
    ∧ shape0 ty = n ∧ shape1 ty = length x
    ∧ getitem2 tx (k - 1) p = Ok (spec_test jacobi k xp)
    ∧ getitem2 ty (k - 1) p = Ok (spec_test jacobi k xp).
Proof.
  intros Hk Hp. exists (family (spec_test jacobi) n x), (family (spec_test jacobi) n x).
  rewrite test_fcnx_family, test_fcny_family, family_shape0, family_shape1 by lia.
  rewrite (family_getitem2 _ n x (k - 1) p xp) by (done || lia).
  replace (k - 1 + 1) with k by lia. done.
Qed.

Lemma C6_jacobi_test_functions_witness :
  ∃ tx ty,
    test_fcnx jacobi_recurrence 3 [0.5; 0]%float = Ok tx
    ∧ test_fcny jacobi_recurrence 3 [0.5; 0]%float = Ok ty
    ∧ shape0 tx = 3 ∧ shape1 tx = length [0.5; 0]%float
    ∧ shape0 ty = 3 ∧ shape1 ty = length [0.5; 0]%float
    ∧ getitem2 tx (2 - 1) 1 = Ok (spec_test jacobi_recurrence 2 0%float)
    ∧ getitem2 ty (2 - 1) 1 = Ok (spec_test jacobi_recurrence 2 0%float).
Proof.
  apply (C6_jacobi_test_functions jacobi_recurrence 3 [0.5; 0]%float 2 1 0%float).
  - lia.
  - reflexivity.
Defined.

(** C7: the second derivative built by [dtest_fcn] has three branches: for
    [k = 1] and [k = 2] row [k - 1] is
    [((k+2)(k+1)/4) * P^{(3/2,3/2)}_{k-1}(x) / P^{(-1/2,-1/2)}_{k+1}(1)]
    with nothing subtracted; for [k >= 3] the term
    [(k(k-1)/4) * P^{(3/2,3/2)}_{k-3}(x) / P^{(-1/2,-1/2)}_{k-1}(1)] is
    subtracted from it.  [dtest_fcn] answers for every [n]: no branch asks
    for a polynomial of negative degree, which [jacobi_wrapper] refuses. *)
Theorem C7_second_derivative_branches {F : Type} `{Float64 F}
    (jacobi : nat → F → F → F → F) (n : nat) (x : list F) (k p : nat) (xp : F) :
  1 ≤ k ≤ n →
  x !! p = Some xp →
  ∃ d1 d2,
    dtest_fcn jacobi n x = Ok (d1, d2)
    ∧ shape0 d2 = n ∧ shape1 d2 = length x
    ∧ (k = 1 ∨ k = 2 → getitem2 d2 (k - 1) p = Ok (spec_d2_lead jacobi k xp))
    ∧ (3 ≤ k → getitem2 d2 (k - 1) p
               = Ok (fsub (spec_d2_lead jacobi k xp) (spec_d2_lower jacobi k xp)))
    ∧ (∀ m a b, (m < 0)%Z →
         jacobi_wrapper jacobi m a b x = Raise (ValueError jacobi_negative_msg)).
Proof.
  intros Hk Hp.
  exists (family (spec_d1test jacobi) n x), (family (spec_d2test jacobi) n x).
  rewrite dtest_fcn_family, family_shape0, family_shape1 by lia.
  rewrite (family_getitem2 _ n x (k - 1) p xp) by (done || lia).
  replace (k - 1 + 1) with k by lia.
  do 3 (split; [done|]). unfold spec_d2test. split; [|split].
  - by intros [-> | ->].
  - intros H3. destruct (Nat.eqb_spec k 1); [lia|]. by destruct (Nat.eqb_spec k 2); [lia|].
  - intros m a b Hm. unfold jacobi_wrapper. by destruct (Z.ltb_spec m 0); [|lia].
Qed.

Lemma C7_second_derivative_branches_witness :
  ∃ d1 d2,
    dtest_fcn jacobi_recurrence 3 [0.5; 0]%float = Ok (d1, d2)
    ∧ shape0 d2 = 3 ∧ shape1 d2 = length [0.5; 0]%float
    ∧ (3 = 1 ∨ 3 = 2 → getitem2 d2 (3 - 1) 0 = Ok (spec_d2_lead jacobi_recurrence 3 0.5%float))
    ∧ (3 ≤ 3 → getitem2 d2 (3 - 1) 0
               = Ok (fsub (spec_d2_lead jacobi_recurrence 3 0.5%float)
                          (spec_d2_lower jacobi_recurrence 3 0.5%float)))
    ∧ (∀ m a b, (m < 0)%Z →
         jacobi_wrapper jacobi_recurrence m a b [0.5; 0]%float
         = Raise (ValueError jacobi_negative_msg)).
Proof.
  apply (C7_second_derivative_branches jacobi_recurrence 3 [0.5; 0]%float 3 0 0.5%float).
  - lia.
  - reflexivity.
Defined.

(** C8: when [__init__] completes, [total_dofs] is the sum over the cells of
    the second dimension of [basis_at_quad], and [total_dirichlet_dofs] is
    the sum over the boundary tags of the number of points listed for the
    tag.  ([generate_plot], when asked for, assigns [total_dofs] again from
    the rows of [quad_actual_coordinates]: the cells are then taken to keep
    the record's invariant that both count the same quadrature points.) *)
Theorem C8_total_dofs {F : Type} `{Float64 F}
    (FE2D_Cell_init :
       list Z → string → Z → string → Z → string → string →
       (F → F → F) → (list F → list F → list (list F)) → result (FE2D_Cell F))
    (a : Fespace2D_args F) (self : Fespace2D F) :
  Fespace2D_init FE2D_Cell_init a = Ok self →
  (generate_mesh_plot a = true → Forall quadrature_consistent (fe_cell self)) →
  args self = a
  ∧ cells_counted self
  ∧ length (fe_cell self) = length (cells a)
  ∧ total_dofs self = sum_quadrature_points (fe_cell self)
  ∧ total_dirichlet_dofs self = sum_boundary_points (boundary_points a).
Proof.
  intros Hinit Hq.
  apply Fespace2D_init_Ok in Hinit as (self1 & self2 & self3 & data & H1 & H2 & H3 & ->).
  apply set_finite_elements_post in H1 as (Ha1 & Hn1 & _ & Hl1 & _ & Hd1); [|done].
  simpl in Ha1, Hn1, Hl1. rewrite Nat2Z.id in Hl1.
  apply generate_dirichlet_boundary_data_post in H3 as (Ha3 & Hn3 & Hc3 & Hd3 & _ & Ht3).
  unfold cells_counted. simpl. rewrite Ha3, Hn3, Hc3, Hd3, Ht3. clear Ha3 Hn3 Hd3 Ht3.
  simpl in Hq. rewrite Hc3 in Hq. clear Hc3 self3.
  destruct (generate_mesh_plot a) eqn:Hplot.
  - apply generate_plot_post in H2 as (Ha2 & Hn2 & _ & Hc2 & Hd2).
    + rewrite Ha2, Hn2, Hc2, Hd2, Ha1, Hn1, Hl1. done.
    + rewrite Hn1, Hl1. lia.
    + apply generate_plot_args in H2 as Ha2'.
      assert (fe_cell self2 = fe_cell self1) as <-; [|by apply Hq].
      unfold generate_plot in H2.
      apply bind_Ok in H2 as (? & _ & H2). apply bind_Ok in H2 as (? & _ & H2).
      by injection H2 as <-.
  - injection H2 as <-. rewrite Ha1, Hn1, Hl1, Hd1. done.
Qed.

Lemma C8_total_dofs_witness :
  args ex_space = ex_args ex_boundary_points ex_bound_function_dict true
  ∧ cells_counted ex_space
  ∧ length (fe_cell ex_space)
    = length (cells (ex_args ex_boundary_points ex_bound_function_dict true))
  ∧ total_dofs ex_space = sum_quadrature_points (fe_cell ex_space)
  ∧ total_dirichlet_dofs ex_space
    = sum_boundary_points
        (boundary_points (ex_args ex_boundary_points ex_bound_function_dict true)).
Proof.
  apply (C8_total_dofs ex_FE2D_Cell_init
           (ex_args ex_boundary_points ex_bound_function_dict true) ex_space).
  - vm_compute. reflexivity.
  - intros _. unfold quadrature_consistent, wf_ndarray2. simpl. repeat constructor.
Defined.

(** C9 (as amended): when a boundary tag of the mesh's boundary-point
    mapping lists at least one point and has no entry in the
    boundary-function dictionary, [generate_dirichlet_boundary_data] stops
    with [KeyError] at a tag without entry -- at that very tag when every
    tag before it lists no point or has its function -- and [__init__]
    raises; no tag is skipped and no default value is substituted.  (The
    boundary points have their two coordinates.) *)
Theorem C9_missing_boundary_function {F : Type} `{Float64 F}
    (FE2D_Cell_init :
       list Z → string → Z → string → Z → string → string →
       (F → F → F) → (list F → list F → list (list F)) → result (FE2D_Cell F))
    (a : Fespace2D_args F) (t : Z) (pts : ndarray2 F) :
  Forall (λ it, points_2d it.2) (boundary_points a) →
  (t, pts) ∈ boundary_points a →
  rows pts ≠ [] →
  bound_function_dict a !! t = None →
  (∃ t', bound_function_dict a !! t' = None
     ∧ ∀ self, args self = a →
         generate_dirichlet_boundary_data self = Raise (KeyError t'))
  ∧ (∀ pre post,
       boundary_points a = pre ++ (t, pts) :: post →
       Forall (tag_passes (bound_function_dict a)) pre →
       ∀ self, args self = a →
         generate_dirichlet_boundary_data self = Raise (KeyError t))
  ∧ ∃ e, Fespace2D_init FE2D_Cell_init a = Raise e.
Proof.
  intros H2 Hin Hne Hnone.
  destruct (first_absent_tag (bound_function_dict a) (boundary_points a) H2)
    as (pre & t' & pts' & post & Hbp & Hpre & H2' & Hne' & Hnone').
  { apply Exists_exists. by exists (t, pts). }
  split; [|split].
  - exists t'. split; [done|]. intros self <-.
    by eapply generate_dirichlet_boundary_data_absent.
  - intros pre0 post0 Hbp0 Hpre0 self <-.
    eapply generate_dirichlet_boundary_data_absent; [done..| |done|done].
    rewrite Forall_forall in H2. by apply (H2 (t, pts)).
  - by eapply Fespace2D_init_absent.
Qed.

Lemma C9_missing_boundary_function_witness :
  (∃ t', bound_function_dict ex_args_absent !! t' = None
     ∧ ∀ self, args self = ex_args_absent →
         generate_dirichlet_boundary_data self = Raise (KeyError t'))
  ∧ (∀ pre post,
       boundary_points ex_args_absent
       = pre ++ (1001%Z, mk_ndarray2 1 2 [[1; 0.5]]%float) :: post →
       Forall (tag_passes (bound_function_dict ex_args_absent)) pre →
       ∀ self, args self = ex_args_absent →
         generate_dirichlet_boundary_data self = Raise (KeyError 1001))
  ∧ ∃ e, Fespace2D_init ex_FE2D_Cell_init ex_args_absent = Raise e.
Proof.
  apply (C9_missing_boundary_function ex_FE2D_Cell_init ex_args_absent
           1001 (mk_ndarray2 1 2 [[1; 0.5]]%float)).
  - repeat constructor.
  - simpl. unfold ex_boundary_points. right. left.
  - simpl. discriminate.
  - reflexivity.
Defined.

(** The tag 1000 is in the boundary-point mapping with no point listed and
    has no boundary function: the extraction and [__init__] complete. *)
Lemma C9_counterexample :
  (∅ : gmap Z (float → float → float)) !! 1000%Z = None
  ∧ ∃ self,
      Fespace2D_init ex_FE2D_Cell_init (ex_args [(1000%Z, mk_ndarray2 0 2 [])] ∅ false)
      = Ok self
      ∧ dirichlet_boundary_data self = Some ([], [])
      ∧ total_dirichlet_dofs self = 0%Z.
Proof.
  split; [reflexivity|]. eexists. split; [vm_compute; reflexivity|]. by split.
Qed.



Section BasisMoreProofs.
Context {F : Type} `{Float64 F}.
Variable jacobi : nat → F → F → F → F.

(** Each evaluator is [block_assign] on two sampled families. *)
Lemma evaluators_block_assign N xi eta :
  Forall (λ eo,
      eo.1 (mk_BasisFunction2D N) xi eta
      = block_assign N (Nat.sqrt N) (length xi)
          (family (spec_family jacobi eo.2.1) (Nat.sqrt N) xi)
          (family (spec_family jacobi eo.2.2) (Nat.sqrt N) eta))
    (evaluators jacobi).
Proof.
  unfold evaluators.
  repeat (apply Forall_cons_2; [|]); [..|apply Forall_nil_2]; simpl;
    unfold value, gradx, grady, gradxx, gradxy, gradyy, int_sqrt;
    rewrite ?test_fcnx_family, ?test_fcny_family, ?dtest_fcn_family; done.
Qed.

(** The closed form of every entry of an evaluator's result. *)
Lemma block_assign_family_entries N n (fx fy : nat → F → F) xi eta v :
  n * n ≤ N → length xi = length eta →
  block_assign N n (length xi) (family fx n xi) (family fy n eta) = Ok v →
  shape0 v = N ∧ shape1 v = length xi
  ∧ (∀ i j p a b, i < n → j < n → xi !! p = Some a → eta !! p = Some b →
       getitem2 v (i * n + j) p = Ok (fmul (fx (i + 1) a) (fy (j + 1) b)))
  ∧ (∀ r p, n * n ≤ r < N → p < length xi → getitem2 v r p = Ok (of_int 0)).
Proof.
  intros HN Hlen Hv.
  destruct (block_assign_family N n fx fy xi eta HN Hlen)
    as (v' & Hv' & H0 & H1 & _ & Hblock & Hzero).
  assert (v' = v) as -> by congruence.
  split; [done|]. split; [done|]. split.
  - intros i j p a b Hi Hj Ha Hb.
    destruct (Hblock i j p Hi Hj) as (a' & b' & Ha' & Hb' & ->).
    { by eapply lookup_lt_Some. }
    rewrite (family_getitem2 fx n xi i p a) in Ha' by done.
    rewrite (family_getitem2 fy n eta j p b) in Hb' by done.
    congruence.
  - intros r p Hr Hp. apply Hzero; lia.
Qed.
End BasisMoreProofs.

Section BasisMoreProofs2.
Context {F : Type} `{Float64 F}.
Variable jacobi : nat → F → F → F → F.

Lemma for_loop_ext_in {St I} (body1 body2 : St → I → result St) s l :
  (∀ s i, i ∈ l → body1 s i = body2 s i) → for_loop body1 s l = for_loop body2 s l.
Proof.
  revert s. induction l as [|i l IH]; intros s Hb; simpl; [done|].
  rewrite Hb by left. destruct (body2 s i); simpl; [|done].
  apply IH. intros s' j Hj. apply Hb. by right.
Qed.

(** A loop raises what its first pass raises. *)
Lemma for_loop_first_raises {St I} (body : St → I → result St) s i l e :
  body s i = Raise e → for_loop body s (i :: l) = Raise e.
Proof. intros Hb. simpl. by rewrite Hb. Qed.

Lemma block_assign_mismatch N n (fx fy : nat → F → F) xi eta :
  1 ≤ n → length xi ≠ length eta → length eta ≠ 1 →
  ∃ msg, block_assign N n (length xi) (family fx n xi) (family fy n eta)
         = Raise (ValueError msg).
Proof.
  intros Hn Hne H1. unfold block_assign, range. rewrite Nat.sub_0_r.
  destruct n as [|n]; [lia|]. cbn [seq].
  destruct (decide (length xi = 1)) as [Hx1|Hx1].
  - exists np_assign_msg. apply for_loop_first_raises.
    unfold getrow. rewrite family_shape0, family_row by lia. simpl.
    unfold np_mul_vec_mat. rewrite length_fmap, family_shape1 by lia.
    unfold broadcast_len. rewrite Hx1.
    destruct (Nat.eqb_spec 1 (length eta)); [lia|]. simpl.
    unfold setitem_rows. cbn [shape0 shape1 np_zeros].
    destruct (Nat.eqb_spec (length eta) (length xi)); [lia|].
    destruct (Nat.eqb_spec (length eta) 1); [lia|].
    by rewrite andb_false_r.
  - exists np_broadcast_msg. apply for_loop_first_raises.
    unfold getrow. rewrite family_shape0, family_row by lia. simpl.
    unfold np_mul_vec_mat. rewrite length_fmap, family_shape1 by lia.
    unfold broadcast_len.
    destruct (Nat.eqb_spec (length xi) (length eta)); [lia|].
    destruct (Nat.eqb_spec (length xi) 1); [lia|].
    by destruct (Nat.eqb_spec (length eta) 1); [lia|].
Qed.

End BasisMoreProofs2.

(** * Further properties of the basis *)

(** X1: the first derivative built by [dtest_fcn] has two forms: row 0
    (index [k = 1]) is [((k+1)/2) * P^{(1/2,1/2)}_k(x) / P^{(-1/2,-1/2)}_{k+1}(1)],
    and every row [k - 1] with [k >= 2] is that term minus
    [((k-1)/2) * P^{(1/2,1/2)}_{k-2}(x) / P^{(-1/2,-1/2)}_{k-1}(1)]. *)
Theorem X1_first_derivative_branches {F : Type} `{Float64 F}
    (jacobi : nat → F → F → F → F) (n : nat) (x : list F) (k p : nat) (xp : F) :
  1 ≤ k ≤ n →
  x !! p = Some xp →
  ∃ d1 d2,
    dtest_fcn jacobi n x = Ok (d1, d2)
    ∧ shape0 d1 = n ∧ shape1 d1 = length x
    ∧ (k = 1 → getitem2 d1 (k - 1) p = Ok (spec_d1_lead jacobi k xp))
    ∧ (2 ≤ k → getitem2 d1 (k - 1) p
               = Ok (fsub (spec_d1_lead jacobi k xp) (spec_d1_lower jacobi k xp))).
Proof.
  intros Hk Hp.
  exists (family (spec_d1test jacobi) n x), (family (spec_d2test jacobi) n x).
  rewrite dtest_fcn_family, family_shape0, family_shape1 by lia.
  rewrite (family_getitem2 _ n x (k - 1) p xp) by (done || lia).
  replace (k - 1 + 1) with k by lia.
  do 3 (split; [done|]). unfold spec_d1test. split.
  - by intros ->.
  - intros H2. by destruct (Nat.eqb_spec k 1); [lia|].
Qed.

Lemma X1_first_derivative_branches_witness :
  ∃ d1 d2,
    dtest_fcn jacobi_recurrence 3 [0.5; 0]%float = Ok (d1, d2)
    ∧ shape0 d1 = 3 ∧ shape1 d1 = length [0.5; 0]%float
    ∧ (2 = 1 → getitem2 d1 (2 - 1) 0 = Ok (spec_d1_lead jacobi_recurrence 2 0.5%float))
    ∧ (2 ≤ 2 → getitem2 d1 (2 - 1) 0
               = Ok (fsub (spec_d1_lead jacobi_recurrence 2 0.5%float)
                          (spec_d1_lower jacobi_recurrence 2 0.5%float))).
Proof.
  apply (X1_first_derivative_branches jacobi_recurrence 3 [0.5; 0]%float 2 0 0.5%float).
  - lia.
  - reflexivity.
Defined.

(** X2: the evaluators work point by point: on coordinate vectors of equal
    length, column [p] of the array an evaluator returns is the single
    column it returns for the one point [(xi[p], eta[p])]. *)
Theorem X2_evaluators_pointwise {F : Type} `{Float64 F}
    (jacobi : nat → F → F → F → F) (N : nat) (xi eta : list F) (p : nat) (a b : F) :
  length xi = length eta →
  xi !! p = Some a →
  eta !! p = Some b →
  Forall (λ eo, ∃ v v1,
      eo.1 (mk_BasisFunction2D N) xi eta = Ok v
      ∧ eo.1 (mk_BasisFunction2D N) [a] [b] = Ok v1
      ∧ shape0 v = N ∧ shape0 v1 = N ∧ shape1 v1 = 1
      ∧ ∀ r, r < N → getitem2 v r p = getitem2 v1 r 0)
    (evaluators jacobi).
Proof.
  intros Hlen Ha Hb. apply Forall_forall. intros eo Heo.
  pose proof (sqrt_square_le N) as HN.
  pose proof (proj1 (Forall_forall _ _) (evaluators_block_assign jacobi N xi eta) eo Heo)
    as Hv.
  pose proof (proj1 (Forall_forall _ _) (evaluators_block_assign jacobi N [a] [b]) eo Heo)
    as Hv1.
  simpl in Hv, Hv1. rewrite Hv, Hv1.
  destruct (block_assign_family N (Nat.sqrt N) (spec_family jacobi eo.2.1)
              (spec_family jacobi eo.2.2) xi eta HN Hlen) as (v & Ev & _).
  destruct (block_assign_family N (Nat.sqrt N) (spec_family jacobi eo.2.1)
              (spec_family jacobi eo.2.2) [a] [b] HN eq_refl) as (v1 & Ev1 & _).
  exists v, v1. split; [done|]. split; [done|].
  apply block_assign_family_entries in Ev as (H0 & _ & Hblock & Hzero); [|done..].
  apply block_assign_family_entries in Ev1 as (H0' & H1' & Hblock1 & Hzero1); [|done..].
  do 3 (split; [done|]). intros r Hr.
  pose proof (lookup_lt_Some _ _ _ Ha) as Hp.
  destruct (decide (r < Nat.sqrt N * Nat.sqrt N)) as [Hlt|Hge].
  - assert (Nat.sqrt N ≠ 0) as Hn0 by lia.
    pose proof (Nat.div_mod r (Nat.sqrt N) Hn0) as Hr'.
    pose proof (Nat.mod_upper_bound r (Nat.sqrt N) Hn0).
    assert (r `div` Nat.sqrt N < Nat.sqrt N) by (apply Nat.Div0.div_lt_upper_bound; lia).
    replace r with (r `div` Nat.sqrt N * Nat.sqrt N + r `mod` Nat.sqrt N) by lia.
    rewrite (Hblock _ _ p a b), (Hblock1 _ _ 0 a b) by done. done.
  - rewrite Hzero, Hzero1 by (simpl; lia). done.
Qed.

Lemma X2_evaluators_pointwise_witness :
  Forall (λ eo, ∃ v v1,
      eo.1 (mk_BasisFunction2D 5) [0.5; 0]%float [0; 0.5]%float = Ok v
      ∧ eo.1 (mk_BasisFunction2D 5) [0%float] [0.5%float] = Ok v1
      ∧ shape0 v = 5 ∧ shape0 v1 = 5 ∧ shape1 v1 = 1
      ∧ ∀ r, r < 5 → getitem2 v r 1 = getitem2 v1 r 0)
    (evaluators (F:=float) jacobi_recurrence).
Proof.
  apply (X2_evaluators_pointwise jacobi_recurrence 5 [0.5; 0]%float [0; 0.5]%float
           1 0%float 0.5%float); reflexivity.
Defined.

(** X3: with at least one shape function, coordinate vectors of different
    lengths make every evaluator raise [ValueError] (from the product or
    from the assignment of a block), unless [eta] has length one. *)
Theorem X3_evaluators_length_mismatch {F : Type} `{Float64 F}
    (jacobi : nat → F → F → F → F) (N : nat) (xi eta : list F) :
  1 ≤ N →
  length xi ≠ length eta →
  length eta ≠ 1 →
  Forall (λ eo, ∃ msg, eo.1 (mk_BasisFunction2D N) xi eta = Raise (ValueError msg))
    (evaluators jacobi).
Proof.
  intros HN Hne H1.
  eapply Forall_impl; [apply (evaluators_block_assign jacobi N xi eta)|].
  intros eo ->. apply block_assign_mismatch; [|done..].
  change 1 with (Nat.sqrt 1). by apply Nat.sqrt_le_mono.
Qed.

Lemma X3_evaluators_length_mismatch_witness :
  Forall (λ eo, ∃ msg,
      eo.1 (mk_BasisFunction2D 4) [0.5; 0]%float [0; 0.5; 1]%float
      = Raise (ValueError msg))
    (evaluators (F:=float) jacobi_recurrence).
Proof.
  apply (X3_evaluators_length_mismatch jacobi_recurrence 4 [0.5; 0]%float
           [0; 0.5; 1]%float); simpl; lia.
Defined.


(** X5: the test functions vanish at the endpoint [x = 1] at which they are
    normalized: where a point of [x] is [1], and the two endpoint values
    [P_{k+1}(1)] and [P_{k-1}(1)] divide themselves to [1] (as every finite
    non-zero double does), row [k - 1] of [test_fcnx] holds [1 - 1]. *)
Theorem X5_test_function_vanishes_at_endpoint {F : Type} `{Float64 F}
    (jacobi : nat → F → F → F → F) (n : nat) (x : list F) (k p : nat) :
  1 ≤ k ≤ n →
  x !! p = Some (of_int 1) →
  fdiv (spec_P jacobi (k + 1) (of_int 1)) (spec_P jacobi (k + 1) (of_int 1)) = of_int 1 →
  fdiv (spec_P jacobi (k - 1) (of_int 1)) (spec_P jacobi (k - 1) (of_int 1)) = of_int 1 →
  ∃ tx ty,
    test_fcnx jacobi n x = Ok tx ∧ test_fcny jacobi n x = Ok ty
    ∧ getitem2 tx (k - 1) p = Ok (fsub (of_int 1) (of_int 1))
    ∧ getitem2 ty (k - 1) p = Ok (fsub (of_int 1) (of_int 1)).
Proof.
  intros Hk Hp Ha Hb.
  exists (family (spec_test jacobi) n x), (family (spec_test jacobi) n x).
  rewrite test_fcnx_family, test_fcny_family.
  rewrite (family_getitem2 _ n x (k - 1) p (of_int 1)) by (done || lia).
  replace (k - 1 + 1) with k by lia.
  unfold spec_test. by rewrite Ha, Hb.
Qed.

Lemma X5_test_function_vanishes_at_endpoint_witness :
  ∃ tx ty,
    test_fcnx jacobi_recurrence 3 [0.5; 1]%float = Ok tx
    ∧ test_fcny jacobi_recurrence 3 [0.5; 1]%float = Ok ty
    ∧ getitem2 tx (3 - 1) 1 = Ok (fsub (of_int 1) (of_int 1) : float)
    ∧ getitem2 ty (3 - 1) 1 = Ok (fsub (of_int 1) (of_int 1) : float).
Proof.
  apply (X5_test_function_vanishes_at_endpoint jacobi_recurrence 3 [0.5; 1]%float 3 1).
  - lia.
  - reflexivity.
  - vm_compute. reflexivity.
  - vm_compute. reflexivity.
Defined.

Section DirichletMore.
Context {F : Type} `{Float64 F}.
Implicit Types (d : gmap Z (F → F → F)) (bp : list (Z * ndarray2 F)).

Lemma points_loop_present_eq d t f x y pts :
  d !! t = Some f → Forall (λ pt, 2 ≤ length pt) pts →
  points_loop d t (x, y) pts
  = Ok (x ++ omap (λ pt, (λ ab : F * F, [ab.1; ab.2]) <$> first2 pt) pts,
        y ++ omap (λ pt, (λ ab : F * F, reshape_scalar (f ab.1 ab.2)) <$> first2 pt) pts).
Proof.
  intros Hf Hpts. revert x y.
  induction Hpts as [|pt pts Hpt _ IH]; intros x y.
  - unfold points_loop. simpl. by rewrite !app_nil_r.
  - destruct pt as [|p0 [|p1 pt]]; simpl in Hpt; [lia..|].
    rewrite (points_loop_cons_present d t f) by done. rewrite IH. simpl.
    by rewrite <- !app_assoc.
Qed.

Lemma points_loop_Ok_inv d t xy pts xy' :
  points_loop d t xy pts = Ok xy' →
  Forall (λ pt, 2 ≤ length pt) pts ∧ (pts = [] ∨ is_Some (d !! t)).
Proof.
  revert xy. induction pts as [|pt pts IH]; intros [x y] Hrun.
  - split; [constructor|by left].
  - destruct (d !! t) as [f|] eqn:Hd.
    + destruct pt as [|p0 [|p1 pt]]; [done..|].
      rewrite (points_loop_cons_present d t f) in Hrun by done.
      apply IH in Hrun as [Hpts _]. split; [|right; by eexists].
      constructor; [simpl; lia|done].
    + destruct pt as [|p0 [|p1 pt]]; [done..|].
      rewrite points_loop_absent in Hrun; [done|done|simpl; lia].
Qed.

Lemma spec_dirichlet_x_cons t pts bp :
  spec_dirichlet_x ((t, pts) :: bp)
  = omap (λ pt, (λ ab : F * F, [ab.1; ab.2]) <$> first2 pt) (rows pts)
    ++ spec_dirichlet_x bp.
Proof. reflexivity. Qed.

Lemma spec_dirichlet_y_cons d t pts bp :
  spec_dirichlet_y d ((t, pts) :: bp)
  = match d !! t with
    | Some f => omap (λ pt, (λ ab : F * F, reshape_scalar (f ab.1 ab.2)) <$> first2 pt)
                  (rows pts)
    | None => []
    end ++ spec_dirichlet_y d bp.
Proof. reflexivity. Qed.

Lemma length_omap_first2 {A} (g : F * F → A) (pts : list (list F)) :
  Forall (λ pt, 2 ≤ length pt) pts →
  length (omap (λ pt, g <$> first2 pt) pts) = length pts.
Proof.
  induction 1 as [|pt l Hpt _ IHl]; [done|].
  destruct pt as [|p0 [|p1 pt]]; simpl in Hpt; [lia..|].
  change (S (length (omap (λ pt, g <$> first2 pt) l)) = S (length l)). by rewrite IHl.
Qed.

Lemma length_spec_dirichlet_y_head d t (pts : ndarray2 F) :
  tag_passes d (t, pts) →
  length (match d !! t with
          | Some f => omap (λ pt, (λ ab : F * F, reshape_scalar (f ab.1 ab.2)) <$> first2 pt)
                        (rows pts)
          | None => []
          end) = length (rows pts).
Proof.
  intros [H2 Hp]. simpl in *. destruct Hp as [Hnil|[g Hg]].
  - rewrite Hnil. by destruct (d !! t).
  - by rewrite Hg, length_omap_first2.
Qed.

Lemma tags_loop_eq d bp x y :
  Forall (tag_passes d) bp →
  tags_loop d (x, y) bp = Ok (x ++ spec_dirichlet_x bp, y ++ spec_dirichlet_y d bp).
Proof.
  intros Hbp. revert x y. unfold tags_loop.
  induction Hbp as [|[t pts] bp [H2 Hp] _ IH]; intros x y.
  - simpl. by rewrite !app_nil_r.
  - cbn [for_loop]. rewrite spec_dirichlet_x_cons, spec_dirichlet_y_cons. simpl in *.
    destruct Hp as [Hnil|[f Hf]].
    + rewrite Hnil. unfold points_loop at 1. simpl. rewrite IH.
      destruct (d !! t); done.
    + rewrite (points_loop_present_eq d t f) by done. simpl.
      rewrite IH, Hf. by rewrite <- !app_assoc.
Qed.

Lemma tags_loop_Ok_inv d bp xy xy' :
  tags_loop d xy bp = Ok xy' → Forall (tag_passes d) bp.
Proof.
  revert xy. unfold tags_loop. induction bp as [|[t pts] bp IH]; intros xy Hrun.
  - constructor.
  - cbn [for_loop] in Hrun. apply bind_Ok in Hrun as (xy1 & H1 & Hrun). simpl in H1.
    apply points_loop_Ok_inv in H1 as [H2 Hp].
    constructor; [by split|by eapply IH].
Qed.

Lemma length_spec_dirichlet d bp :
  Forall (tag_passes d) bp →
  length (spec_dirichlet_x bp) = length (spec_dirichlet_y d bp)
  ∧ length (spec_dirichlet_x bp) = sum_list_with (λ it, length (rows it.2)) bp.
Proof.
  induction 1 as [|[t pts] bp [H2 Hp] _ [IH1 IH2]]; [done|].
  rewrite spec_dirichlet_x_cons, spec_dirichlet_y_cons. simpl in *.
  rewrite !length_app, <- IH1, IH2, length_omap_first2 by done.
  destruct Hp as [Hnil|[f Hf]].
  - rewrite Hnil. destruct (d !! t); done.
  - by rewrite Hf, length_omap_first2.
Qed.

(** Entry [k] of the values is the function of some tag at entry [k] of
    the coordinates. *)
Lemma spec_dirichlet_parallel d bp k a b :
  Forall (tag_passes d) bp →
  spec_dirichlet_x bp !! k = Some [a; b] →
  ∃ t f, t ∈ bp.*1 ∧ d !! t = Some f
         ∧ spec_dirichlet_y d bp !! k = Some (reshape_scalar (f a b)).
Proof.
  intros Hbp. revert k. induction Hbp as [|[t pts] bp [H2 Hp] Hbp IH]; intros k Hk.
  - done.
  - rewrite spec_dirichlet_x_cons in Hk. rewrite spec_dirichlet_y_cons. simpl in *.
    pose proof (length_omap_first2 (λ ab : F * F, [ab.1; ab.2]) (rows pts) H2) as Hlx.
    destruct (decide (k < length (rows pts))) as [Hlt|Hge].
    + rewrite lookup_app_l in Hk by lia.
      destruct Hp as [Hnil|[f Hf]].
      { rewrite Hnil in Hlt. simpl in Hlt. lia. }
      exists t, f. split; [by left|]. split; [done|].
      rewrite Hf. rewrite lookup_app_l by (by rewrite length_omap_first2).
      clear Hlx Hlt IH. revert k Hk. unfold points_2d in H2.
      induction H2 as [|pt l Hpt _ IHl]; intros k Hk; [done|].
      destruct pt as [|p0 [|p1 pt]]; simpl in Hpt; [lia..|]. simpl in *.
      destruct k as [|k]; simpl in *; [by injection Hk as -> ->|by apply IHl].
    + rewrite lookup_app_r in Hk by lia. rewrite Hlx in Hk.
      destruct (IH _ Hk) as (t' & f & Ht' & Hf & Hy).
      exists t', f. split; [by right|]. split; [done|].
      pose proof (length_spec_dirichlet_y_head d t pts (conj H2 Hp)) as Hly.
      rewrite lookup_app_r by lia. by rewrite Hly.
Qed.

Lemma generate_dirichlet_boundary_data_eq (self : Fespace2D F) :
  Forall (tag_passes (bound_function_dict (args self))) (boundary_points (args self)) →
  generate_dirichlet_boundary_data self
  = Ok ((spec_dirichlet_x (boundary_points (args self)),
         spec_dirichlet_y (bound_function_dict (args self)) (boundary_points (args self))),
        set_total_dirichlet_dofs self
          (Z.of_nat (length (spec_dirichlet_x (boundary_points (args self)))))).
Proof.
  intros Hbp. rewrite generate_dirichlet_boundary_data_loops.
  by rewrite tags_loop_eq.
Qed.

Lemma generate_dirichlet_boundary_data_Ok_inv (self : Fespace2D F) r :
  generate_dirichlet_boundary_data self = Ok r →
  Forall (tag_passes (bound_function_dict (args self))) (boundary_points (args self)).
Proof.
  rewrite generate_dirichlet_boundary_data_loops. intros Hrun.
  apply bind_Ok in Hrun as (xy & Hloop & _). by eapply tags_loop_Ok_inv.
Qed.
End DirichletMore.

Section DirichletMore2.
Context {F : Type} `{Float64 F}.
Implicit Types (d : gmap Z (F → F → F)) (bp : list (Z * ndarray2 F)).

Lemma spec_dirichlet_x_pairs bp k p :
  spec_dirichlet_x bp !! k = Some p → ∃ a b, p = [a; b].
Proof.
  unfold spec_dirichlet_x. intros Hk.
  apply list_elem_of_lookup_2, list_elem_of_bind in Hk as (it & Hp & _).
  apply list_elem_of_omap in Hp as (pt & _ & Hpt).
  destruct pt as [|a [|b pt]]; simplify_eq/=. by exists a, b.
Qed.

Lemma sin_cos_lookup (np_sin : F → F) (np_pi : F) (t : Z) f :
  get_boundary_function_dict np_sin np_pi !! t = Some f →
  (1000 ≤ t ≤ 1003)%Z ∧ ∀ a b, f a b = exact_solution np_sin np_pi a b.
Proof.
  unfold get_boundary_function_dict. intros Hf.
  do 3 (apply lookup_insert_Some in Hf as [[<- <-]|[? Hf]]; [split; [lia|done]|]).
  apply lookup_singleton_Some in Hf as [<- <-]. split; [lia|done].
Qed.

Lemma sin_cos_is_Some (np_sin : F → F) (np_pi : F) (t : Z) :
  (1000 ≤ t ≤ 1003)%Z → is_Some (get_boundary_function_dict np_sin np_pi !! t).
Proof.
  intros Ht. assert (t = 1000 ∨ t = 1001 ∨ t = 1002 ∨ t = 1003)%Z as Hcases by lia.
  destruct Hcases as [Ht'|[Ht'|[Ht'|Ht']]]; subst t; by eexists.
Qed.
End DirichletMore2.

(** * Further properties of the Dirichlet boundary data *)

(** X6: [generate_dirichlet_boundary_data] returns exactly when every
    boundary point has two coordinates and every tag that lists a point has
    an entry in the boundary-function dictionary; otherwise it raises. *)
Theorem X6_dirichlet_extraction_succeeds_iff {F : Type} `{Float64 F}
    (self : Fespace2D F) :
  (∃ r, generate_dirichlet_boundary_data self = Ok r)
  ↔ Forall (tag_passes (bound_function_dict (args self))) (boundary_points (args self)).
Proof.
  split.
  - intros [r Hr]. by eapply generate_dirichlet_boundary_data_Ok_inv.
  - intros Hbp. eexists. by apply generate_dirichlet_boundary_data_eq.
Qed.

(** X7: when it returns, [generate_dirichlet_boundary_data] answers two
    lists of the same length, in the order of the tags and of the points of
    each tag: [x] holds the points cut to their first two coordinates, [y]
    holds at the same position the value of the tag's boundary function at
    that point as a [1 × 1] array; [total_dirichlet_dofs] is set to the
    common length and nothing else of the object changes. *)
Theorem X7_dirichlet_data_parallel {F : Type} `{Float64 F} (self : Fespace2D F) :
  Forall (tag_passes (bound_function_dict (args self))) (boundary_points (args self)) →
  ∃ x y,
    generate_dirichlet_boundary_data self
    = Ok ((x, y), set_total_dirichlet_dofs self (Z.of_nat (length x)))
    ∧ length x = length y
    ∧ x = spec_dirichlet_x (boundary_points (args self))
    ∧ y = spec_dirichlet_y (bound_function_dict (args self)) (boundary_points (args self))
    ∧ (∀ k p, x !! k = Some p → ∃ a b, p = [a; b])
    ∧ (∀ k a b, x !! k = Some [a; b] →
         ∃ t f, t ∈ (boundary_points (args self)).*1
                ∧ bound_function_dict (args self) !! t = Some f
                ∧ y !! k = Some (reshape_scalar (f a b))).
Proof.
  intros Hbp.
  exists (spec_dirichlet_x (boundary_points (args self))),
         (spec_dirichlet_y (bound_function_dict (args self)) (boundary_points (args self))).
  split; [by apply generate_dirichlet_boundary_data_eq|].
  split; [by apply length_spec_dirichlet|].
  do 2 (split; [done|]). split.
  - apply spec_dirichlet_x_pairs.
  - intros k a b Hk. by apply spec_dirichlet_parallel.
Qed.

Lemma X7_dirichlet_data_parallel_witness :
  ∃ x y,
    generate_dirichlet_boundary_data ex_space
    = Ok ((x, y), set_total_dirichlet_dofs ex_space (Z.of_nat (length x)))
    ∧ length x = length y
    ∧ x = spec_dirichlet_x (boundary_points (args ex_space))
    ∧ y = spec_dirichlet_y (bound_function_dict (args ex_space))
            (boundary_points (args ex_space))
    ∧ (∀ k p, x !! k = Some p → ∃ a b, p = [a; b])
    ∧ (∀ k a b, x !! k = Some [a; b] →
         ∃ t f, t ∈ (boundary_points (args ex_space)).*1
                ∧ bound_function_dict (args ex_space) !! t = Some f
                ∧ y !! k = Some (reshape_scalar (f a b))).
Proof.
  apply (X7_dirichlet_data_parallel ex_space).
  repeat (apply Forall_cons_2; [|]); [..|apply Forall_nil_2].
  - split; [repeat constructor|right; by eexists].
  - split; [repeat constructor|right; by eexists].
Defined.

(** X8: with the boundary functions of [sin_cos.py] and boundary tags among
    [1000 .. 1003], the extraction returns, and every Dirichlet value is the
    exact solution of the example at its boundary point. *)
Theorem X8_sin_cos_boundary_data_exact {F : Type} `{Float64 F}
    (np_sin : F → F) (np_pi : F) (self : Fespace2D F) :
  bound_function_dict (args self) = get_boundary_function_dict np_sin np_pi →
  Forall (λ it, points_2d it.2 ∧ (1000 ≤ it.1 ≤ 1003)%Z) (boundary_points (args self)) →
  ∃ x y self',
    generate_dirichlet_boundary_data self = Ok ((x, y), self')
    ∧ length x = length y
    ∧ length x = sum_list_with (λ it, length (rows it.2)) (boundary_points (args self))
    ∧ ∀ k a b, x !! k = Some [a; b] →
        y !! k = Some (reshape_scalar (exact_solution np_sin np_pi a b)).
Proof.
  intros Hd Hbp.
  assert (Forall (tag_passes (bound_function_dict (args self)))
            (boundary_points (args self))) as Hpass.
  { eapply Forall_impl; [exact Hbp|]. intros [t pts] [H2 Ht]. split; [done|].
    right. rewrite Hd. by apply sin_cos_is_Some. }
  eexists _, _, _. split; [by apply generate_dirichlet_boundary_data_eq|].
  split; [by apply length_spec_dirichlet|].
  split; [by eapply length_spec_dirichlet|].
  intros k a b Hk.
  destruct (spec_dirichlet_parallel _ _ k a b Hpass Hk) as (t & f & _ & Hf & ->).
  rewrite Hd in Hf. apply sin_cos_lookup in Hf as [_ Hf]. by rewrite Hf.
Qed.

Lemma X8_sin_cos_boundary_data_exact_witness :
  ∃ x y self',
    generate_dirichlet_boundary_data
      (mk_Fespace2D ex_args_sin_cos 0 0 0 2 [] None) = Ok ((x, y), self')
    ∧ length x = length y
    ∧ length x = sum_list_with (λ it, length (rows it.2))
                   (boundary_points (args (mk_Fespace2D ex_args_sin_cos 0 0 0 2 [] None)))
    ∧ ∀ k a b, x !! k = Some [a; b] →
        y !! k = Some (reshape_scalar (exact_solution ex_np_sin ex_np_pi a b)).
Proof.
  apply (X8_sin_cos_boundary_data_exact ex_np_sin ex_np_pi
           (mk_Fespace2D ex_args_sin_cos 0 0 0 2 [] None)).
  - reflexivity.
  - repeat (apply Forall_cons_2; [|]); [..|apply Forall_nil_2].
    + split; [repeat constructor|simpl; lia].
    + split; [repeat constructor|simpl; lia].
Defined.

Section CellsProofs.
Context {F : Type} `{Float64 F}.
Variable FE2D_Cell_init :
  list Z → string → Z → string → Z → string → string →
  (F → F → F) → (list F → list F → list (list F)) → result (FE2D_Cell F).
Implicit Types (self : Fespace2D F) (a : Fespace2D_args F).

Lemma set_finite_elements_loops self :
  set_finite_elements FE2D_Cell_init self
  = st ← cells_loop FE2D_Cell_init (self, 0%Z) (range 0 (Z.to_nat (n_cells self)));
    _ ← list_getitem (fe_cell st.1) 0;
    Ok (set_total_dofs st.1 st.2).
Proof.
  unfold set_finite_elements, cells_loop.
  destruct (for_loop _ _ _) as [[self1 dof]|e]; done.
Qed.

(** One pass of the loop whose constructor call returns. *)
Lemma cells_loop_cons_Ok self dof i l row c :
  length (fe_cell self) = i →
  cells (args self) !! i = Some row →
  cell_of_row FE2D_Cell_init (args self) row = Ok c →
  cells_loop FE2D_Cell_init (self, dof) (i :: l)
  = cells_loop FE2D_Cell_init
      (set_fe_cell self (fe_cell self ++ [c]),
       (dof + Z.of_nat (shape1 (basis_at_quad c)))%Z) l.
Proof.
  intros Hi Hrow Hc. unfold cells_loop. cbn [for_loop].
  rewrite (list_getitem_lookup _ _ _ Hrow). cbn [mbind result_bind].
  unfold cell_of_row in Hc. rewrite Hc. cbn [mbind result_bind fe_cell set_fe_cell].
  rewrite (list_getitem_lookup _ i c)
    by (by rewrite lookup_app_r, Hi, Nat.sub_diag by lia).
  done.
Qed.

(** One pass of the loop whose constructor call raises. *)
Lemma cells_loop_cons_Raise self dof i l row e :
  cells (args self) !! i = Some row →
  cell_of_row FE2D_Cell_init (args self) row = Raise e →
  cells_loop FE2D_Cell_init (self, dof) (i :: l) = Raise e.
Proof.
  intros Hrow Hc. unfold cells_loop. cbn [for_loop].
  rewrite (list_getitem_lookup _ _ _ Hrow). cbn [mbind result_bind].
  unfold cell_of_row in Hc. by rewrite Hc.
Qed.

(** The passes over rows whose constructor calls return append the cells
    in order and add their numbers of quadrature points. *)
Lemma cells_loop_Ok a self dof pre rws post cs :
  args self = a →
  cells a = pre ++ rws ++ post →
  length (fe_cell self) = length pre →
  Forall2 (λ row c, cell_of_row FE2D_Cell_init a row = Ok c) rws cs →
  cells_loop FE2D_Cell_init (self, dof) (seq (length pre) (length rws))
  = Ok (set_fe_cell self (fe_cell self ++ cs), (dof + sum_quadrature_points cs)%Z).
Proof.
  intros Ha Hcells Hlen Hcs. revert self dof pre Ha Hcells Hlen.
  induction Hcs as [|row c rws cs Hc _ IH]; intros self dof pre Ha Hcells Hlen.
  - simpl. rewrite app_nil_r, Z.add_0_r. by destruct self.
  - cbn [length seq].
    rewrite (cells_loop_cons_Ok self dof (length pre) _ row c); [|done| |by rewrite Ha].
    2:{ rewrite Ha, Hcells. by rewrite lookup_app_r, Nat.sub_diag by lia. }
    replace (S (length pre)) with (length (pre ++ [row]))
      by (rewrite length_app; simpl; lia).
    rewrite IH.
    + cbn [fe_cell set_fe_cell]. rewrite <- app_assoc. cbn [app].
      unfold sum_quadrature_points. cbn [sum_list_with]. do 2 f_equal. lia.
    + done.
    + rewrite Hcells. by rewrite <- app_assoc.
    + cbn [fe_cell set_fe_cell]. rewrite !length_app. simpl. lia.
Qed.

Lemma set_finite_elements_Ok self cs :
  fe_cell self = [] →
  n_cells self = Z.of_nat (length (cells (args self))) →
  cs ≠ [] →
  Forall2 (λ row c, cell_of_row FE2D_Cell_init (args self) row = Ok c)
    (cells (args self)) cs →
  set_finite_elements FE2D_Cell_init self
  = Ok (set_total_dofs (set_fe_cell self cs) (sum_quadrature_points cs)).
Proof.
  intros Hnil Hn Hne Hcs. rewrite set_finite_elements_loops, Hn, Nat2Z.id.
  unfold range. rewrite Nat.sub_0_r.
  assert (length (fe_cell self) = length (@nil (list Z))) as Hl0 by (by rewrite Hnil).
  pose proof (cells_loop_Ok (args self) self 0 [] (cells (args self)) [] cs eq_refl
                (eq_sym (app_nil_r _)) Hl0 Hcs) as Hloop.
  cbn [length] in Hloop. rewrite Hloop.
  cbn [mbind result_bind fst snd]. rewrite Hnil. cbn [app fe_cell set_fe_cell].
  destruct cs as [|c cs]; [done|]. done.
Qed.

(** The first constructor call that raises ends the loop with its
    exception. *)
Lemma set_finite_elements_Raise self pre row post cs e :
  fe_cell self = [] →
  n_cells self = Z.of_nat (length (cells (args self))) →
  cells (args self) = pre ++ row :: post →
  Forall2 (λ row c, cell_of_row FE2D_Cell_init (args self) row = Ok c) pre cs →
  cell_of_row FE2D_Cell_init (args self) row = Raise e →
  set_finite_elements FE2D_Cell_init self = Raise e.
Proof.
  intros Hnil Hn Hcells Hcs He. rewrite set_finite_elements_loops, Hn, Nat2Z.id.
  unfold range. rewrite Nat.sub_0_r, Hcells, length_app. cbn [length].
  rewrite seq_app. unfold cells_loop. rewrite for_loop_app.
  fold (cells_loop FE2D_Cell_init (self, 0%Z) (seq 0 (length pre))).
  assert (length (fe_cell self) = length (@nil (list Z))) as Hl0 by (by rewrite Hnil).
  pose proof (cells_loop_Ok (args self) self 0 [] pre (row :: post) cs eq_refl
                Hcells Hl0 Hcs) as Hloop.
  cbn [length] in Hloop. rewrite Hloop.
  cbn [mbind result_bind seq].
  match goal with |- context [for_loop ?b ?s (?i :: ?l)] =>
    change (for_loop b s (i :: l)) with (cells_loop FE2D_Cell_init s (i :: l)) end.
  rewrite (cells_loop_cons_Raise _ _ _ _ row e); [done| |done].
  cbn [args set_fe_cell]. rewrite Hcells. by rewrite lookup_app_r, Nat.sub_diag by lia.
Qed.

Lemma set_finite_elements_empty self :
  n_cells self = 0%Z → fe_cell self = [] →
  set_finite_elements FE2D_Cell_init self = Raise (IndexError list_index_msg).
Proof.
  intros Hn Hnil. rewrite set_finite_elements_loops, Hn. simpl. by rewrite Hnil.
Qed.

(** When the loop returns, every cell is what the constructor answers on
    its row. *)
Lemma set_finite_elements_cells self self' :
  set_finite_elements FE2D_Cell_init self = Ok self' →
  fe_cell self = [] →
  n_cells self = Z.of_nat (length (cells (args self))) →
  Forall2 (λ row c, cell_of_row FE2D_Cell_init (args self) row = Ok c)
    (cells (args self)) (fe_cell self').
Proof.
  unfold set_finite_elements, range. rewrite Nat.sub_0_r. intros Hrun Hnil Hn.
  apply bind_Ok in Hrun as ([self1 dof] & Hloop & Hrun).
  apply bind_Ok in Hrun as (c0 & Hc0 & Hrun). injection Hrun as <-.
  apply (for_loop_seq_post
    (λ i (st : Fespace2D F * Z),
       args st.1 = args self
       ∧ Forall2 (λ row c, cell_of_row FE2D_Cell_init (args self) row = Ok c)
           (take i (cells (args self))) (fe_cell st.1))) in Hloop.
  - simpl in Hloop. destruct Hloop as [_ Hall].
    by rewrite Hn, Nat2Z.id, take_ge in Hall by lia.
  - simpl. by rewrite Hnil.
  - intros i [s d] [s1 d1] [_ Hi] [Ha Hall] Hbody. simpl in *.
    rewrite Hn, Nat2Z.id in Hi.
    destruct (lookup_lt_is_Some_2 (cells (args self)) i) as [row Hrow]; [lia|].
    rewrite Ha, (list_getitem_lookup _ _ _ Hrow) in Hbody. simpl in Hbody.
    apply bind_Ok in Hbody as (c & Hc & Hbody).
    apply bind_Ok in Hbody as (ci & _ & Hbody).
    injection Hbody as <- <-. simpl. split; [done|].
    rewrite (take_S_r _ _ _ Hrow). apply Forall2_app; [done|].
    by apply Forall2_cons_2.
Qed.

Lemma generate_plot_fe_cell self self' :
  generate_plot self = Ok self' → fe_cell self' = fe_cell self.
Proof.
  unfold generate_plot. intros Hrun.
  apply bind_Ok in Hrun as (? & _ & Hrun).
  apply bind_Ok in Hrun as (? & _ & Hrun). by injection Hrun as <-.
Qed.

Lemma Fespace2D_init_not_triangle a :
  cell_type a ≠ "triangle" →
  Fespace2D_init FE2D_Cell_init a
  = (self ← set_finite_elements FE2D_Cell_init
              (mk_Fespace2D a 0%Z 0%Z 0%Z (Z.of_nat (length (cells a))) [] None);
     self ← (if generate_mesh_plot a then generate_plot self else Ok self);
     r ← generate_dirichlet_boundary_data self;
     Ok (set_dirichlet_boundary_data r.2 r.1)).
Proof.
  intros Ht. unfold Fespace2D_init.
  by destruct (String.eqb_spec (cell_type a) "triangle").
Qed.
End CellsProofs.

(** * Further properties of the construction *)

(** X9: when [__init__] returns, the cells of the space are, in the order of
    the rows of [cells], what the constructor [FE2D_Cell] answers on each
    row with the configuration and the forcing function of the space; there
    is at least one, and the cell type is not ["triangle"]. *)
Theorem X9_cells_built_in_order {F : Type} `{Float64 F}
    (FE2D_Cell_init :
       list Z → string → Z → string → Z → string → string →
       (F → F → F) → (list F → list F → list (list F)) → result (FE2D_Cell F))
    (a : Fespace2D_args F) (self : Fespace2D F) :
  Fespace2D_init FE2D_Cell_init a = Ok self →
  Forall2 (λ row c, cell_of_row FE2D_Cell_init a row = Ok c) (cells a) (fe_cell self)
  ∧ cells a ≠ []
  ∧ cell_type a ≠ "triangle".
Proof.
  intros Hinit.
  assert (cell_type a ≠ "triangle") as Ht.
  { intros Ht. unfold Fespace2D_init in Hinit. by rewrite Ht in Hinit. }
  apply Fespace2D_init_Ok in Hinit as (self1 & self2 & self3 & data & H1 & H2 & H3 & ->).
  pose proof (set_finite_elements_cells _ _ _ H1 eq_refl eq_refl) as Hcells.
  apply set_finite_elements_post in H1 as (_ & _ & _ & _ & Hne & _); [|done].
  apply generate_dirichlet_boundary_data_post in H3 as (_ & _ & Hc3 & _).
  simpl in *. rewrite Hc3.
  assert (fe_cell self2 = fe_cell self1) as ->.
  { destruct (generate_mesh_plot a).
    - by apply generate_plot_fe_cell in H2.
    - by injection H2 as <-. }
  split; [done|]. split; [|done].
  intros Hnil. rewrite Hnil in Hcells. by apply Forall2_nil_inv_l in Hcells.
Qed.

Lemma X9_cells_built_in_order_witness :
  Forall2 (λ row c, cell_of_row ex_FE2D_Cell_init
                      (ex_args ex_boundary_points ex_bound_function_dict true) row = Ok c)
    (cells (ex_args ex_boundary_points ex_bound_function_dict true)) (fe_cell ex_space)
  ∧ cells (ex_args ex_boundary_points ex_bound_function_dict true) ≠ []
  ∧ cell_type (ex_args ex_boundary_points ex_bound_function_dict true) ≠ "triangle".
Proof.
  apply (X9_cells_built_in_order ex_FE2D_Cell_init
           (ex_args ex_boundary_points ex_bound_function_dict true) ex_space).
  vm_compute. reflexivity.
Defined.

(** X10: a mesh without cells is refused: for a cell type other than
    ["triangle"] and an empty [cells], [__init__] raises the [IndexError] of
    [self.fe_cell[0]], whatever the boundary data. *)
Theorem X10_empty_mesh_refused {F : Type} `{Float64 F}
    (FE2D_Cell_init :
       list Z → string → Z → string → Z → string → string →
       (F → F → F) → (list F → list F → list (list F)) → result (FE2D_Cell F))
    (a : Fespace2D_args F) :
  cell_type a ≠ "triangle" →
  cells a = [] →
  Fespace2D_init FE2D_Cell_init a = Raise (IndexError list_index_msg).
Proof.
  intros Ht Hnil. rewrite Fespace2D_init_not_triangle by done.
  rewrite set_finite_elements_empty; [done| |done]. simpl. by rewrite Hnil.
Qed.

Lemma X10_empty_mesh_refused_witness :
  Fespace2D_init ex_FE2D_Cell_init ex_args_no_cells = Raise (IndexError list_index_msg).
Proof.
  apply (X10_empty_mesh_refused ex_FE2D_Cell_init ex_args_no_cells).
  - discriminate.
  - reflexivity.
Defined.

(** X11: the exception of the first row of [cells] on which the constructor
    [FE2D_Cell] raises is the exception of [__init__]: the rows before it
    are built, no row after it is tried, and neither the plot nor the
    boundary data is reached. *)
Theorem X11_first_failing_cell_propagates {F : Type} `{Float64 F}
    (FE2D_Cell_init :
       list Z → string → Z → string → Z → string → string →
       (F → F → F) → (list F → list F → list (list F)) → result (FE2D_Cell F))
    (a : Fespace2D_args F) (pre post : list (list Z)) (row : list Z)
    (cs : list (FE2D_Cell F)) (e : exn) :
  cell_type a ≠ "triangle" →
  cells a = pre ++ row :: post →
  Forall2 (λ row c, cell_of_row FE2D_Cell_init a row = Ok c) pre cs →
  cell_of_row FE2D_Cell_init a row = Raise e →
  Fespace2D_init FE2D_Cell_init a = Raise e.
Proof.
  intros Ht Hcells Hcs He. rewrite Fespace2D_init_not_triangle by done.
  by rewrite (set_finite_elements_Raise FE2D_Cell_init _ pre row post cs e).
Qed.

Lemma X11_first_failing_cell_propagates_witness :
  Fespace2D_init ex_FE2D_Cell_init_strict ex_args_short_row
  = Raise (ValueError "a quadrilateral has four vertices").
Proof.
  apply (X11_first_failing_cell_propagates ex_FE2D_Cell_init_strict ex_args_short_row
           [[0; 1; 2; 3]%Z] [[1; 4; 5; 2]%Z] [1; 4; 5]%Z [ex_cell0]
           (ValueError "a quadrilateral has four vertices")).
  - discriminate.
  - reflexivity.
  - apply Forall2_cons_2; [vm_compute; reflexivity|apply Forall2_nil_2].
  - reflexivity.
Defined.

(** X12: without the plot, [__init__] returns whenever the cell type is not
    ["triangle"], there is a cell, the constructor answers on every row and
    every boundary tag passes, and the object is then: the cells in the
    order of the rows, [n_cells] their number, [total_dofs] the sum of their
    numbers of quadrature points, [total_boundary_dofs] left at [0],
    [total_dirichlet_dofs] the number of boundary points, and the boundary
    data of the tags in their order. *)
Theorem X12_init_without_plot {F : Type} `{Float64 F}
    (FE2D_Cell_init :
       list Z → string → Z → string → Z → string → string →
       (F → F → F) → (list F → list F → list (list F)) → result (FE2D_Cell F))
    (a : Fespace2D_args F) (cs : list (FE2D_Cell F)) :
  cell_type a ≠ "triangle" →
  generate_mesh_plot a = false →
  cells a ≠ [] →
  Forall2 (λ row c, cell_of_row FE2D_Cell_init a row = Ok c) (cells a) cs →
  Forall (tag_passes (bound_function_dict a)) (boundary_points a) →
  Fespace2D_init FE2D_Cell_init a
  = Ok (mk_Fespace2D a (sum_quadrature_points cs) 0
          (sum_boundary_points (boundary_points a))
          (Z.of_nat (length (cells a))) cs
          (Some (spec_dirichlet_x (boundary_points a),
                 spec_dirichlet_y (bound_function_dict a) (boundary_points a)))).
Proof.
  intros Ht Hplot Hne Hcs Hbp. rewrite Fespace2D_init_not_triangle by done.
  rewrite (set_finite_elements_Ok FE2D_Cell_init _ cs); [|done|done| |done].
  2:{ intros ->. apply Forall2_nil_inv_r in Hcs. done. }
  rewrite Hplot. cbn [mbind result_bind].
  rewrite generate_dirichlet_boundary_data_eq by done.
  cbn [mbind result_bind]. unfold sum_boundary_points.
  by rewrite <- (proj2 (length_spec_dirichlet (bound_function_dict a) _ Hbp)).
Qed.

Lemma X12_init_without_plot_witness :
  Fespace2D_init ex_FE2D_Cell_init (ex_args ex_boundary_points ex_bound_function_dict false)
  = Ok (mk_Fespace2D (ex_args ex_boundary_points ex_bound_function_dict false)
          (sum_quadrature_points [ex_cell0; ex_cell1]) 0
          (sum_boundary_points
             (boundary_points (ex_args ex_boundary_points ex_bound_function_dict false)))
          (Z.of_nat (length (cells (ex_args ex_boundary_points ex_bound_function_dict false))))
          [ex_cell0; ex_cell1]
          (Some (spec_dirichlet_x
                   (boundary_points (ex_args ex_boundary_points ex_bound_function_dict false)),
                 spec_dirichlet_y
                   (bound_function_dict (ex_args ex_boundary_points ex_bound_function_dict false))
                   (boundary_points (ex_args ex_boundary_points ex_bound_function_dict false))))).
Proof.
  apply (X12_init_without_plot ex_FE2D_Cell_init
           (ex_args ex_boundary_points ex_bound_function_dict false) [ex_cell0; ex_cell1]).
  - discriminate.
  - reflexivity.
  - discriminate.
  - repeat (apply Forall2_cons_2; [|]); [..|apply Forall2_nil_2]; vm_compute; reflexivity.
  - repeat (apply Forall_cons_2; [|]); [..|apply Forall_nil_2].
    + split; [repeat constructor|right; by eexists].
    + split; [repeat constructor|right; by eexists].
Defined.

Section EnumerateLoops.
Context {St A : Type}.

(** The invariant rule for [for i, x in enumerate(l)]. *)
Lemma for_loop_enumerate_inv (Inv : nat → St → Prop)
    (body : St → Z * A → result St) s (l : list A) k :
  Inv k s →
  (∀ i x s, l !! (i - k) = Some x → k ≤ i → Inv i s →
     ∃ s', body s (Z.of_nat i, x) = Ok s' ∧ Inv (S i) s') →
  ∃ s', for_loop body s (zip (Z.of_nat <$> seq k (length l)) l) = Ok s'
        ∧ Inv (k + length l) s'.
Proof.
  revert k s. induction l as [|x l IH]; intros k s H0 Hstep.
  - exists s. simpl. by rewrite Nat.add_0_r.
  - cbn [length seq fmap list_fmap zip zip_with for_loop].
    destruct (Hstep k x s) as (s1 & -> & H1); [by rewrite Nat.sub_diag|lia|done|].
    cbn [mbind result_bind].
    destruct (IH (S k) s1 H1) as (s' & Hs' & HInv).
    + intros i y s2 Hy Hi. apply Hstep; [|lia].
      replace (i - k) with (S (i - S k)) by lia. done.
    + exists s'. split; [done|]. by replace (k + S (length l)) with (S k + length l) by lia.
Qed.

(** A loop raises when it meets an item on which its body always
    raises. *)
Lemma for_loop_Exists_raises {I} (body : St → I → result St) s (l : list I) :
  Exists (λ i, ∀ s, ∃ e, body s i = Raise e) l → ∃ e, for_loop body s l = Raise e.
Proof.
  intros Hex. revert s. induction Hex as [i l Hi|i l _ IH]; intros s; simpl.
  - destruct (Hi s) as [e ->]. by exists e.
  - destruct (body s i) as [s1|e]; simpl; [apply IH|by exists e].
Qed.

Lemma elem_of_enumerate (l : list A) i x :
  l !! i = Some x → (Z.of_nat i, x) ∈ enumerate l.
Proof.
  intros Hx. apply (list_elem_of_lookup_2 _ i). unfold enumerate.
  pose proof (lookup_lt_Some _ _ _ Hx).
  rewrite lookup_zip_with. rewrite list_lookup_fmap. rewrite lookup_seq_lt by done.
  simpl. by rewrite Hx.
Qed.
End EnumerateLoops.

Section PlotProofs.
Context {F : Type} `{Float64 F}.
Variable FE2D_Cell_init :
  list Z → string → Z → string → Z → string → string →
  (F → F → F) → (list F → list F → list (list F)) → result (FE2D_Cell F).

Lemma getcol_wf (a : ndarray2 F) j :
  wf_ndarray2 a → j < shape1 a → ∃ x, getcol a j = Ok x ∧ length x = shape0 a.
Proof.
  intros Hwf Hj. destruct (getcol a j) as [x|e] eqn:Hx.
  - exists x. split; [done|]. by eapply getcol_length.
  - unfold getcol in Hx. by destruct (Nat.ltb_spec j (shape1 a)); [|lia].
Qed.

Lemma vec_getitem_0 (x : list F) : 1 ≤ length x → ∃ x0, vec_getitem x 0 = Ok x0.
Proof. destruct x as [|x0 x]; simpl; [lia|]. by exists x0. Qed.

(** A sixteenth tag has no marker, and a tag without points has no first
    point. *)
Lemma generate_plot_Raise (self : Fespace2D F) :
  15 < length (boundary_points (args self))
  ∨ Exists (λ it, rows it.2 = []) (boundary_points (args self)) →
  ∃ e, generate_plot self = Raise e.
Proof.
  intros Hbad. unfold generate_plot.
  destruct (for_loop _ 0%Z (range 0 _)) as [t1|e]; [|by exists e].
  cbn [mbind result_bind args set_total_dofs].
  match goal with |- context [for_loop ?b 0%Z (enumerate ?l)] =>
    destruct (for_loop_Exists_raises b 0%Z (enumerate l)) as [e ->] end;
    [|by exists e].
  apply Exists_exists. destruct Hbad as [H15|Hempty].
  - destruct (lookup_lt_is_Some_2 (boundary_points (args self)) 15) as [[t pts] Hit];
      [lia|].
    exists (15%Z, (t, pts)). split; [by apply (elem_of_enumerate _ 15)|].
    intros s.
    destruct (getcol pts 0) as [x|e]; [|by exists e]. cbn [mbind result_bind].
    destruct (getcol pts 1) as [y|e]; [|by exists e]. cbn [mbind result_bind].
    destruct (vec_getitem x 0) as [x0|e]; [|by exists e]. cbn [mbind result_bind].
    destruct (vec_getitem y 0) as [y0|e]; [|by exists e]. cbn [mbind result_bind].
    by eexists.
  - apply Exists_exists in Hempty as ([t pts] & Hin & Hrows). simpl in Hrows.
    apply list_elem_of_lookup in Hin as [i Hit].
    exists (Z.of_nat i, (t, pts)). split; [by apply elem_of_enumerate|].
    intros s. unfold getcol. rewrite Hrows.
    destruct (0 <? shape1 pts); [|by eexists]. cbn [mbind result_bind].
    destruct (1 <? shape1 pts); [|by eexists]. by eexists.
Qed.
End PlotProofs.

(** * Further properties of the plot *)

(** X13: on a space whose cells have at least one vertex and two columns of
    vertices and of quadrature points, with at most fifteen boundary tags,
    each listing at least one point with two columns, [generate_plot]
    (its drawing calls aside) returns: it sets [total_dofs] to the sum over
    the cells of the rows of [quad_actual_coordinates] and
    [total_boundary_dofs] to the sum over the tags of the number of points
    plus one (the first point is counted again), and changes nothing
    else. *)
Theorem X13_plot_counters {F : Type} `{Float64 F} (self : Fespace2D F) :
  cells_counted self →
  Forall plot_cell (fe_cell self) →
  Forall plot_tag (boundary_points (args self)) →
  length (boundary_points (args self)) ≤ 15 →
  generate_plot self
  = Ok (set_total_boundary_dofs
          (set_total_dofs self (sum_quadrature_rows (fe_cell self)))
          (sum_plotted_points (boundary_points (args self)))).
Proof.
  unfold cells_counted. intros Hn Hcells Htags H15.
  unfold generate_plot, range, enumerate. rewrite Nat.sub_0_r, Hn, Nat2Z.id.
  match goal with |- context [for_loop ?b 0%Z (seq 0 ?n)] =>
    destruct (for_loop_seq_inv
      (λ i (t : Z), t = sum_quadrature_rows (take i (fe_cell self))) b 0%Z 0 n)
      as (t1 & -> & Ht1) end.
  { done. }
  { intros i t [_ Hi] ->. simpl in Hi.
    destruct (lookup_lt_is_Some_2 (fe_cell self) i) as [c Hc]; [lia|].
    rewrite (list_getitem_lookup _ _ _ Hc). cbn [mbind result_bind].
    destruct (Forall_lookup_1 _ _ _ _ Hcells Hc) as (Hwc & Hc0 & Hc1 & Hwq & Hq1).
    destruct (getcol_wf _ 0 Hwc) as (x & -> & Hx); [lia|].
    destruct (getcol_wf _ 1 Hwc) as (y & -> & Hy); [lia|].
    cbn [mbind result_bind].
    destruct (vec_getitem_0 x) as (x0 & ->); [lia|].
    destruct (vec_getitem_0 y) as (y0 & ->); [lia|].
    destruct (getcol_wf _ 0 Hwq) as (xq & -> & Hxq); [lia|].
    destruct (getcol_wf _ 1 Hwq) as (yq & -> & Hyq); [lia|].
    cbn [mbind result_bind]. eexists. split; [done|].
    rewrite (take_S_r _ _ _ Hc). unfold sum_quadrature_rows.
    rewrite sum_list_with_app. simpl. lia. }
  cbn [mbind result_bind]. simpl in Ht1. rewrite take_ge in Ht1 by lia. subst t1.
  cbn [args set_total_dofs].
  match goal with |- context [for_loop ?b 0%Z (zip _ ?l)] =>
    destruct (for_loop_enumerate_inv
      (λ i (t : Z), t = sum_plotted_points (take i l)) b 0%Z l 0)
      as (t2 & -> & Ht2) end.
  { done. }
  { intros i [t pts] s Hit _ ->. rewrite Nat.sub_0_r in Hit.
    pose proof (lookup_lt_Some _ _ _ Hit) as Hi.
    destruct (Forall_lookup_1 _ _ _ _ Htags Hit) as (Hw & Hp0 & Hp1). simpl in *.
    destruct (getcol_wf _ 0 Hw) as (x & -> & Hx); [lia|].
    destruct (getcol_wf _ 1 Hw) as (y & -> & Hy); [lia|].
    cbn [mbind result_bind].
    destruct (vec_getitem_0 x) as (x0 & ->); [lia|].
    destruct (vec_getitem_0 y) as (y0 & ->); [lia|].
    cbn [mbind result_bind].
    destruct (list_getitem_nonneg marker_list (Z.of_nat i + 1)) as (m & _ & ->).
    { simpl. lia. }
    cbn [mbind result_bind]. eexists. split; [done|].
    rewrite (take_S_r _ _ _ Hit). unfold sum_plotted_points.
    rewrite sum_list_with_app, length_app. destruct Hw as [Hl _]. simpl in *. lia. }
  cbn [mbind result_bind]. simpl in Ht2. rewrite take_ge in Ht2 by lia. by subst t2.
Qed.

Lemma X13_plot_counters_witness :
  generate_plot ex_space
  = Ok (set_total_boundary_dofs
          (set_total_dofs ex_space (sum_quadrature_rows (fe_cell ex_space)))
          (sum_plotted_points (boundary_points (args ex_space)))).
Proof.
  apply (X13_plot_counters ex_space).
  - reflexivity.
  - repeat (apply Forall_cons_2; [|]); [..|apply Forall_nil_2];
      (split; [split; [reflexivity|repeat constructor]|]);
      (split; [simpl; lia|]); (split; [simpl; lia|]);
      (split; [split; [reflexivity|repeat constructor]|simpl; lia]).
  - repeat (apply Forall_cons_2; [|]); [..|apply Forall_nil_2];
      (split; [split; [reflexivity|repeat constructor]|simpl; lia]).
  - simpl. lia.
Defined.

(** X14: [generate_plot] has sixteen markers and skips the first: with more
    than fifteen boundary tags, or with a tag that lists no point, it
    raises, and so does [__init__] when the plot is asked for (without the
    plot a tag that lists no point is accepted). *)
Theorem X14_plot_refuses {F : Type} `{Float64 F}
    (FE2D_Cell_init :
       list Z → string → Z → string → Z → string → string →
       (F → F → F) → (list F → list F → list (list F)) → result (FE2D_Cell F))
    (a : Fespace2D_args F) :
  15 < length (boundary_points a) ∨ Exists (λ it, rows it.2 = []) (boundary_points a) →
  (∀ self, args self = a → ∃ e, generate_plot self = Raise e)
  ∧ (generate_mesh_plot a = true → ∃ e, Fespace2D_init FE2D_Cell_init a = Raise e).
Proof.
  intros Hbad. split.
  - intros self <-. by apply generate_plot_Raise.
  - intros Hplot. unfold Fespace2D_init.
    destruct (String.eqb _ _); [by eexists|].
    destruct (set_finite_elements _ _) as [self1|e] eqn:H1; simpl; [|by eexists].
    apply set_finite_elements_post in H1 as (Ha1 & _); [|done]. simpl in Ha1.
    rewrite Hplot. destruct (generate_plot_Raise self1) as [e ->]; [by rewrite Ha1|].
    by exists e.
Qed.

Lemma X14_plot_refuses_witness :
  (∀ self, args self = ex_args [(1000%Z, mk_ndarray2 0 2 [])] ∅ true →
     ∃ e, generate_plot self = Raise e)
  ∧ (generate_mesh_plot (ex_args [(1000%Z, mk_ndarray2 0 2 [])] ∅ true) = true →
     ∃ e, Fespace2D_init ex_FE2D_Cell_init
            (ex_args [(1000%Z, mk_ndarray2 0 2 [])] ∅ true) = Raise e).
Proof.
  apply (X14_plot_refuses ex_FE2D_Cell_init (ex_args [(1000%Z, mk_ndarray2 0 2 [])] ∅ true)).
  right. apply Exists_cons_hd. reflexivity.
Defined.

Section ForcingMore.
Context {F : Type} `{Float64 F}.
Variable np_sum : list F → F.
Implicit Types (self : Fespace2D F) (c : Z).

(** Reading a list after one position was assigned. *)
Lemma list_getitem_insert {A} (l : list A) k (x x' : A) i :
  l !! k = Some x →
  list_getitem (<[k := x']> l) i = list_getitem l i
  ∨ (list_getitem l i = Ok x ∧ list_getitem (<[k := x']> l) i = Ok x').
Proof.
  intros Hk. pose proof (lookup_lt_Some _ _ _ Hk) as Hlt.
  unfold list_getitem, list_position. rewrite length_insert.
  destruct (_ && _)%bool; simpl; [|by left].
  match goal with |- context [l !! ?p] => destruct (decide (p = k)) as [->|Hne] end.
  - right. by rewrite Hk, list_lookup_insert_eq.
  - left. by rewrite list_lookup_insert_ne.
Qed.

(** Assigning [forcing_at_quad] in one cell changes no answer of the
    array accessors. *)
Lemma store_forcing_at_quad_frame self c v self' :
  store_forcing_at_quad self c v = Ok self' →
  args self' = args self ∧ n_cells self' = n_cells self
  ∧ total_dofs self' = total_dofs self
  ∧ total_boundary_dofs self' = total_boundary_dofs self
  ∧ total_dirichlet_dofs self' = total_dirichlet_dofs self
  ∧ dirichlet_boundary_data self' = dirichlet_boundary_data self
  ∧ length (fe_cell self') = length (fe_cell self)
  ∧ Forall (λ gf, ∀ c', gf.1 self' c' = gf.1 self c') array_accessors.
Proof.
  unfold store_forcing_at_quad. intros Hs.
  apply bind_Ok in Hs as (k & _ & Hs).
  destruct (fe_cell self !! k) as [cell|] eqn:Hk; [|done]. injection Hs as <-.
  cbn [args n_cells total_dofs total_boundary_dofs total_dirichlet_dofs
       dirichlet_boundary_data fe_cell set_fe_cell].
  do 6 (split; [done|]). split; [by rewrite length_insert|].
  repeat (apply Forall_cons_2; [|]); [..|apply Forall_nil_2]; simpl; intros c';
    autounfold with accessors; cbn [n_cells fe_cell set_fe_cell];
    (destruct (Z.ltb_spec (n_cells self) c'); [done|]);
    (destruct (list_getitem_insert (fe_cell self) k cell (set_forcing_at_quad cell v) c' Hk)
       as [->|[-> ->]]; done).
Qed.

Lemma forcing_accessors_frame self c component a self' :
  Forall (λ g, g self c = Ok (a, self') →
      args self' = args self ∧ n_cells self' = n_cells self
      ∧ total_dofs self' = total_dofs self
      ∧ total_boundary_dofs self' = total_boundary_dofs self
      ∧ total_dirichlet_dofs self' = total_dirichlet_dofs self
      ∧ dirichlet_boundary_data self' = dirichlet_boundary_data self
      ∧ length (fe_cell self') = length (fe_cell self)
      ∧ Forall (λ gf, ∀ c', gf.1 self' c' = gf.1 self c') array_accessors)
    (forcing_accessors np_sum component).
Proof.
  repeat (apply Forall_cons_2; [|]); [..|apply Forall_nil_2]; simpl;
    autounfold with accessors; (destruct (Z.ltb_spec (n_cells self) c); [done|]);
    intros Hrun.
  - apply bind_Ok in Hrun as (cell & _ & Hrun).
    apply bind_Ok in Hrun as (f_integral & _ & Hrun).
    apply bind_Ok in Hrun as (self1 & Hstore & Hrun).
    apply bind_Ok in Hrun as (cell1 & _ & Hrun). injection Hrun as _ <-.
    by eapply store_forcing_at_quad_frame.
  - apply bind_Ok in Hrun as (cell & _ & Hrun).
    apply bind_Ok in Hrun as (x & _ & Hrun).
    apply bind_Ok in Hrun as (y & _ & Hrun).
    apply bind_Ok in Hrun as (fv & _ & Hrun).
    apply bind_Ok in Hrun as (prod & _ & Hrun).
    apply bind_Ok in Hrun as (self1 & Hstore & Hrun).
    apply bind_Ok in Hrun as (cell1 & _ & Hrun). injection Hrun as _ <-.
    by eapply store_forcing_at_quad_frame.
Qed.

(** An entry of the stacked matrix. *)
Lemma stacked_getitem2 N self i j cell :
  Forall (forcing_column N) (fe_cell self) →
  i < N → fe_cell self !! j = Some cell →
  getitem2
    (mk_ndarray2 N (length (fe_cell self))
       ((λ i, (λ j, getitem3 (mk_ndarray3 (length (fe_cell self), N, 1)
                                (rows <$> (forcing_at_quad <$> fe_cell self))) j i 0)
                <$> seq 0 (length (fe_cell self))) <$> seq 0 N)) i j
  = getitem2 (forcing_at_quad cell) i 0.
Proof.
  intros Hcol Hi Hj. pose proof (lookup_lt_Some _ _ _ Hj) as Hjl.
  destruct (Forall_lookup_1 _ _ _ _ Hcol Hj) as (Hwf & H0 & H1).
  rewrite (getitem2_entry (forcing_at_quad cell)) by (done || lia).
  eapply getitem2_lookup; cbn [shape0 shape1 rows]; [done|done| |].
  + rewrite list_lookup_fmap, lookup_seq_lt by done. reflexivity.
  + rewrite list_lookup_fmap, lookup_seq_lt by done. simpl.
    unfold getitem3, entry. simpl. by rewrite !list_lookup_fmap, Hj.
Qed.

Lemma spec_forcing_integral_column (cell : FE2D_Cell F) v :
  forcing_column (num_shape_functions (basis_function cell))
    (set_forcing_at_quad v (spec_forcing_integral cell)).
Proof.
  unfold forcing_column, wf_ndarray2, spec_forcing_integral.
  cbn [forcing_at_quad set_forcing_at_quad shape0 shape1 rows].
  split; [|done]. split; [by rewrite length_fmap, length_seq|].
  rewrite Forall_fmap. by apply Forall_forall.
Qed.

Lemma spec_forcing_integral_getitem2 (cell : FE2D_Cell F) i :
  i < num_shape_functions (basis_function cell) →
  getitem2 (spec_forcing_integral cell) i 0 = Ok (spec_forcing_sum cell i).
Proof.
  intros Hi. eapply getitem2_lookup; cbn [shape0 shape1 rows spec_forcing_integral].
  - done.
  - lia.
  - rewrite list_lookup_fmap, lookup_seq_lt by done. reflexivity.
  - done.
Qed.

End ForcingMore.

(** * Further properties of the accessors and of the forcing integrals *)

(** X15: computing the forcing integral of one cell and then stacking: after
    [get_forcing_function_values] on a valid cell index [ci], column [ci]
    of the matrix of [get_forcing_data_for_training] holds the sums
    [Σ_q basis_at_quad[i, q] * forcing(x_q, y_q)] of that cell, whatever the
    cell held before, and the other columns hold what the other cells held.
    (The other cells hold columns of [N] entries, [N] being the number of
    shape functions of cell [ci].) *)
Theorem X15_forcing_update_then_stack {F : Type} `{Float64 F} (N : nat)
    (self : Fespace2D F) (ci : Z) (cell : FE2D_Cell F) :
  cells_counted self →
  (0 ≤ ci < n_cells self)%Z →
  fe_cell self !! Z.to_nat ci = Some cell →
  cell_record_shapes cell →
  num_shape_functions (basis_function cell) = N →
  (∀ j c, j ≠ Z.to_nat ci → fe_cell self !! j = Some c → forcing_column N c) →
  ∃ a self' M,
    get_forcing_function_values self ci = Ok (a, self')
    ∧ get_forcing_data_for_training self' = Ok M
    ∧ shape0 M = N ∧ shape1 M = length (fe_cell self)
    ∧ (∀ i, i < N → getitem2 M i (Z.to_nat ci) = Ok (spec_forcing_sum cell i))
    ∧ (∀ i j c, i < N → j ≠ Z.to_nat ci → fe_cell self !! j = Some c →
         getitem2 M i j = getitem2 (forcing_at_quad c) i 0).
Proof.
  intros Hn Hci Hcell Hshapes HN Hothers.
  pose proof (forcing_integral_spec cell Hshapes) as Ha.
  pose proof (lookup_lt_Some _ _ _ Hcell) as Hlt.
  set (cell' := set_forcing_at_quad cell (spec_forcing_integral cell)).
  set (self' := set_fe_cell self (<[Z.to_nat ci := cell']> (fe_cell self))).
  assert (cells_counted self') as Hn'.
  { unfold cells_counted, self'. simpl. by rewrite length_insert. }
  assert (fe_cell self' ≠ []) as Hne'.
  { intros Hnil. apply (f_equal length) in Hnil. unfold self' in Hnil. simpl in Hnil.
    rewrite length_insert in Hnil. lia. }
  assert (Forall (forcing_column N) (fe_cell self')) as Hcol'.
  { apply Forall_lookup_2. intros j c Hj. unfold self' in Hj. simpl in Hj.
    destruct (decide (j = Z.to_nat ci)) as [->|Hne].
    - rewrite list_lookup_insert_eq in Hj by done. injection Hj as <-.
      rewrite <- HN. apply spec_forcing_integral_column.
    - rewrite list_lookup_insert_ne in Hj by done. by eapply Hothers. }
  exists (spec_forcing_integral cell), self'. eexists.
  split; [by apply get_forcing_function_values_valid|].
  split; [by apply (get_forcing_data_for_training_rows N)|].
  cbn [shape0 shape1]. split; [done|].
  split; [unfold self'; simpl; by rewrite length_insert|]. split.
  - intros i Hi. rewrite (stacked_getitem2 N self' i (Z.to_nat ci) cell') by
      (done || unfold self'; simpl; by rewrite list_lookup_insert_eq).
    unfold cell'. cbn [forcing_at_quad set_forcing_at_quad].
    apply spec_forcing_integral_getitem2. by rewrite HN.
  - intros i j c Hi Hj Hc. apply stacked_getitem2; [done|done|].
    unfold self'. simpl. by rewrite list_lookup_insert_ne.
Qed.

Lemma X15_forcing_update_then_stack_witness :
  ∃ a self' M,
    get_forcing_function_values ex_space 1 = Ok (a, self')
    ∧ get_forcing_data_for_training self' = Ok M
    ∧ shape0 M = 1 ∧ shape1 M = length (fe_cell ex_space)
    ∧ (∀ i, i < 1 → getitem2 M i (Z.to_nat 1) = Ok (spec_forcing_sum ex_cell1 i))
    ∧ (∀ i j c, i < 1 → j ≠ Z.to_nat 1 → fe_cell ex_space !! j = Some c →
         getitem2 M i j = getitem2 (forcing_at_quad c) i 0).
Proof.
  apply (X15_forcing_update_then_stack 1 ex_space 1 ex_cell1).
  - reflexivity.
  - simpl. lia.
  - reflexivity.
  - unfold cell_record_shapes, wf_ndarray2. simpl. repeat constructor.
  - reflexivity.
  - intros [|[|j]] c Hj Hc; simpl in *; [|lia|done].
    injection Hc as <-. unfold forcing_column, wf_ndarray2. simpl. repeat constructor.
Defined.

(** X16: a forcing accessor that returns changes only [forcing_at_quad] of
    the cells: the arguments, the four counters, the boundary data and the
    number of cells are as before, and each of the seven array accessors
    answers after the call, at every index, what it answered before. *)
Theorem X16_forcing_update_frame {F : Type} `{Float64 F} (np_sum : list F → F)
    (self : Fespace2D F) (ci component : Z) (a : ndarray2 F) (self' : Fespace2D F)
    (g : Fespace2D F → Z → result (ndarray2 F * Fespace2D F)) :
  g ∈ forcing_accessors np_sum component →
  g self ci = Ok (a, self') →
  args self' = args self ∧ n_cells self' = n_cells self
  ∧ total_dofs self' = total_dofs self
  ∧ total_boundary_dofs self' = total_boundary_dofs self
  ∧ total_dirichlet_dofs self' = total_dirichlet_dofs self
  ∧ dirichlet_boundary_data self' = dirichlet_boundary_data self
  ∧ length (fe_cell self') = length (fe_cell self)
  ∧ Forall (λ gf, ∀ c', gf.1 self' c' = gf.1 self c') array_accessors.
Proof.
  intros Hg Hrun.
  by apply (proj1 (Forall_forall _ _)
              (forcing_accessors_frame np_sum self ci component a self') g Hg).
Qed.

Lemma X16_forcing_update_frame_witness :
  args ex_space_vector = args ex_space ∧ n_cells ex_space_vector = n_cells ex_space
  ∧ total_dofs ex_space_vector = total_dofs ex_space
  ∧ total_boundary_dofs ex_space_vector = total_boundary_dofs ex_space
  ∧ total_dirichlet_dofs ex_space_vector = total_dirichlet_dofs ex_space
  ∧ dirichlet_boundary_data ex_space_vector = dirichlet_boundary_data ex_space
  ∧ length (fe_cell ex_space_vector) = length (fe_cell ex_space)
  ∧ Forall (λ gf, ∀ c', gf.1 ex_space_vector c' = gf.1 ex_space c') array_accessors.
Proof.
  apply (X16_forcing_update_frame ex_np_sum ex_space 0 1 (mk_ndarray2 1 1 [[0%float]])
           ex_space_vector
           (λ self cell_index,
              get_forcing_function_values_vector ex_np_sum self cell_index 1)).
  - apply list_elem_of_further, list_elem_of_here.
  - vm_compute. reflexivity.
Defined.

(** X17: for a valid cell index, [get_forcing_function_values_vector]
    evaluates the forcing function once on the two columns of the
    quadrature points, takes the component asked for, and answers the
    column whose entry [i] is [np.sum] of the products
    [basis_at_quad[i, q] * f_values[q]]; it stores that column in the cell
    and leaves the other cells as they were. *)
Theorem X17_vector_forcing_integral {F : Type} `{Float64 F} (np_sum : list F → F)
    (self : Fespace2D F) (ci component : Z) (cell : FE2D_Cell F) (x y fv : list F) :
  cells_counted self →
  (0 ≤ ci < n_cells self)%Z →
  fe_cell self !! Z.to_nat ci = Some cell →
  wf_ndarray2 (basis_at_quad cell) →
  getcol (quad_actual_coordinates cell) 0 = Ok x →
  getcol (quad_actual_coordinates cell) 1 = Ok y →
  list_getitem (forcing_function_vector cell x y) component = Ok fv →
  length fv = shape1 (basis_at_quad cell) →
  ∃ a self',
    get_forcing_function_values_vector np_sum self ci component = Ok (a, self')
    ∧ shape0 a = shape0 (basis_at_quad cell) ∧ shape1 a = 1
    ∧ (∀ i, i < shape0 (basis_at_quad cell) →
         getitem2 a i 0 = Ok (spec_forcing_sum_vector np_sum cell fv i))
    ∧ fe_cell self' !! Z.to_nat ci = Some (set_forcing_at_quad cell a)
    ∧ (∀ j, j ≠ Z.to_nat ci → fe_cell self' !! j = fe_cell self !! j).
Proof.
  intros Hn Hci Hcell [Hl Hw] Hx Hy Hfv Hlen.
  pose proof (lookup_lt_Some _ _ _ Hcell) as Hlt.
  eexists _, _.
  split; [by eapply get_forcing_function_values_vector_valid|].
  cbn [shape0 shape1 fe_cell set_fe_cell].
  split; [done|]. split; [done|]. split; [|split].
  - intros i Hi.
    destruct (lookup_lt_is_Some_2 (rows (basis_at_quad cell)) i) as [r Hr]; [lia|].
    assert (length r = shape1 (basis_at_quad cell)) as Hrl
      by (eapply (Forall_lookup_1 _ _ _ _ Hw); eauto).
    unfold spec_forcing_sum_vector. rewrite Hr. cbn [default].
    apply (getitem2_lookup _ i 0 [np_sum (zip_with fmul r fv)]);
      cbn [shape0 shape1 rows]; [lia|lia| |done].
    rewrite list_lookup_fmap, Hr. simpl. by rewrite stretch_id.
  - by apply list_lookup_insert_eq.
  - intros j Hj. by apply list_lookup_insert_ne.
Qed.

Lemma X17_vector_forcing_integral_witness :
  ∃ a self',
    get_forcing_function_values_vector ex_np_sum ex_space 0 1 = Ok (a, self')
    ∧ shape0 a = shape0 (basis_at_quad ex_cell0) ∧ shape1 a = 1
    ∧ (∀ i, i < shape0 (basis_at_quad ex_cell0) →
         getitem2 a i 0
         = Ok (spec_forcing_sum_vector ex_np_sum ex_cell0 [0; 0.5; -0.5; 0]%float i))
    ∧ fe_cell self' !! Z.to_nat 0 = Some (set_forcing_at_quad ex_cell0 a)
    ∧ (∀ j, j ≠ Z.to_nat 0 → fe_cell self' !! j = fe_cell ex_space !! j).
Proof.
  apply (X17_vector_forcing_integral ex_np_sum ex_space 0 1 ex_cell0
           [0.25; 0.75; 0.25; 0.75]%float [0.25; 0.25; 0.75; 0.75]%float
           [0; 0.5; -0.5; 0]%float).
  - reflexivity.
  - simpl. lia.
  - reflexivity.
  - split; [reflexivity|repeat constructor].
  - reflexivity.
  - reflexivity.
  - vm_compute. reflexivity.
  - reflexivity.
Defined.

(** X18: for a cell index [c] with [0 <= c < n_cells], each of the seven
    array accessors answers the array of cell [c]. *)
Theorem X18_valid_index_reads_cell {F : Type} `{Float64 F}
    (self : Fespace2D F) (c : Z) (cell : FE2D_Cell F) :
  cells_counted self →
  (0 ≤ c < n_cells self)%Z →
  fe_cell self !! Z.to_nat c = Some cell →
  Forall (λ gf, gf.1 self c = Ok (gf.2 cell)) array_accessors.
Proof.
  unfold cells_counted. intros Hn Hc Hcell.
  destruct (list_getitem_nonneg (fe_cell self) c) as (cell' & Hcell' & Hget); [lia|].
  assert (cell' = cell) as -> by congruence.
  repeat (apply Forall_cons_2; [|]); [..|apply Forall_nil_2]; simpl;
    autounfold with accessors;
    (destruct (Z.ltb_spec (n_cells self) c); [lia|]); by rewrite Hget.
Qed.

Lemma X18_valid_index_reads_cell_witness :
  Forall (λ gf, gf.1 ex_space 1%Z = Ok (gf.2 ex_cell1)) array_accessors.
Proof.
  apply (X18_valid_index_reads_cell ex_space 1 ex_cell1).
  - reflexivity.
  - simpl. lia.
  - reflexivity.
Defined.

Section VectorProofs.
Context {F : Type} `{Float64 F}.

Lemma generate_dirichlet_boundary_data_vector_loops
    (dv : gmap Z (F → F → list F)) (self : Fespace2D F) component :
  Forall (λ it, component_agrees dv (bound_function_dict (args self)) component it.1)
    (boundary_points (args self)) →
  generate_dirichlet_boundary_data_vector dv self component
  = tags_loop (bound_function_dict (args self)) ([], []) (boundary_points (args self)).
Proof.
  intros Hagree. unfold generate_dirichlet_boundary_data_vector, tags_loop.
  apply for_loop_ext_in. intros xy [t pts] Hin.
  pose proof (proj1 (Forall_forall _ _) Hagree _ Hin) as Ht.
  unfold component_agrees in Ht. cbn [fst snd] in *.
  unfold points_loop. apply for_loop_ext_in. intros [x y] pt _.
  destruct (vec_getitem pt 0) as [p0|e]; [|done]. cbn [mbind result_bind].
  destruct (vec_getitem pt 1) as [p1|e]; [|done]. cbn [mbind result_bind].
  unfold dict_getitem.
  destruct (dv !! t) as [fv|], (bound_function_dict (args self) !! t) as [f|];
    try done.
  cbn [mbind result_bind]. by rewrite Ht.
Qed.

Lemma np_array3_same_shape N k (l : list (ndarray2 F)) :
  l ≠ [] → Forall (λ a, shape0 a = N ∧ shape1 a = k) l →
  np_array3 l = Ok (mk_ndarray3 (length l, N, k) (rows <$> l)).
Proof.
  intros Hne Hl. unfold np_array3. destruct l as [|a l]; [done|].
  pose proof (Forall_inv Hl) as [Ha0 Ha1].
  rewrite (proj2 (forallb_forall _ _)).
  - by rewrite Ha0, Ha1.
  - intros b Hb. rewrite Forall_forall in Hl.
    destruct (Hl b) as [-> ->]; [by apply list_elem_of_In|].
    by rewrite Ha0, Ha1, !Nat.eqb_refl.
Qed.

End VectorProofs.

(** * Further properties of the vector-valued variants and of the stacking *)

(** X19: [generate_dirichlet_boundary_data_vector(component)] is the scalar
    extraction on the component: when, at every listed tag, the scalar
    dictionary holds the component [component] of the vector-valued
    boundary function (or neither has an entry), the vector variant answers
    the lists [x] and [y] of [generate_dirichlet_boundary_data], or raises
    the same exception. *)
Theorem X19_dirichlet_vector_component {F : Type} `{Float64 F}
    (dv : gmap Z (F → F → list F)) (self : Fespace2D F) (component : Z) :
  Forall (λ it, component_agrees dv (bound_function_dict (args self)) component it.1)
    (boundary_points (args self)) →
  generate_dirichlet_boundary_data_vector dv self component
  = fst <$> generate_dirichlet_boundary_data self.
Proof.
  intros Hagree. rewrite generate_dirichlet_boundary_data_vector_loops by done.
  rewrite generate_dirichlet_boundary_data_loops.
  by destruct (tags_loop _ _ _).
Qed.

Lemma X19_dirichlet_vector_component_witness :
  generate_dirichlet_boundary_data_vector ex_bound_function_dict_vector ex_space 0
  = fst <$> generate_dirichlet_boundary_data ex_space.
Proof.
  apply (X19_dirichlet_vector_component ex_bound_function_dict_vector ex_space 0).
  repeat (apply Forall_cons_2; [|]); [..|apply Forall_nil_2];
    vm_compute; intros; reflexivity.
Defined.

(** X20: [get_forcing_data_for_training] squeezes the first axis of the
    transposed stack, which is the number of columns of the cells'
    [forcing_at_quad]: on a space without cells, or whose cells hold arrays
    of one shape with a number of columns other than one, it raises the
    [ValueError] of [np.squeeze]. *)
Theorem X20_stacking_refuses {F : Type} `{Float64 F} (N k : nat) (self : Fespace2D F) :
  cells_counted self →
  fe_cell self = []
  ∨ (Forall (λ c, shape0 (forcing_at_quad c) = N ∧ shape1 (forcing_at_quad c) = k)
       (fe_cell self) ∧ k ≠ 1) →
  get_forcing_data_for_training self = Raise (ValueError np_squeeze_msg).
Proof.
  intros Hn Hbad. unfold get_forcing_data_for_training.
  rewrite main_data_loop by done. cbn [mbind result_bind].
  destruct Hbad as [Hnil|[Hshape Hk]].
  - by rewrite Hnil.
  - destruct (decide (fe_cell self = [])) as [Hnil|Hne]; [by rewrite Hnil|].
    rewrite (np_array3_same_shape N k).
    + cbn [mbind result_bind]. unfold np_transpose3, np_squeeze0. cbn [shape3 planes].
      destruct k as [|[|k]]; [done|done|]. by cbn [seq fmap list_fmap].
    + by destruct (fe_cell self).
    + by rewrite Forall_fmap.
Qed.

Lemma X20_stacking_refuses_witness :
  get_forcing_data_for_training ex_space_two_columns = Raise (ValueError np_squeeze_msg).
Proof.
  apply (X20_stacking_refuses 1 2 ex_space_two_columns).
  - reflexivity.
  - right. split; [|lia]. apply Forall_cons_2; [|apply Forall_nil_2]. split; reflexivity.
Defined.
